(** * dart/planning/PathPlanner.h: the sampling-based path planner

    A shallow embedding of [PathPlanner<R>] (planPath, planSingleTreeRrt,
    planBidirectionalRrt) over the interface of its template parameter [R],
    together with a tree that follows the design document of the RRT, and
    the properties of the planner that the design document states.

    Scalars ([double]) are exact rationals, kept in lowest terms where the
    tree computes them; [size_t] counters are naturals.  A [while] loop of the
    source is a fixpoint on a step budget: [None] means that the budget ran
    out before the loop returned.  The robot, which the source shares by
    pointer between the caller, the planner and the trees, is threaded
    through every function that can move it. *)

From Stdlib Require Import String.
From Stdlib Require Import List Bool Arith ZArith QArith Qabs Qminmax Lia Lqa.
Import ListNotations.
Open Scope Q_scope.

Set Implicit Arguments.

(** ** Scalars and configurations *)

(** [a < b] on doubles. *)
Definition Qltb (a b : Q) : bool := negb (Qle_bool b a).

(** [Eigen::VectorXd]. *)
Definition VectorXd := list Q.

(** ** The articulated model *)

Module Skeleton.

(** Modelled from the spec: dart/dynamics/Skeleton.h is absent; section 6
    gives [getPositions(dofs)], [setPositions(dofs, Configuration)] and the
    DOF bound query.  A skeleton holds one position and one pair of bounds
    per DOF index. *)
Record t := mk {
  positions : nat -> Q;
  lowerLimit : nat -> Q;
  upperLimit : nat -> Q
}.

(** Modelled from the spec: [getPositions(dofs) -> Configuration]. *)
Definition getPositions (robot : t) (dofs : list nat) : VectorXd :=
  map (positions robot) dofs.

Definition setPosition (robot : t) (dof : nat) (x : Q) : t :=
  mk (fun i => if Nat.eqb i dof then x else positions robot i)
     (lowerLimit robot) (upperLimit robot).

(** Modelled from the spec: [setPositions(dofs, Configuration)], the DOFs
    written in their order; a configuration of another size than [dofs],
    which Eigen asserts against, writes the common prefix. *)
Fixpoint setPositions (robot : t) (dofs : list nat) (q : VectorXd) : t :=
  match dofs, q with
  | d :: dofs', x :: q' => setPositions (setPosition robot d x) dofs' q'
  | _, _ => robot
  end.

(** Modelled from the spec: the DOF bound query, lower and upper. *)
Definition getLowerLimits (robot : t) (dofs : list nat) : VectorXd :=
  map (lowerLimit robot) dofs.

Definition getUpperLimits (robot : t) (dofs : list nat) : VectorXd :=
  map (upperLimit robot) dofs.

End Skeleton.

(** Modelled from the spec: dart/simulation/World.h is absent; section 6 gives
    [checkCollision() -> bool], evaluated against the model's current
    positions.  A world knows how many DOFs its skeleton has and which of
    their positions collide with the environment. *)
Record World := { numDofs : nat; collides : VectorXd -> bool }.

(** Modelled from the spec: [world->checkCollision()] with the robot at its
    current positions. *)
Definition checkCollision (w : World) (robot : Skeleton.t) : bool :=
  collides w (Skeleton.getPositions robot (seq 0 (numDofs w))).

(** Modelled from the spec: the injected local-step solver of section 6,
    [solve(Configuration) -> Configuration | failure]. *)
Definition Solver := VectorXd -> option VectorXd.

(** ** The template parameter [R] *)

(** The status of one step.  Line 286 names [R::STEP_REACHED]; TRAPPED and
    ADVANCED are the two other outcomes of section 4.3. *)
Inductive StepResult := STEP_TRAPPED | STEP_REACHED | STEP_ADVANCED.

Module RRT.

(** What [PathPlanner<R>] uses of [R].  The methods that check validity move
    the robot, so they take and return the skeleton.  [connect] repeats a
    step an unbounded number of times: it takes a step budget and answers
    [None] when the budget runs out. *)
Class ops (R : Type) := {
  create : World -> Skeleton.t -> list nat -> list VectorXd -> Q ->
           option Solver -> R * Skeleton.t;
  reset : R -> World -> Skeleton.t -> list nat -> list VectorXd -> Q ->
          option Solver -> R * Skeleton.t;
  getSize : R -> nat;
  getRandomConfig : R -> VectorXd * R;
  connect : nat -> R -> Skeleton.t -> VectorXd -> option (bool * R * Skeleton.t);
  tryStep : R -> Skeleton.t -> VectorXd -> StepResult * R * Skeleton.t;
  getGap : R -> VectorXd -> Q;
  tracePath : R -> nat -> list VectorXd -> bool -> list VectorXd;
  mActiveNode : R -> nat;
  mConfigs : R -> list VectorXd
}.

End RRT.

(** ** The random engine of the planner *)

(** [std::mt19937 mMT], read through [mDistribution]: the state of the engine
    is the sequence of 53-bit mantissas it will hand out. *)
Definition MT := nat -> N.

(** [std::nextafter(1.0, 2.0)]. *)
Definition nextafter_1_2 : Q := 1 + 1 / inject_Z (2 ^ 52).

(** [std::generate_canonical]: a value of [[0, 1)]. *)
Definition generate_canonical (g : MT) : Q :=
  Z.of_N (g 0%nat mod 2 ^ 53) # (2 ^ 53).

(** [mDistribution(mMT)] with [mDistribution(0.0, std::nextafter(1.0, 2.0))]:
    the draw and the advanced engine. *)
Definition mDistribution (g : MT) : Q * MT :=
  (0 + (nextafter_1_2 - 0) * generate_canonical g, fun n => g (S n)).

(** ** The planner *)

(** Lines 32-42 and 100-107: the members of [PathPlanner<R>].  A null
    [unique_ptr] is [None]; [mRD] is read by the constructor only and
    [mDistribution] never changes. *)
Record PathPlanner (R : Type) := {
  connect : bool;
  bidirectional : bool;
  stepSize : Q;
  goalBias : Q;
  maxNodes : nat;
  world : World;
  solver : option Solver;
  start_rrt : option R;
  goal_rrt : option R;
  mMT : MT
}.

Arguments Build_PathPlanner {R}.

(** What a call leaves behind: the returned flag, the planner object, the
    robot, the caller's [path] list and the lines written to [dtwarn]. *)
Record Outcome (R : Type) := {
  returned : bool;
  planner_after : PathPlanner R;
  robot_after : Skeleton.t;
  path_after : list VectorXd;
  dtwarn_after : list string
}.

Arguments Build_Outcome {R}.

(** [R* rrt1], [R* rrt2]: a pointer to [*start_rrt] or to [*goal_rrt]. *)
Inductive Ptr := to_start_rrt | to_goal_rrt.

Section Planner.

Context {R : Type} {RR : RRT.ops R}.

Definition deref (s g : R) (p : Ptr) : R :=
  match p with to_start_rrt => s | to_goal_rrt => g end.

Definition assign (s g : R) (p : Ptr) (v : R) : R * R :=
  match p with to_start_rrt => (v, g) | to_goal_rrt => (s, v) end.

(** Lines 124-129 and 139-144: the configurations that are not in collision,
    in their order, and the robot left at the last one tried. *)
Fixpoint feasible (w : World) (robot : Skeleton.t) (dofs : list nat)
    (candidates : list VectorXd) : list VectorXd * Skeleton.t :=
  match candidates with
  | [] => ([], robot)
  | c :: rest =>
      let robot' := Skeleton.setPositions robot dofs c in
      let (kept, robot'') := feasible w robot' dofs rest in
      (if checkCollision w robot' then kept else c :: kept, robot'')
  end.

(** Lines 184-187, 241-244 and 246-249: a new tree when the pointer is null,
    a reset of the old one otherwise. *)
Definition initTree (self : PathPlanner R) (old : option R)
    (robot : Skeleton.t) (dofs : list nat) (roots : list VectorXd)
    : R * Skeleton.t :=
  match old with
  | None => RRT.create (world self) robot dofs roots (stepSize self) (solver self)
  | Some rrt => RRT.reset rrt (world self) robot dofs roots (stepSize self) (solver self)
  end.

(** Lines 194-199 and 264-269: the target by the bias. *)
Definition drawTarget (self : PathPlanner R) (goal : VectorXd) (rrt : R)
    (g : MT) : VectorXd * R * MT :=
  let (randomValue, g') := mDistribution g in
  if Qltb randomValue (goalBias self) then (goal, rrt, g')
  else let (target, rrt') := RRT.getRandomConfig rrt in (target, rrt', g').

(** Lines 202-205, 272-275 and 283-286: connect or take one step; the flag
    is the value of [connect(x)], or [tryStep(x) == R::STEP_REACHED]. *)
Definition extend (fuel : nat) (self : PathPlanner R) (rrt : R)
    (robot : Skeleton.t) (target : VectorXd)
    : option (bool * R * Skeleton.t) :=
  if connect self then RRT.connect fuel rrt robot target
  else
    let '(status, rrt', robot') := RRT.tryStep rrt robot target in
    Some (match status with STEP_REACHED => true | _ => false end, rrt', robot').

(** Lines 191-218: the loop of [planSingleTreeRrt]. *)
Fixpoint singleTreeLoop (fuel : nat) (self : PathPlanner R) (goal : VectorXd)
    (rrt : R) (robot : Skeleton.t) (g : MT) (path : list VectorXd)
    (numNodes : nat)
    : option (bool * R * Skeleton.t * MT * list VectorXd) :=
  match fuel with
  | O => None
  | S fuel' =>
      if (numNodes <=? maxNodes self)%nat then
        let '(target, rrt1, g1) := drawTarget self goal rrt g in
        match extend fuel' self rrt1 robot target with
        | None => None
        | Some (_, rrt2, robot2) =>
            let gap := RRT.getGap rrt2 goal in
            if Qltb gap (stepSize self) then
              Some (true, rrt2, robot2, g1,
                    RRT.tracePath rrt2 (RRT.mActiveNode rrt2) path false)
            else
              singleTreeLoop fuel' self goal rrt2 robot2 g1 path
                             (RRT.getSize rrt2)
        end
      else Some (false, rrt, robot, g, path)
  end.

Definition with_trees (self : PathPlanner R) (s g : option R) (mt : MT)
    : PathPlanner R :=
  Build_PathPlanner (connect self) (bidirectional self) (stepSize self)
    (goalBias self) (maxNodes self) (world self) (solver self) s g mt.

(** Lines 176-225. *)
Definition planSingleTreeRrt (fuel : nat) (self : PathPlanner R)
    (robot : Skeleton.t) (dofs : list nat) (start : list VectorXd)
    (goal : VectorXd) (path : list VectorXd)
    : option (bool * PathPlanner R * Skeleton.t * list VectorXd) :=
  let (rrt, robot1) := initTree self (start_rrt self) robot dofs start in
  match singleTreeLoop fuel self goal rrt robot1 (mMT self) path
                       (RRT.getSize rrt) with
  | None => None
  | Some (found, rrt', robot', g', path') =>
      Some (found, with_trees self (Some rrt') (goal_rrt self) g', robot', path')
  end.

(** Lines 257-310: the loop of [planBidirectionalRrt]; [s] and [g] are the
    objects [*start_rrt] and [*goal_rrt]. *)
Fixpoint bidirectionalLoop (fuel : nat) (self : PathPlanner R)
    (goal : list VectorXd) (s g : R) (rrt1 rrt2 : Ptr) (robot : Skeleton.t)
    (mt : MT) (path : list VectorXd) (numNodes : nat)
    : option (bool * R * R * Skeleton.t * MT * list VectorXd) :=
  match fuel with
  | O => None
  | S fuel' =>
      if (numNodes <? maxNodes self)%nat then
        let (rrt1, rrt2) := (rrt2, rrt1) in
        let '(target, t1, mt1) :=
          drawTarget self (nth 0 goal []) (deref s g rrt1) mt in
        let (s1, g1) := assign s g rrt1 t1 in
        match extend fuel' self (deref s1 g1 rrt1) robot target with
        | None => None
        | Some (_, t1', robot1) =>
            let (s2, g2) := assign s1 g1 rrt1 t1' in
            let rrt2target :=
              nth (RRT.mActiveNode (deref s2 g2 rrt1))
                  (RRT.mConfigs (deref s2 g2 rrt1)) [] in
            match extend fuel' self (deref s2 g2 rrt2) robot1 rrt2target with
            | None => None
            | Some (treesMet, t2', robot2) =>
                let (s3, g3) := assign s2 g2 rrt2 t2' in
                if treesMet then
                  let path1 := RRT.tracePath s3 (RRT.mActiveNode s3) path false in
                  Some (true, s3, g3, robot2, mt1,
                        RRT.tracePath g3 (RRT.mActiveNode g3) path1 true)
                else
                  bidirectionalLoop fuel' self goal s3 g3 rrt1 rrt2 robot2 mt1
                    path
                    (RRT.getSize (deref s3 g3 rrt1) + RRT.getSize (deref s3 g3 rrt2))
            end
        end
      else Some (false, s, g, robot, mt, path)
  end.

(** Lines 229-314. *)
Definition planBidirectionalRrt (fuel : nat) (self : PathPlanner R)
    (robot : Skeleton.t) (dofs : list nat) (start goal : list VectorXd)
    (path : list VectorXd)
    : option (bool * PathPlanner R * Skeleton.t * list VectorXd) :=
  let (s, robot1) := initTree self (start_rrt self) robot dofs start in
  let (g, robot2) := initTree self (goal_rrt self) robot1 dofs goal in
  match bidirectionalLoop fuel self goal s g to_start_rrt to_goal_rrt robot2
                          (mMT self) path (RRT.getSize s + RRT.getSize g) with
  | None => None
  | Some (found, s', g', robot', mt', path') =>
      Some (found, with_trees self (Some s') (Some g') mt', robot', path')
  end.

Definition warn_start : string :=
  "WARNING: PathPlanner: Feasible start points are empty!\n"%string.
Definition warn_goal : string :=
  "WARNING: PathPlanner: Feasible goal points are empty!\n"%string.
Definition warn_first_goal : string :=
  "WARNING: planPath is using ONLY the first goal!\n"%string.

(** Lines 112-172. *)
Definition planPath (fuel : nat) (self : PathPlanner R) (robot : Skeleton.t)
    (dofs : list nat) (start goal : list VectorXd) (path : list VectorXd)
    (log : list string) : option (Outcome R) :=
  let savedConfiguration := Skeleton.getPositions robot dofs in
  let (feasibleStart, robot1) := feasible (world self) robot dofs start in
  match feasibleStart with
  | [] => Some (Build_Outcome false self robot1 path (log ++ [warn_start]))
  | _ :: _ =>
      let (feasibleGoal, robot2) := feasible (world self) robot1 dofs goal in
      match feasibleGoal with
      | [] => Some (Build_Outcome false self robot2 path (log ++ [warn_goal]))
      | front :: others =>
          let log' :=
            if bidirectional self then log
            else match others with
                 | [] => log
                 | _ :: _ => log ++ [warn_first_goal]
                 end in
          match (if bidirectional self
                 then planBidirectionalRrt fuel self robot2 dofs feasibleStart
                                           feasibleGoal path
                 else planSingleTreeRrt fuel self robot2 dofs feasibleStart
                                        front path) with
          | None => None
          | Some (found, self', robot3, path') =>
              Some (Build_Outcome found self'
                      (Skeleton.setPositions robot3 dofs savedConfiguration)
                      path' log')
          end
      end
  end.

(** Lines 62-70: the overload for one start and one goal. *)
Definition planPath1 (fuel : nat) (self : PathPlanner R) (robot : Skeleton.t)
    (dofs : list nat) (start goal : VectorXd) (path : list VectorXd)
    (log : list string) : option (Outcome R) :=
  planPath fuel self robot dofs [start] [goal] path log.

End Planner.

(** ** A tree that follows the design document *)

Module Tree.

(** Modelled from the spec: a node of section 3, its configuration and its
    parent reference, [None] for a root. *)
Record Node := { configuration : VectorXd; parent : option nat }.

(** Modelled from the spec: dart/planning/RRT.h and RRT.cpp are absent.
    Section 3 gives the tree as an ordered arena of nodes with parent links,
    several roots, and an active node that is the most recently inserted
    one; a node's insertion index is its place in the arena.  The tree keeps
    what its constructor received, the DOF bounds of the model for the
    sampler of section 4.1, and the place of the sampler in its random
    sequence. *)
Record t := mk {
  nodes : list Node;
  activeNode : nat;
  world : World;
  dofs : list nat;
  stepSize : Q;
  solver : option Solver;
  lower : VectorXd;
  upper : VectorXd;
  cursor : nat
}.

Fixpoint map2 (f : Q -> Q -> Q) (a b : VectorXd) : VectorXd :=
  match a, b with
  | x :: a', y :: b' => f x y :: map2 f a' b'
  | _, _ => []
  end.

Fixpoint vec_eqb (a b : VectorXd) : bool :=
  match a, b with
  | [], [] => true
  | x :: a', y :: b' => Qeq_bool x y && vec_eqb a' b'
  | _, _ => false
  end.

Section Ops.

(** The distance metric of section 4.3 and the random sequence that the
    sampler of section 4.1 reads, values of [[0, 1]]. *)
Variable gap : VectorXd -> VectorXd -> Q.
Variable rand : nat -> Q.

(** Modelled from the spec: the configurations of the arena, by insertion
    index. *)
Definition mConfigs (tr : t) : list VectorXd := map configuration (nodes tr).

(** Modelled from the spec: the size of section 3. *)
Definition getSize (tr : t) : nat := length (nodes tr).

(** Modelled from the spec: section 4.4, one node per feasible start
    configuration, each a root. *)
Definition create (w : World) (robot : Skeleton.t) (ds : list nat)
    (roots : list VectorXd) (step : Q) (sv : option Solver)
    : t * Skeleton.t :=
  (mk (map (fun c => Build_Node c None) roots) (length roots - 1) w ds step sv
      (Skeleton.getLowerLimits robot ds) (Skeleton.getUpperLimits robot ds) 0,
   robot).

(** Modelled from the spec: section 3, a tree is created or reset at the
    start of each call; the sampler keeps its place. *)
Definition reset (tr : t) (w : World) (robot : Skeleton.t) (ds : list nat)
    (roots : list VectorXd) (step : Q) (sv : option Solver)
    : t * Skeleton.t :=
  (mk (map (fun c => Build_Node c None) roots) (length roots - 1) w ds step sv
      (Skeleton.getLowerLimits robot ds) (Skeleton.getUpperLimits robot ds)
      (cursor tr),
   robot).

Fixpoint sample (lo hi : VectorXd) (c : nat) : VectorXd :=
  match lo, hi with
  | l :: lo', h :: hi' => Qred (l + rand c * (h - l)) :: sample lo' hi' (S c)
  | _, _ => []
  end.

(** Modelled from the spec: section 4.1, a configuration drawn within the
    DOF bounds, no validity filtering, the generator advanced. *)
Definition getRandomConfig (tr : t) : VectorXd * t :=
  (sample (lower tr) (upper tr) (cursor tr),
   mk (nodes tr) (activeNode tr) (world tr) (dofs tr) (stepSize tr)
      (solver tr) (lower tr) (upper tr) (cursor tr + length (dofs tr))).

(** Modelled from the spec: section 4.2, [isValid] sets the model to the
    configuration and queries the environment for collision. *)
Definition isValid (tr : t) (robot : Skeleton.t) (config : VectorXd)
    : bool * Skeleton.t :=
  let robot' := Skeleton.setPositions robot (dofs tr) config in
  (negb (checkCollision (world tr) robot'), robot').

Fixpoint nearestFrom (target : VectorXd) (rest : list Node) (i best : nat)
    (bestGap : Q) : nat :=
  match rest with
  | [] => best
  | n :: rest' =>
      let d := gap (configuration n) target in
      if Qltb d bestGap then nearestFrom target rest' (S i) i d
      else nearestFrom target rest' (S i) best bestGap
  end.

(** Modelled from the spec: section 4.3, a linear scan over all nodes. *)
Definition nearest (tr : t) (target : VectorXd) : nat :=
  match nodes tr with
  | [] => 0%nat
  | n :: rest => nearestFrom target rest 1 0 (gap (configuration n) target)
  end.

(** Modelled from the spec: section 4.3 step 2, the configuration at
    distance [min(stepSize, gap(nearest, target))] from the nearest node
    toward the target. *)
Definition candidate (tr : t) (qnear target : VectorXd) : VectorXd :=
  let d := gap qnear target in
  map2 (fun a b => Qred (a + (Qmin (stepSize tr) d / d) * (b - a))) qnear target.

(** Modelled from the spec: section 3, nodes are appended and the inserted
    node becomes the active node. *)
Definition addNode (tr : t) (config : VectorXd) (p : option nat) : t :=
  mk (nodes tr ++ [Build_Node config p]) (length (nodes tr)) (world tr)
     (dofs tr) (stepSize tr) (solver tr) (lower tr) (upper tr) (cursor tr).

(** Modelled from the spec: section 4.3, [tryStep(target)], steps 1 to 4. *)
Definition tryStep (tr : t) (robot : Skeleton.t) (target : VectorXd)
    : StepResult * t * Skeleton.t :=
  let near := nearest tr target in
  let qnear := nth near (mConfigs tr) [] in
  let qnew := candidate tr qnear target in
  let (valid, robot') := isValid tr robot qnew in
  if valid then
    (if vec_eqb qnew target then STEP_REACHED else STEP_ADVANCED,
     addNode tr qnew (Some near), robot')
  else (STEP_TRAPPED, tr, robot').

(** Modelled from the spec: section 4.3, [connect(target)] applies
    [tryStep(target)] until it returns TRAPPED or REACHED. *)
Fixpoint connect (fuel : nat) (tr : t) (robot : Skeleton.t)
    (target : VectorXd) : option (bool * t * Skeleton.t) :=
  match fuel with
  | O => None
  | S fuel' =>
      let '(status, tr', robot') := tryStep tr robot target in
      match status with
      | STEP_TRAPPED => Some (false, tr', robot')
      | STEP_REACHED => Some (true, tr', robot')
      | STEP_ADVANCED => connect fuel' tr' robot' target
      end
  end.

(** Modelled from the spec: section 4.4 step 3, the gap of the active
    node's configuration to the goal. *)
Definition getGap (tr : t) (target : VectorXd) : Q :=
  gap (nth (activeNode tr) (mConfigs tr) []) target.

(** The walk of [tracePath] along the parent links; by the acyclicity of
    section 3 it ends within as many steps as the tree has nodes. *)
Fixpoint walk (steps : nat) (ns : list Node) (x : option nat)
    (path : list VectorXd) (reverse : bool) : list VectorXd :=
  match steps, x with
  | S steps', Some i =>
      match nth_error ns i with
      | Some n =>
          walk steps' ns (parent n)
               (if reverse then path ++ [configuration n]
                else configuration n :: path)
               reverse
      | None => path
      end
  | _, _ => path
  end.

(** Modelled from the spec: section 4.6, [tracePath(node, outPath,
    reverse)]; the goal-side trace of section 4.5 is appended to the path
    that holds the start-side trace. *)
Definition tracePath (tr : t) (node : nat) (path : list VectorXd)
    (reverse : bool) : list VectorXd :=
  walk (length (nodes tr)) (nodes tr) (Some node) path reverse.

Definition rrt_ops : RRT.ops t :=
  {| RRT.create := create;
     RRT.reset := reset;
     RRT.getSize := getSize;
     RRT.getRandomConfig := getRandomConfig;
     RRT.connect := connect;
     RRT.tryStep := tryStep;
     RRT.getGap := getGap;
     RRT.tracePath := tracePath;
     RRT.mActiveNode := activeNode;
     RRT.mConfigs := mConfigs |}.

End Ops.

(** The Euclidean distance [|a - b|] of one-DOF configurations, summed over
    the DOFs when there are several. *)
Definition distance (a b : VectorXd) : Q :=
  fold_right Qplus 0 (map2 (fun x y => Qabs (x - y)) a b).

(** The configurations met on the way from a node up to its root, the node
    first. *)
Fixpoint chain (steps : nat) (ns : list Node) (x : option nat)
    : list VectorXd :=
  match steps, x with
  | S steps', Some i =>
      match nth_error ns i with
      | Some n => configuration n :: chain steps' ns (parent n)
      | None => []
      end
  | _, _ => []
  end.

Definition trace (tr : t) (node : nat) : list VectorXd :=
  chain (length (nodes tr)) (nodes tr) (Some node).



(** Every configuration of the tree, and each bound of the sampler, has one
    value per planned DOF. *)
Definition dimensioned (tr : t) : Prop :=
  Forall (fun n => length (configuration n) = length (dofs tr)) (nodes tr) /\
  length (lower tr) = length (dofs tr) /\
  length (upper tr) = length (dofs tr).

End Tree.

(** ** Construction *)

Section Construction.

(** [std::mt19937] seeded with a value: the state the engine starts in. *)
Variable mt19937 : N -> MT.

(** Lines 50-56: the constructor.  It has no seed among its arguments;
    [mRD] is the value that the planner's own [std::random_device] hands
    out when the engine is initialised with [mMT(mRD())]. *)
Definition PathPlanner_new {R : Type} (mRD : N) (world_ : World)
    (bidirectional_ connect_ : bool) (stepSize_ : Q) (maxNodes_ : nat)
    (goalBias_ : Q) : PathPlanner R :=
  Build_PathPlanner connect_ bidirectional_ stepSize_ goalBias_ maxNodes_
    world_ None None None (mt19937 mRD).

End Construction.

(** The number of nodes behind a tree pointer; a null pointer has no tree. *)
Definition treeSize {R : Type} {RR : RRT.ops R} (p : option R) : nat :=
  match p with
  | None => 0%nat
  | Some rrt => RRT.getSize rrt
  end.

(** ** One-DOF scenarios *)

Module Scenario.

Definition dofs : list nat := [0%nat].

(** A robot with one DOF at [x], with bounds [lo] and [hi]. *)
Definition robot_at (x lo hi : Q) : Skeleton.t :=
  Skeleton.mk (fun _ => x) (fun _ => lo) (fun _ => hi).

(** No obstacle. *)
Definition free : World := {| numDofs := 1; collides := fun _ => false |}.

(** Obstacles exactly at the positions [xs]. *)
Definition blocked_at (xs : list Q) : World :=
  {| numDofs := 1; collides := fun q => existsb (Qeq_bool (nth 0 q 0)) xs |}.

(** Obstacles everywhere but at the positions [xs]. *)
Definition open_only_at (xs : list Q) : World :=
  {| numDofs := 1;
     collides := fun q => negb (existsb (Qeq_bool (nth 0 q 0)) xs) |}.

(** An engine that hands out the mantissa [k] for ever. *)
Definition constant (k : N) : MT := fun _ => k.

(** The tree of the design document with the one-DOF distance and a sampler
    that always draws the lower bound. *)
Definition ops : RRT.ops Tree.t := Tree.rrt_ops Tree.distance (fun _ => 0).

Definition planner_of (w : World) (bidirectional_ connect_ : bool)
    (stepSize_ : Q) (maxNodes_ : nat) (goalBias_ : Q) (k : N)
    : PathPlanner Tree.t :=
  PathPlanner_new constant k w bidirectional_ connect_ stepSize_ maxNodes_
                  goalBias_.

(** What a test reads off a call. *)
Definition observe (o : option (Outcome Tree.t))
    : option (bool * list VectorXd * VectorXd * nat * nat) :=
  match o with
  | None => None
  | Some o =>
      Some (returned o, path_after o,
            Skeleton.getPositions (robot_after o) dofs,
            treeSize (RR := ops) (start_rrt (planner_after o)),
            treeSize (RR := ops) (goal_rrt (planner_after o)))
  end.

End Scenario.

(** ** A walled-in scenario *)

Module Walled.

(** Everything collides but the positions 0 and 5; the sampler can only draw
    the position 3. *)
Definition w : World := Scenario.open_only_at [0; 5].
Definition robot0 : Skeleton.t := Scenario.robot_at 0 3 3.

(** The tree with the single root [x], its sampler at place [c]. *)
Definition rooted (x : Q) (c : nat) : Tree.t :=
  Tree.mk [Tree.Build_Node [x] None] 0 w Scenario.dofs 1 None [3] [3] c.

Definition single (connect_ : bool) (g : MT) : PathPlanner Tree.t :=
  Build_PathPlanner connect_ false 1 (1 # 2) 10 w None None None g.

Definition double (connect_ : bool) (g : MT) : PathPlanner Tree.t :=
  Build_PathPlanner connect_ true 1 0 10 w None None None g.

End Walled.

(** ** Comparing two planners and two calls *)



(** Two robots with the same bounds that hold the same positions on every
    DOF outside [dofs]. *)
Definition same_elsewhere (dofs : list nat) (r r' : Skeleton.t) : Prop :=
  Skeleton.lowerLimit r = Skeleton.lowerLimit r' /\
  Skeleton.upperLimit r = Skeleton.upperLimit r' /\
  forall i, ~ In i dofs -> Skeleton.positions r i = Skeleton.positions r' i.

(** A tree with at least one node whose configurations have the dimension of
    the planned DOFs. *)
Definition planted (tr : Tree.t) : Prop :=
  Tree.dimensioned tr /\ Tree.nodes tr <> [].

(** Two calls that ran out of budget together or returned the same flag,
    path, trees and engine, and left every DOF of the robot at the same
    position. *)
Definition same_answer (a b : option (Outcome Tree.t)) : Prop :=
  match a, b with
  | None, None => True
  | Some x, Some y =>
      returned x = returned y /\ path_after x = path_after y /\
      start_rrt (planner_after x) = start_rrt (planner_after y) /\
      goal_rrt (planner_after x) = goal_rrt (planner_after y) /\
      mMT (planner_after x) = mMT (planner_after y) /\
      forall i, Skeleton.positions (robot_after x) i
                = Skeleton.positions (robot_after y) i
  | _, _ => False
  end.

(** ** dart/dynamics/ShapeFrame.cpp *)

Module ShapeFrame.

(** [ShapePtr], a shared pointer to a shape: null, or the address of a
    shape. *)
Definition ShapePtr := option nat.

(** [shape == mShapeFrameP.mShape] on shared pointers. *)
Definition ShapePtr_eqb (a b : ShapePtr) : bool :=
  match a, b with
  | None, None => true
  | Some x, Some y => Nat.eqb x y
  | _, _ => false
  end.

(** Lines 186-199: [ShapeFrame::UniqueProperties], a shape and a version
    that starts at 0; [mVersion] is a [size_t]. *)
Record UniqueProperties := { mShape : ShapePtr; mVersion : N }.

Definition UniqueProperties_new (shape : ShapePtr) : UniqueProperties :=
  {| mShape := shape; mVersion := 0 |}.

(** What this file reads and writes of a [ShapeFrame]: the member
    [mShapeFrameP], and the pairs (old shape, new shape) that
    [mShapeUpdatedSignal] has raised, oldest first. *)
Record t := { mShapeFrameP : UniqueProperties; raised : list (ShapePtr * ShapePtr) }.

(** Lines 258-268. *)
Definition setShape (shape : ShapePtr) (f : t) : t :=
  if ShapePtr_eqb shape (mShape (mShapeFrameP f)) then f
  else
    let oldShape := mShape (mShapeFrameP f) in
    {| mShapeFrameP := {| mShape := shape; mVersion := mVersion (mShapeFrameP f) |};
       raised := raised f ++ [(oldShape, shape)] |}.

(** Lines 271-280. *)
Definition getShape (f : t) : ShapePtr := mShape (mShapeFrameP f).

(** Lines 228-231: [setProperties(const UniqueProperties&)]. *)
Definition setProperties (properties : UniqueProperties) (f : t) : t :=
  setShape (mShape properties) f.

(** Lines 304-307: [++mShapeFrameP.mVersion] on 64 bits, and the value
    returned. *)
Definition incrementVersion (f : t) : N * t :=
  let v := ((mVersion (mShapeFrameP f) + 1) mod 2 ^ 64)%N in
  (v, {| mShapeFrameP := {| mShape := mShape (mShapeFrameP f); mVersion := v |};
         raised := raised f |}).

(** Lines 310-313. *)
Definition getVersion (f : t) : N := mVersion (mShapeFrameP f).

(** [n] calls of [incrementVersion] in a row. *)
Fixpoint incrementVersions (n : nat) (f : t) : t :=
  match n with
  | O => f
  | S n' => incrementVersions n' (snd (incrementVersion f))
  end.

(** A list of raised signals that leads from the shape [from] to the shape
    [to], each signal starting where the one before ended and none of them
    with the same shape on both sides. *)
Fixpoint chained (from : ShapePtr) (signals : list (ShapePtr * ShapePtr))
    (to : ShapePtr) : Prop :=
  match signals with
  | [] => from = to
  | (old, new) :: rest => old = from /\ old <> new /\ chained new rest to
  end.

End ShapeFrame.

Module VisualAspect.

Definition Vector3d := (Q * Q * Q)%type.
Definition Vector4d := (Q * Q * Q * Q)%type.

(** [rgba.head<3>()], [rgba.head<3>() = rgb] and [rgba[3]],
    [rgba[3] = alpha]. *)
Definition head3 (rgba : Vector4d) : Vector3d :=
  let '(r, g, b, _) := rgba in (r, g, b).
Definition set_head3 (rgba : Vector4d) (rgb : Vector3d) : Vector4d :=
  let '(_, _, _, a) := rgba in let '(r, g, b) := rgb in (r, g, b, a).
Definition at3 (rgba : Vector4d) : Q := let '(_, _, _, a) := rgba in a.
Definition set_at3 (rgba : Vector4d) (alpha : Q) : Vector4d :=
  let '(r, g, b, _) := rgba in (r, g, b, alpha).

(** Lines 47-53: [detail::VisualAspectProperties]. *)
Record Properties := { mRGBA : Vector4d; mHidden : bool }.

(** The calls a setter makes on code outside this file, which are recorded
    and not followed: on the aspect's base class and on the shape of the
    composite. *)
Inductive Call :=
| notifyPropertiesUpdate
| notifyColorUpdate (shape : nat) (color : Vector4d)
| notifyAlphaUpdate (shape : nat) (alpha : Q).

(** A visual aspect: its member [mProperties] and the calls it has made,
    oldest first. *)
Record t := { mProperties : Properties; calls : list Call }.

(** Lines 85-92; [shape] is what [mComposite->getShape()] returns, and a
    null one cannot be dereferenced. *)
Definition setRGBA (shape : ShapeFrame.ShapePtr) (color : Vector4d) (va : t)
    : option t :=
  let props := {| mRGBA := color; mHidden := mHidden (mProperties va) |} in
  match shape with
  | None => None
  | Some s =>
      Some {| mProperties := props;
              calls := calls va ++ [notifyPropertiesUpdate; notifyColorUpdate s color] |}
  end.

(** Lines 116-123. *)
Definition setAlpha (shape : ShapeFrame.ShapePtr) (alpha : Q) (va : t)
    : option t :=
  let props := {| mRGBA := set_at3 (mRGBA (mProperties va)) alpha;
                  mHidden := mHidden (mProperties va) |} in
  match shape with
  | None => None
  | Some s =>
      Some {| mProperties := props;
              calls := calls va ++ [notifyPropertiesUpdate; notifyAlphaUpdate s alpha] |}
  end.

Section Accessors.

(** [getRGBA()] is declared in ShapeFrame.h, which is absent: it is a
    parameter here. *)
Variable getRGBA : t -> Vector4d.

(** Lines 107-113. *)
Definition setRGB (shape : ShapeFrame.ShapePtr) (rgb : Vector3d) (va : t)
    : option t :=
  let rgba := set_head3 (getRGBA va) rgb in
  setRGBA shape rgba va.

(** Lines 95-104: the two overloads of [setColor]. *)
Definition setColor3 (shape : ShapeFrame.ShapePtr) (color : Vector3d) (va : t)
    : option t := setRGB shape color va.
Definition setColor4 (shape : ShapeFrame.ShapePtr) (color : Vector4d) (va : t)
    : option t := setRGBA shape color va.

(** Lines 132-141. *)
Definition getRGB (va : t) : Vector3d := head3 (getRGBA va).
Definition getAlpha (va : t) : Q := at3 (getRGBA va).

(** Lines 126-129. *)
Definition getColor (va : t) : Vector3d := getRGB va.

End Accessors.

End VisualAspect.

(** ** dart/gui/osg/examples/osgHuboPuppet.cpp: helpers *)


Module RelaxedPosture.

(** Lines 301-385: the members of [RelaxedPosture]. *)
Record t := {
  enforceIdealPosture : bool;
  mResultVector : VectorXd;
  mIdeal : VectorXd;
  mLower : VectorXd;
  mUpper : VectorXd;
  mWeights : VectorXd
}.

(** Lines 305-324: the constructor; the flag tells whether [dterr] reported
    a dimension mismatch, which does not stop the construction. *)
Definition create (idealPosture lower upper weights : VectorXd)
    (enforceIdeal : bool) : t * bool :=
  let dofs := length idealPosture in
  ({| enforceIdealPosture := enforceIdeal;
      mResultVector := repeat 0 dofs;
      mIdeal := idealPosture; mLower := lower; mUpper := upper;
      mWeights := weights |},
   negb (length lower =? dofs)%nat || negb (length weights =? dofs)%nat
   || negb (length upper =? dofs)%nat).

(** [v[i] = x] on an Eigen vector; an index past the end is not defined. *)
Fixpoint assign (i : nat) (x : Q) (v : VectorXd) : option VectorXd :=
  match v, i with
  | [], _ => None
  | _ :: v', O => Some (x :: v')
  | y :: v', S i' =>
      match assign i' x v' with
      | Some r => Some (y :: r)
      | None => None
      end
  end.

(** Lines 349-356: the loop taken when [enforceIdealPosture] is set, from
    index [i] on, [rest] being [_x] from that index. *)
Fixpoint enforceLoop (self : t) (i : nat) (rest : VectorXd)
    (result : VectorXd) : option VectorXd :=
  match rest with
  | [] => Some result
  | xi :: rest' =>
      if (length (mIdeal self) <=? i)%nat then Some result
      else
        match nth_error (mWeights self) i, nth_error (mIdeal self) i with
        | Some w, Some ideal =>
            match assign i (w * (xi - ideal)) result with
            | Some result' => enforceLoop self (S i) rest' result'
            | None => None
            end
        | _, _ => None
        end
  end.

(** Lines 359-369: the loop taken otherwise. *)
Fixpoint relaxedLoop (self : t) (i : nat) (rest : VectorXd)
    (result : VectorXd) : option VectorXd :=
  match rest with
  | [] => Some result
  | xi :: rest' =>
      if (length (mIdeal self) <=? i)%nat then Some result
      else
        match nth_error (mLower self) i with
        | None => None
        | Some lo =>
            if Qltb xi lo then
              match nth_error (mWeights self) i with
              | Some w =>
                  match assign i (w * (xi - lo)) result with
                  | Some result' => relaxedLoop self (S i) rest' result'
                  | None => None
                  end
              | None => None
              end
            else
              match nth_error (mUpper self) i with
              | None => None
              | Some up =>
                  if Qltb up xi then
                    match nth_error (mWeights self) i with
                    | Some w =>
                        match assign i (w * (xi - up)) result with
                        | Some result' => relaxedLoop self (S i) rest' result'
                        | None => None
                        end
                    | None => None
                    end
                  else relaxedLoop self (S i) rest' result
              end
        end
  end.

Definition with_result (self : t) (r : VectorXd) : t :=
  {| enforceIdealPosture := enforceIdealPosture self;
     mResultVector := r;
     mIdeal := mIdeal self; mLower := mLower self; mUpper := mUpper self;
     mWeights := mWeights self |}.

(** Lines 343-370: [computeResultVector]; [setZero()] keeps the size. *)
Definition computeResultVector (x : VectorXd) (self : t) : option t :=
  let zero := map (fun _ => 0) (mResultVector self) in
  match (if enforceIdealPosture self then enforceLoop self 0 x zero
         else relaxedLoop self 0 x zero) with
  | Some r => Some (with_result self r)
  | None => None
  end.

(** [a.dot(b)]. *)
Fixpoint dot (a b : VectorXd) : Q :=
  match a, b with
  | x :: a', y :: b' => x * y + dot a' b'
  | _, _ => 0
  end.

(** Lines 326-330. *)
Definition eval (x : VectorXd) (self : t) : option (Q * t) :=
  match computeResultVector x self with
  | Some self' =>
      Some ((1 # 2) * dot (mResultVector self') (mResultVector self'), self')
  | None => None
  end.

(** Lines 332-341: [evalGradient]; the gradient handed back has the size of
    [_grad]. *)
Definition evalGradient (x : VectorXd) (grad : VectorXd) (self : t)
    : option (VectorXd * t) :=
  match computeResultVector x self with
  | Some self' =>
      let smaller := Nat.min (length (mResultVector self')) (length grad) in
      Some (firstn smaller (mResultVector self')
              ++ repeat 0 (length grad - smaller),
            self')
  | None => None
  end.



End RelaxedPosture.

(** Lines 1125-1146: the three overloads of [ADD_CONFIG]; the parameter pack
    is the list of the values still to take, [X] the values taken so far. *)
Fixpoint ADD_CONFIG_X (X : list Q) (remainder : list Q)
    (configs : list VectorXd) : list VectorXd :=
  match remainder with
  | [] => configs ++ [X]
  | x :: remainder' => ADD_CONFIG_X (X ++ [x]) remainder' configs
  end.

Definition ADD_CONFIG (x : Q) (remainder : list Q) (configs : list VectorXd)
    : list VectorXd :=
  ADD_CONFIG_X [] (x :: remainder) configs.

(** ** dart/gui/osg/examples/osgHuboPuppet.cpp: [TeleoperationWorld] *)

Module TeleoperationWorld.

(** Lines 967-980. *)
Inductive MoveEnum_t :=
| MOVE_Q | MOVE_W | MOVE_E | MOVE_A | MOVE_S | MOVE_D | MOVE_F | MOVE_Z.

Definition index (m : MoveEnum_t) : nat :=
  match m with
  | MOVE_Q => 0 | MOVE_W => 1 | MOVE_E => 2 | MOVE_A => 3
  | MOVE_S => 4 | MOVE_D => 5 | MOVE_F => 6 | MOVE_Z => 7
  end.

Definition NUM_MOVE : nat := 8.

(** The members that the keys of the handler write. *)
Record t := {
  mMoveComponents : list bool;
  mAnyMovement : bool;
  mAmplifyMovement : bool
}.

(** Lines 982-997: the constructor. *)
Definition create : t :=
  {| mMoveComponents := repeat false NUM_MOVE;
     mAnyMovement := false;
     mAmplifyMovement := false |}.

(** Lines 1005-1012: the loop of [setMovement], which stops at the first
    component that is set. *)
Fixpoint anyLoop (moves : list bool) : bool :=
  match moves with
  | [] => false
  | move :: moves' => if move then true else anyLoop moves'
  end.

(** Lines 999-1013. *)
Definition setMovement (moveComponents : list bool) (self : t) : t :=
  {| mMoveComponents := moveComponents;
     mAnyMovement := anyLoop moveComponents;
     mAmplifyMovement := mAmplifyMovement self |}.

Definition setAmplifyMovement (amplify : bool) (self : t) : t :=
  {| mMoveComponents := mMoveComponents self;
     mAnyMovement := mAnyMovement self;
     mAmplifyMovement := amplify |}.

End TeleoperationWorld.

(** ** dart/gui/osg/examples/osgHuboPuppet.cpp: [InputHandler] *)

Module InputHandler.

Import Ascii.

(** [int] is a 32-bit and [size_t] a 64-bit integer, both held in [Z]: a
    signed increment or decrement that overflows is not defined, a [size_t]
    wraps around, and the conversions between the two are modular. *)
Definition int_max : Z := (2 ^ 31 - 1)%Z.
Definition int_min : Z := (- 2 ^ 31)%Z.
Definition incr (i : Z) : option Z :=
  if (i <? int_max)%Z then Some (i + 1)%Z else None.
Definition decr (i : Z) : option Z :=
  if (int_min <? i)%Z then Some (i - 1)%Z else None.
Definition to_size_t (i : Z) : Z := (i mod 2 ^ 64)%Z.
Definition to_int (n : Z) : Z := ((n + 2 ^ 31) mod 2 ^ 32 - 2 ^ 31)%Z.

(** [v.size()]. *)
Definition size (A : Type) (v : list A) : Z := Z.of_nat (length v).

(** [v[i] = x] and [v.erase(v.begin()+i)] for an index within the vector. *)
Fixpoint store (A : Type) (i : nat) (x : A) (v : list A) : list A :=
  match v, i with
  | [], _ => []
  | _ :: v', O => x :: v'
  | y :: v', S i' => y :: store i' x v'
  end.

(** [v[i]] for an [int] index, which is converted to [size_t]; past the end
    it is not defined. *)
Definition at_ (A : Type) (v : list A) (i : Z) : option A :=
  nth_error v (Z.to_nat (to_size_t i)).

Fixpoint erase (A : Type) (i : nat) (v : list A) : list A :=
  match v, i with
  | [], _ => []
  | _ :: v', O => v'
  | y :: v', S i' => y :: erase i' v'
  end.

(** Line 47. *)
Definition DefaultAlpha : Q := 3 # 10.
Definition SelectedColor : VisualAspect.Vector4d := (1, 0, 0, DefaultAlpha).

(** Lines 189-202: a [Box], with what the handler uses of its [node]: the
    number in the node's name, the shape it was given and the visual aspect
    made for it, null before [createVisualAspect]. *)
Record Box := {
  left : bool;
  name : Z;
  shape : ShapeFrame.ShapePtr;
  visual : option VisualAspect.t
}.

(** [box->node->getVisualAspect()->setColor(color)], with [setColor] of
    ShapeFrame.cpp. *)
Definition setColor (color : VisualAspect.Vector4d) (b : Box) : option Box :=
  match visual b with
  | None => None
  | Some va =>
      match VisualAspect.setColor4 (shape b) color va with
      | Some va' =>
          Some {| left := left b; name := name b; shape := shape b;
                  visual := Some va' |}
      | None => None
      end
  end.

Section Handler.

(** [dart::Color::Blue] and [dart::Color::Fuschia] of lines 42-43, the
    properties of a visual aspect just created, and the [Skeleton] with its
    [getPositions()] and [setPositions(q)] are declared in files that are
    absent: they are parameters here. *)
Variable LeftColor RightColor : VisualAspect.Vector4d.
Variable createVisualAspect : VisualAspect.t.
Variable Skeleton : Type.
Variable getPositions : Skeleton -> VectorXd.
Variable setPositions : VectorXd -> Skeleton -> Skeleton.

(** Lines 1895-1941: the members that the keys below read or write.
    [mTeleop] stands for the world it points to and [mHubo] is null or a
    skeleton; [lights] holds the arguments given to
    [mViewer->setupCustomLights], oldest first; [currentBox] is null or
    the index in [boxes] of the box it shares; [currentDnD] is null or the
    index of the box whose node the viewer lets be dragged. The calls on
    the world and on [mBalance] are not followed. *)
Record t := {
  mTeleop : TeleoperationWorld.t;
  mHubo : option Skeleton;
  mPosture : option RelaxedPosture.t;
  mOptimizationKey : ascii;
  mMoveComponents : list bool;
  mLighting : Z;
  lights : list Z;
  mSelectedBox : Z;
  boxes : list Box;
  currentBox : option nat;
  currentDnD : option nat;
  numBoxes : Z;
  configs : list VectorXd;
  c_index : Z
}.

Definition with_teleop (w : TeleoperationWorld.t) (s : t) : t :=
  {| mTeleop := w; mHubo := mHubo s; mPosture := mPosture s;
     mOptimizationKey := mOptimizationKey s;
     mMoveComponents := mMoveComponents s; mLighting := mLighting s;
     lights := lights s; mSelectedBox := mSelectedBox s; boxes := boxes s;
     currentBox := currentBox s; currentDnD := currentDnD s;
     numBoxes := numBoxes s; configs := configs s; c_index := c_index s |}.

Definition with_moves (moves : list bool) (w : TeleoperationWorld.t) (s : t) : t :=
  {| mTeleop := w; mHubo := mHubo s; mPosture := mPosture s;
     mOptimizationKey := mOptimizationKey s; mMoveComponents := moves;
     mLighting := mLighting s; lights := lights s;
     mSelectedBox := mSelectedBox s; boxes := boxes s;
     currentBox := currentBox s; currentDnD := currentDnD s;
     numBoxes := numBoxes s; configs := configs s; c_index := c_index s |}.

Definition with_posture (p : option RelaxedPosture.t) (s : t) : t :=
  {| mTeleop := mTeleop s; mHubo := mHubo s; mPosture := p;
     mOptimizationKey := mOptimizationKey s;
     mMoveComponents := mMoveComponents s; mLighting := mLighting s;
     lights := lights s; mSelectedBox := mSelectedBox s; boxes := boxes s;
     currentBox := currentBox s; currentDnD := currentDnD s;
     numBoxes := numBoxes s; configs := configs s; c_index := c_index s |}.

Definition with_lighting (l : Z) (s : t) : t :=
  {| mTeleop := mTeleop s; mHubo := mHubo s; mPosture := mPosture s;
     mOptimizationKey := mOptimizationKey s;
     mMoveComponents := mMoveComponents s; mLighting := l;
     lights := lights s ++ [l]; mSelectedBox := mSelectedBox s;
     boxes := boxes s; currentBox := currentBox s;
     currentDnD := currentDnD s; numBoxes := numBoxes s;
     configs := configs s; c_index := c_index s |}.

Definition with_selected (i : Z) (s : t) : t :=
  {| mTeleop := mTeleop s; mHubo := mHubo s; mPosture := mPosture s;
     mOptimizationKey := mOptimizationKey s;
     mMoveComponents := mMoveComponents s; mLighting := mLighting s;
     lights := lights s; mSelectedBox := i; boxes := boxes s;
     currentBox := currentBox s; currentDnD := currentDnD s;
     numBoxes := numBoxes s; configs := configs s; c_index := c_index s |}.

Definition with_boxes (bs : list Box) (cur dnd : option nat) (s : t) : t :=
  {| mTeleop := mTeleop s; mHubo := mHubo s; mPosture := mPosture s;
     mOptimizationKey := mOptimizationKey s;
     mMoveComponents := mMoveComponents s; mLighting := mLighting s;
     lights := lights s; mSelectedBox := mSelectedBox s; boxes := bs;
     currentBox := cur; currentDnD := dnd; numBoxes := numBoxes s;
     configs := configs s; c_index := c_index s |}.

Definition with_numBoxes (n : Z) (s : t) : t :=
  {| mTeleop := mTeleop s; mHubo := mHubo s; mPosture := mPosture s;
     mOptimizationKey := mOptimizationKey s;
     mMoveComponents := mMoveComponents s; mLighting := mLighting s;
     lights := lights s; mSelectedBox := mSelectedBox s; boxes := boxes s;
     currentBox := currentBox s; currentDnD := currentDnD s;
     numBoxes := n; configs := configs s; c_index := c_index s |}.

Definition with_configs (cs : list VectorXd) (s : t) : t :=
  {| mTeleop := mTeleop s; mHubo := mHubo s; mPosture := mPosture s;
     mOptimizationKey := mOptimizationKey s;
     mMoveComponents := mMoveComponents s; mLighting := mLighting s;
     lights := lights s; mSelectedBox := mSelectedBox s; boxes := boxes s;
     currentBox := currentBox s; currentDnD := currentDnD s;
     numBoxes := numBoxes s; configs := cs; c_index := c_index s |}.

Definition with_c_index (c : Z) (s : t) : t :=
  {| mTeleop := mTeleop s; mHubo := mHubo s; mPosture := mPosture s;
     mOptimizationKey := mOptimizationKey s;
     mMoveComponents := mMoveComponents s; mLighting := mLighting s;
     lights := lights s; mSelectedBox := mSelectedBox s; boxes := boxes s;
     currentBox := currentBox s; currentDnD := currentDnD s;
     numBoxes := numBoxes s; configs := configs s; c_index := c |}.

Definition with_hubo (h : Skeleton) (s : t) : t :=
  {| mTeleop := mTeleop s; mHubo := Some h; mPosture := mPosture s;
     mOptimizationKey := mOptimizationKey s;
     mMoveComponents := mMoveComponents s; mLighting := mLighting s;
     lights := lights s; mSelectedBox := mSelectedBox s; boxes := boxes s;
     currentBox := currentBox s; currentDnD := currentDnD s;
     numBoxes := numBoxes s; configs := configs s; c_index := c_index s |}.

(** Lines 1850-1859: the loop of [selectBox] over the boxes. *)
Fixpoint colorBySide (bs : list Box) : option (list Box) :=
  match bs with
  | [] => Some []
  | b :: bs' =>
      match setColor (if left b then LeftColor else RightColor) b with
      | None => None
      | Some b' =>
          match colorBySide bs' with
          | Some r => Some (b' :: r)
          | None => None
          end
      end
  end.

(** Lines 1842-1868: [selectBox]. *)
Definition selectBox (s : t) : option t :=
  match colorBySide (boxes s) with
  | None => None
  | Some bs =>
      if (0 <=? mSelectedBox s)%Z then
        let i := Z.to_nat (to_size_t (mSelectedBox s)) in
        match nth_error bs i with
        | None => None
        | Some b =>
            match setColor SelectedColor b with
            | None => None
            | Some b' => Some (with_boxes (store i b' bs) (Some i) (Some i) s)
            end
        end
      else Some (with_boxes bs None None s)
  end.

(** Lines 1870-1882: [selectNextBox]; the comparison with [boxes.size()]
    is made on [size_t]. *)
Definition selectNextBox (s : t) : option t :=
  match incr (mSelectedBox s) with
  | None => None
  | Some i =>
      let i := if (size (boxes s) <=? to_size_t i)%Z
               then (match boxes s with [] => -1 | _ => 0 end)%Z
               else i in
      selectBox (with_selected i s)
  end.

(** Lines 1884-1890: [selectPrevBox]; [boxes.size()-1] is a [size_t]. *)
Definition selectPrevBox (s : t) : option t :=
  match decr (mSelectedBox s) with
  | None => None
  | Some i =>
      let i := if (i <? 0)%Z
               then to_int (to_size_t (size (boxes s) - 1))
               else i in
      selectBox (with_selected i s)
  end.

(** Lines 1057-1082: [createBox]; the shape made for a box is told from
    the others by the number of the box. *)
Definition createBox (s : t) : option t :=
  match mHubo s with
  | None => None
  | Some _ =>
      let box := {| left := true; name := numBoxes s;
                    shape := Some (Z.to_nat (numBoxes s));
                    visual := Some createVisualAspect |} in
      let bs := boxes s ++ [box] in
      let s1 := with_numBoxes (to_size_t (numBoxes s + 1)) s in
      let s2 := with_boxes bs (currentBox s) (currentDnD s) s1 in
      selectBox (with_selected (to_int (to_size_t (size bs - 1))) s2)
  end.

(** Lines 1093-1123: [ADD_BOX]; [box] is the one that [createBox] has just
    put last in [boxes], and the position and the size it is given are not
    followed. *)
Definition ADD_BOX (l : Z) (flip : bool) (s : t) : option t :=
  match createBox s with
  | None => None
  | Some s1 =>
      let left0 := negb (l =? 0)%Z in
      let left1 := if flip then negb left0 else left0 in
      let i := (length (boxes s1) - 1)%nat in
      match nth_error (boxes s1) i with
      | None => None
      | Some box =>
          let box' := {| left := left1; name := name box; shape := shape box;
                         visual := visual box |} in
          selectBox (with_boxes (store i box' (boxes s1))
                                (currentBox s1) (currentDnD s1) s1)
      end
  end.

(** Lines 1084-1091: [flipBox], which reads the size of the shape of the
    box. *)
Definition flipBox (box : Box) (s : t) : option t :=
  match shape box with
  | None => None
  | Some _ => ADD_BOX (if left box then 1 else 0) true s
  end.

(** Lines 1495-1497: [for(size_t i=0; i < b; ++i) flipBox(boxes[i]);] from
    index [i] on, with [n] boxes still to flip. *)
Fixpoint flipLoop (i n : nat) (s : t) : option t :=
  match n with
  | O => Some s
  | S n' =>
      match nth_error (boxes s) i with
      | None => None
      | Some box =>
          match flipBox box s with
          | Some s' => flipLoop (S i) n' s'
          | None => None
          end
      end
  end.

(** The keys of [handle] that are followed here; a letter that moves the
    robot comes with its movement and with whether it is the capital. *)
Inductive Key :=
| KEY_Right | KEY_Left | KEY_Up | KEY_Down | KEY_BackSpace | KEY_Delete
| KEY_Shift_L
| key_u | key_U | key_h | key_H | key_m | key_n
| key_move (m : TeleoperationWorld.MoveEnum_t) (capital : bool).

Inductive EventType := KEYDOWN | KEYUP.

(** The character of a key that has one. *)
Definition getChar (key : Key) : option ascii :=
  match key with
  | key_u => Some "u"%char | key_U => Some "U"%char
  | key_h => Some "h"%char | key_H => Some "H"%char
  | key_m => Some "m"%char | key_n => Some "n"%char
  | key_move m capital =>
      Some (match m, capital with
            | TeleoperationWorld.MOVE_Q, false => "q" | TeleoperationWorld.MOVE_Q, true => "Q"
            | TeleoperationWorld.MOVE_W, false => "w" | TeleoperationWorld.MOVE_W, true => "W"
            | TeleoperationWorld.MOVE_E, false => "e" | TeleoperationWorld.MOVE_E, true => "E"
            | TeleoperationWorld.MOVE_A, false => "a" | TeleoperationWorld.MOVE_A, true => "A"
            | TeleoperationWorld.MOVE_S, false => "s" | TeleoperationWorld.MOVE_S, true => "S"
            | TeleoperationWorld.MOVE_D, false => "d" | TeleoperationWorld.MOVE_D, true => "D"
            | TeleoperationWorld.MOVE_F, false => "f" | TeleoperationWorld.MOVE_F, true => "F"
            | TeleoperationWorld.MOVE_Z, false => "z" | TeleoperationWorld.MOVE_Z, true => "Z"
            end)%char
  | _ => None
  end.

(** [ea.getKey() == mOptimizationKey], a [char] member. *)
Definition isOptimizationKey (key : Key) (s : t) : bool :=
  match getChar key with
  | Some c => Ascii.eqb c (mOptimizationKey s)
  | None => false
  end.

(** Lines 1750-1769 and 1800-1819: the two [switch] statements on a letter
    that moves the robot, [mMoveComponents[m] = down] and
    [mTeleop->setMovement(mMoveComponents); return true;]. *)
Definition move (m : TeleoperationWorld.MoveEnum_t) (down : bool) (s : t)
    : option (bool * t) :=
  let i := TeleoperationWorld.index m in
  if (i <? length (mMoveComponents s))%nat then
    let moves := store i down (mMoveComponents s) in
    Some (true, with_moves moves (TeleoperationWorld.setMovement moves (mTeleop s)) s)
  else None.

Definition consumed (r : option t) : option (bool * t) :=
  match r with
  | Some s => Some (true, s)
  | None => None
  end.

(** Lines 1404-1405 and 1422-1423: [c_index] being set to [c],
    [mHubo->setPositions(configs[c_index]); return true;]. *)
Definition load (c : Z) (hubo : Skeleton) (s : t) : option (bool * t) :=
  match at_ (configs s) c with
  | Some q => Some (true, with_hubo (setPositions q hubo) (with_c_index c s))
  | None => None
  end.

(** Lines 1257-1824: [handle] for an event of one of these keys. The
    branch of [KEY_Delete] that erases a box ends without a [return]: no
    later test matches that key, and line 1823 returns false. A press
    reaches the test on [mOptimizationKey] only for [KEY_Delete] and
    [KEY_Shift_L], which are no characters. *)
Definition handle (type : EventType) (key : Key) (s : t) : option (bool * t) :=
  match mHubo s with
  | None => Some (false, s)
  | Some hubo =>
      match type with
      | KEYDOWN =>
          match key with
          | KEY_Right =>
              let l := to_size_t (mLighting s + 1) in
              let l := if (8 <? l)%Z then 8%Z else l in
              Some (true, with_lighting l s)
          | KEY_Left =>
              let l := to_size_t (mLighting s - 1) in
              let l := if (l =? 0)%Z then 1%Z else l in
              Some (true, with_lighting l s)
          | KEY_Up => consumed (selectNextBox s)
          | KEY_Down => consumed (selectPrevBox s)
          | KEY_BackSpace => consumed (selectBox (with_selected (-1) s))
          | KEY_Delete =>
              if (mSelectedBox s <? 0)%Z then Some (true, s)
              else
                match boxes s with
                | [] => consumed (selectBox (with_selected (-1) s))
                | _ :: _ =>
                    match currentBox s with
                    | None => None
                    | Some _ =>
                        if (size (boxes s) <=? mSelectedBox s)%Z then None
                        else
                          let bs := erase (Z.to_nat (mSelectedBox s)) (boxes s) in
                          let s1 := with_boxes bs (currentBox s) (currentDnD s) s in
                          match decr (mSelectedBox s) with
                          | None => None
                          | Some i =>
                              match selectBox (with_selected i s1) with
                              | Some s2 => Some (false, s2)
                              | None => None
                              end
                          end
                    end
                end
          | key_u => Some (true, with_configs (configs s ++ [getPositions hubo]) s)
          | key_U => Some (true, with_configs (removelast (configs s)) s)
          | key_h =>
              match incr (c_index s) with
              | None => None
              | Some c =>
                  if (size (configs s) <=? to_size_t c)%Z then
                    match configs s with
                    | [] => Some (true, with_c_index (-1) s)
                    | _ :: _ => load 0%Z hubo s
                    end
                  else load c hubo s
              end
          | key_H =>
              match decr (c_index s) with
              | None => None
              | Some c =>
                  if (c <? 0)%Z then
                    match configs s with
                    | [] => Some (true, with_c_index (-1) s)
                    | _ :: _ =>
                        load (to_int (to_size_t (size (configs s) - 1))) hubo s
                    end
                  else load c hubo s
              end
          | key_m => consumed (createBox s)
          | key_n => consumed (flipLoop 0 (length (boxes s)) s)
          | KEY_Shift_L =>
              Some (false,
                    with_teleop
                      (TeleoperationWorld.setAmplifyMovement true (mTeleop s)) s)
          | key_move m _ => move m true s
          end
      | KEYUP =>
          if isOptimizationKey key s then
            let posture :=
              match mPosture s with
              | Some p =>
                  Some {| RelaxedPosture.enforceIdealPosture := false;
                          RelaxedPosture.mResultVector := RelaxedPosture.mResultVector p;
                          RelaxedPosture.mIdeal := RelaxedPosture.mIdeal p;
                          RelaxedPosture.mLower := RelaxedPosture.mLower p;
                          RelaxedPosture.mUpper := RelaxedPosture.mUpper p;
                          RelaxedPosture.mWeights := RelaxedPosture.mWeights p |}
              | None => None
              end in
            Some (true, with_posture posture s)
          else
            match key with
            | KEY_Shift_L =>
                Some (false,
                      with_teleop
                        (TeleoperationWorld.setAmplifyMovement false (mTeleop s)) s)
            | key_move m _ => move m false s
            | _ => Some (false, s)
            end
      end
  end.

(** The events of a list handled one after the other; the state after the
    last one. *)
Fixpoint run (events : list (EventType * Key)) (s : t) : option t :=
  match events with
  | [] => Some s
  | (type, key) :: events' =>
      match handle type key s with
      | Some (_, s') => run events' s'
      | None => None
      end
  end.

(** The keys of a list pressed one after the other. *)
Definition press (keys : list Key) (s : t) : option t :=
  run (map (fun key => (KEYDOWN, key)) keys) s.

(** Whether the last event of a list on the letters of the movement [m]
    is a press, [before] telling it when there is none. *)
Fixpoint held (m : TeleoperationWorld.MoveEnum_t)
    (events : list (EventType * Key)) (before : bool) : bool :=
  match events with
  | [] => before
  | (type, key_move m' _) :: events' =>
      held m events'
           (if (TeleoperationWorld.index m' =? TeleoperationWorld.index m)%nat
            then match type with KEYDOWN => true | KEYUP => false end
            else before)
  | _ :: events' => held m events' before
  end.

(** An event on a letter that moves the robot or on the left shift key. *)
Definition movementEvent (event : EventType * Key) : Prop :=
  match snd event with
  | key_move _ _ | KEY_Shift_L => True
  | _ => False
  end.

(** A box with a shape and a visual aspect, as [createBox] makes them, and
    the colour of its visual aspect. *)
Definition made (b : Box) : Prop := shape b <> None /\ visual b <> None.

Definition rgba (b : Box) : option VisualAspect.Vector4d :=
  match visual b with
  | Some va => Some (VisualAspect.mRGBA (VisualAspect.mProperties va))
  | None => None
  end.

(** What holds of the members between two events: the selection is none
    (-1) or a box of [boxes], [currentBox] and [currentDnD] are that box,
    every box is made and has the colour of its side, the selected one
    excepted, the lighting told to the viewer goes from 1 to 8, and there
    is one component for each movement. *)
Record settled (s : t) : Prop := {
  settled_range : (-1 <= mSelectedBox s < size (boxes s))%Z;
  settled_current :
    currentBox s = if (0 <=? mSelectedBox s)%Z
                   then Some (Z.to_nat (mSelectedBox s)) else None;
  settled_dnd : currentDnD s = currentBox s;
  settled_made : Forall made (boxes s);
  settled_colors :
    forall i b, nth_error (boxes s) i = Some b ->
      rgba b = Some (if (Z.of_nat i =? mSelectedBox s)%Z then SelectedColor
                     else if left b then LeftColor else RightColor);
  settled_lighting : (1 <= mLighting s <= 8)%Z;
  settled_lights : Forall (fun l => 1 <= l <= 8)%Z (lights s);
  settled_moves : length (mMoveComponents s) = TeleoperationWorld.NUM_MOVE
}.

(** Two states that differ at most in the visual aspects of their boxes and
    in [currentBox] and [currentDnD], which is all that [selectBox] may
    change. *)
Definition same_but_boxes (s s' : t) : Prop :=
  mHubo s' = mHubo s /\
  mLighting s' = mLighting s /\
  lights s' = lights s /\
  mSelectedBox s' = mSelectedBox s /\
  numBoxes s' = numBoxes s /\
  configs s' = configs s /\
  c_index s' = c_index s /\
  map left (boxes s') = map left (boxes s) /\
  map name (boxes s') = map name (boxes s) /\
  mMoveComponents s' = mMoveComponents s /\
  mTeleop s' = mTeleop s /\
  mPosture s' = mPosture s /\
  mOptimizationKey s' = mOptimizationKey s.

End Handler.

End InputHandler.

(** A handler to run the keys on: positions for a skeleton, two colours
    for the sides, one box, which is selected, three stored
    configurations, the last of them loaded, and no key held. *)
Module Puppet.

Import Ascii.

Definition LeftColor : VisualAspect.Vector4d := (0, 0, 1, InputHandler.DefaultAlpha).
Definition RightColor : VisualAspect.Vector4d := (1, 0, 1, InputHandler.DefaultAlpha).

Definition aspect (rgba : VisualAspect.Vector4d) : VisualAspect.t :=
  {| VisualAspect.mProperties :=
       {| VisualAspect.mRGBA := rgba; VisualAspect.mHidden := false |};
     VisualAspect.calls := [] |}.

Definition handler : InputHandler.t VectorXd :=
  {| InputHandler.mTeleop := TeleoperationWorld.create;
     InputHandler.mHubo := Some [5; 6];
     InputHandler.mPosture := None;
     InputHandler.mOptimizationKey := "r"%char;
     InputHandler.mMoveComponents := repeat false TeleoperationWorld.NUM_MOVE;
     InputHandler.mLighting := 1;
     InputHandler.lights := [];
     InputHandler.mSelectedBox := 0;
     InputHandler.boxes :=
       [{| InputHandler.left := true; InputHandler.name := 0;
           InputHandler.shape := Some 0%nat;
           InputHandler.visual := Some (aspect InputHandler.SelectedColor) |}];
     InputHandler.currentBox := Some 0%nat;
     InputHandler.currentDnD := Some 0%nat;
     InputHandler.numBoxes := 1;
     InputHandler.configs := [[1; 2]; [3; 4]; [5; 6]];
     InputHandler.c_index := 2 |}.

Definition handle : InputHandler.EventType -> InputHandler.Key
    -> InputHandler.t VectorXd -> option (bool * InputHandler.t VectorXd) :=
  InputHandler.handle LeftColor RightColor (aspect (1, 1, 1, 1))
                      (fun hubo => hubo) (fun q _ => q).

Definition press : list InputHandler.Key -> InputHandler.t VectorXd
    -> option (InputHandler.t VectorXd) :=
  InputHandler.press LeftColor RightColor (aspect (1, 1, 1, 1))
                     (fun hubo => hubo) (fun q _ => q).

Definition run : list (InputHandler.EventType * InputHandler.Key)
    -> InputHandler.t VectorXd -> option (InputHandler.t VectorXd) :=
  InputHandler.run LeftColor RightColor (aspect (1, 1, 1, 1))
                   (fun hubo => hubo) (fun q _ => q).

End Puppet.

(** * Properties *)

(** ** The articulated model *)

Lemma setPositions_lowerLimit (robot : Skeleton.t) (dofs : list nat) (q : VectorXd) :
  Skeleton.lowerLimit (Skeleton.setPositions robot dofs q) = Skeleton.lowerLimit robot.
Proof.
  revert robot q; induction dofs as [|d dofs IH]; intros robot [|x q]; simpl; auto.
  now rewrite IH.
Qed.

Lemma setPositions_upperLimit (robot : Skeleton.t) (dofs : list nat) (q : VectorXd) :
  Skeleton.upperLimit (Skeleton.setPositions robot dofs q) = Skeleton.upperLimit robot.
Proof.
  revert robot q; induction dofs as [|d dofs IH]; intros robot [|x q]; simpl; auto.
  now rewrite IH.
Qed.

(** Writing back the positions read from [saved]: every planned DOF holds the
    position it has in [saved], the others keep theirs. *)
Lemma setPositions_saved (saved : Skeleton.t) (dofs : list nat) :
  forall (robot : Skeleton.t) (i : nat),
    Skeleton.positions
      (Skeleton.setPositions robot dofs (Skeleton.getPositions saved dofs)) i
    = if existsb (Nat.eqb i) dofs then Skeleton.positions saved i
      else Skeleton.positions robot i.
Proof.
  induction dofs as [|d dofs IH]; intros robot i; simpl; auto.
  rewrite IH. destruct (existsb (Nat.eqb i) dofs); simpl.
  - now rewrite orb_true_r.
  - rewrite orb_false_r. destruct (Nat.eqb i d) eqn:E; auto.
    apply Nat.eqb_eq in E. now subst.
Qed.

Lemma getPositions_restored (saved robot : Skeleton.t) (dofs : list nat) :
  Skeleton.getPositions
    (Skeleton.setPositions robot dofs (Skeleton.getPositions saved dofs)) dofs
  = Skeleton.getPositions saved dofs.
Proof.
  unfold Skeleton.getPositions at 1 3. apply map_ext_in. intros i Hi.
  rewrite setPositions_saved.
  replace (existsb (Nat.eqb i) dofs) with true; auto.
  symmetry. apply existsb_exists. exists i. split; auto. apply Nat.eqb_refl.
Qed.

(** ** Comparisons *)

Lemma Qltb_lt (a b : Q) : Qltb a b = true <-> a < b.
Proof.
  unfold Qltb. rewrite negb_true_iff. split; intro H.
  - apply Qnot_le_lt. intro L. apply Qle_bool_iff in L. congruence.
  - destruct (Qle_bool b a) eqn:E; auto. apply Qle_bool_iff in E.
    exfalso. exact (Qlt_not_le _ _ H E).
Qed.

(** ** The planner over any tree *)

Section PlannerFacts.

Context {R : Type} {RR : RRT.ops R}.

(** The single-tree loop touches [path] only when it returns [true]. *)
Lemma singleTreeLoop_false_path (self : PathPlanner R) (goal : VectorXd)
    (path : list VectorXd) :
  forall fuel rrt robot g numNodes rrt' robot' g' path',
    singleTreeLoop fuel self goal rrt robot g path numNodes
      = Some (false, rrt', robot', g', path') ->
    path' = path.
Proof.
  induction fuel as [|fuel IH]; intros rrt robot g numNodes rrt' robot' g' path' H;
    simpl in H; [discriminate|].
  destruct (numNodes <=? maxNodes self)%nat; [|now inversion H].
  destruct (drawTarget self goal rrt g) as [[target rrt1] g1].
  destruct (extend fuel self rrt1 robot target) as [[[flag rrt2] robot2]|];
    [|discriminate].
  destruct (Qltb (RRT.getGap rrt2 goal) (stepSize self)); [discriminate|].
  eapply IH; eauto.
Qed.

(** So does the bidirectional loop. *)
Lemma bidirectionalLoop_false_path (self : PathPlanner R)
    (goal : list VectorXd) (path : list VectorXd) :
  forall fuel s g rrt1 rrt2 robot mt numNodes s' g' robot' mt' path',
    bidirectionalLoop fuel self goal s g rrt1 rrt2 robot mt path numNodes
      = Some (false, s', g', robot', mt', path') ->
    path' = path.
Proof.
  induction fuel as [|fuel IH];
    intros s g rrt1 rrt2 robot mt numNodes s' g' robot' mt' path' H;
    simpl in H; [discriminate|].
  destruct (numNodes <? maxNodes self)%nat; [|now inversion H].
  destruct (drawTarget self (nth 0 goal []) (deref s g rrt2) mt)
    as [[target t1] mt1].
  destruct (assign s g rrt2 t1) as [s1 g1].
  destruct (extend fuel self (deref s1 g1 rrt2) robot target)
    as [[[flag t1'] robot1]|]; [|discriminate].
  destruct (assign s1 g1 rrt2 t1') as [s2 g2].
  destruct (extend fuel self (deref s2 g2 rrt1) robot1 _)
    as [[[treesMet t2'] robot2]|]; [|discriminate].
  destruct (assign s2 g2 rrt1 t2') as [s3 g3].
  destruct treesMet; [discriminate|].
  eapply IH; eauto.
Qed.

(** X1: Past the two filters, [planPath] ends with the write-back of line 169:
    when it returns after planning, found or not, the planned DOFs hold the
    positions they had before the call. *)
Lemma planPath_restores_after_planning (fuel : nat) (self : PathPlanner R)
    (robot : Skeleton.t) (dofs : list nat) (start goal : list VectorXd)
    (path : list VectorXd) (log : list string) (o : Outcome R) :
  planPath fuel self robot dofs start goal path log = Some o ->
  fst (feasible (world self) robot dofs start) <> [] ->
  fst (feasible (world self) (snd (feasible (world self) robot dofs start))
                dofs goal) <> [] ->
  Skeleton.getPositions (robot_after o) dofs
  = Skeleton.getPositions robot dofs.
Proof.
  unfold planPath. intros H Hs Hg.
  destruct (feasible (world self) robot dofs start) as [[|s0 fs] robot1];
    simpl in *; [congruence|].
  destruct (feasible (world self) robot1 dofs goal) as [[|g0 fg] robot2];
    simpl in *; [congruence|].
  destruct (if bidirectional self then _ else _)
    as [[[[found self'] robot3] path']|]; [|discriminate].
  inversion H; subst; simpl. apply getPositions_restored.
Qed.

(** The filter keeps nothing exactly when every candidate collides at the
    robot state at which it is tried. *)
Lemma feasible_nil_iff (w : World) (dofs : list nat) :
  forall candidates robot,
    fst (feasible w robot dofs candidates) = [] <->
    match candidates with
    | [] => True
    | c :: rest =>
        checkCollision w (Skeleton.setPositions robot dofs c) = true /\
        fst (feasible w (Skeleton.setPositions robot dofs c) dofs rest) = []
    end.
Proof.
  intros [|c rest] robot; simpl; [tauto|].
  destruct (feasible w (Skeleton.setPositions robot dofs c) dofs rest)
    as [kept robot''] eqn:E; simpl.
  destruct (checkCollision w (Skeleton.setPositions robot dofs c)); simpl.
  - tauto.
  - split; [discriminate | intros [? _]; discriminate].
Qed.

(** A configuration that collides whatever the other DOFs hold is dropped. *)
Lemma feasible_all_collide (w : World) (dofs : list nat) :
  forall candidates robot,
    Forall (fun c => forall r,
              checkCollision w (Skeleton.setPositions r dofs c) = true)
           candidates ->
    fst (feasible w robot dofs candidates) = [].
Proof.
  induction candidates as [|c rest IH]; intros robot H; [reflexivity|].
  inversion H as [|? ? Hc Hrest]; subst.
  apply feasible_nil_iff. split; [apply Hc | apply IH, Hrest].
Qed.

End PlannerFacts.

(** ** Upfront infeasibility *)

(** C3: when the filter of the starts keeps nothing, or the filter of the
    goals keeps nothing, planPath returns [false] as a value, whatever the
    step budget: the caller's path is as it was passed (so the answer is
    (false, []) for an empty one), the planner object is untouched (no tree is
    created, reset or grown: a planner without a tree still has size 0), and
    one diagnostic line is written, about the starts or about the goals. *)
Theorem planPath_infeasible_returns_failure {R : Type} {RR : RRT.ops R}
    (fuel : nat) (self : PathPlanner R) (robot : Skeleton.t) (dofs : list nat)
    (start goal : list VectorXd) (path : list VectorXd) (log : list string) :
  fst (feasible (world self) robot dofs start) = [] \/
  fst (feasible (world self) (snd (feasible (world self) robot dofs start))
                dofs goal) = [] ->
  exists o,
    planPath fuel self robot dofs start goal path log = Some o /\
    returned o = false /\
    path_after o = path /\
    (path = [] -> (returned o, path_after o) = (false, [])) /\
    planner_after o = self /\
    (start_rrt self = None -> treeSize (start_rrt (planner_after o)) = 0%nat) /\
    (goal_rrt self = None -> treeSize (goal_rrt (planner_after o)) = 0%nat) /\
    dtwarn_after o
    = log ++ [match fst (feasible (world self) robot dofs start) with
              | [] => warn_start
              | _ :: _ => warn_goal
              end].
Proof.
  intros H. unfold planPath.
  destruct (feasible (world self) robot dofs start) as [[|s0 fs] robot1];
    simpl in *.
  - eexists; split; [reflexivity|]; simpl.
    repeat split; auto; intros ->; auto.
  - destruct H as [H|H]; [discriminate|].
    destruct (feasible (world self) robot1 dofs goal) as [[|g0 fg] robot2];
      simpl in *; [|discriminate].
    eexists; split; [reflexivity|]; simpl.
    repeat split; auto; intros ->; auto.
Qed.

Lemma planPath_infeasible_returns_failure_witness :
  exists o,
    planPath (RR := Scenario.ops) 0
      (Scenario.planner_of (Scenario.blocked_at [1]) false true 1 100 (1 # 2) 0)
      (Scenario.robot_at 0 0 10) Scenario.dofs [[1]] [[5]] [] [] = Some o /\
    returned o = false /\ path_after o = [] /\
    dtwarn_after o = [warn_start].
Proof.
  destruct (planPath_infeasible_returns_failure (RR := Scenario.ops) 0
              (Scenario.planner_of (Scenario.blocked_at [1]) false true 1 100 (1 # 2) 0)
              (Scenario.robot_at 0 0 10) Scenario.dofs [[1]] [[5]] [] [])
    as [o [H1 [H2 [H3 [_ [_ [_ [_ H4]]]]]]]].
  - left. reflexivity.
  - exists o. repeat split; assumption.
Defined.

(** ** The caller's path on failure *)

(** C10: whenever planPath returns [false] (no feasible start, no feasible
    goal, or a planner loop that gave up), the caller's path list is exactly
    the one passed in. *)
Theorem planPath_failure_keeps_path {R : Type} {RR : RRT.ops R}
    (fuel : nat) (self : PathPlanner R) (robot : Skeleton.t) (dofs : list nat)
    (start goal : list VectorXd) (path : list VectorXd) (log : list string)
    (o : Outcome R) :
  planPath fuel self robot dofs start goal path log = Some o ->
  returned o = false ->
  path_after o = path.
Proof.
  unfold planPath. intros H Hf.
  destruct (feasible (world self) robot dofs start) as [[|s0 fs] robot1].
  { inversion H; reflexivity. }
  destruct (feasible (world self) robot1 dofs goal) as [[|g0 fg] robot2].
  { inversion H; reflexivity. }
  destruct (bidirectional self).
  - unfold planBidirectionalRrt in H.
    destruct (initTree self (start_rrt self) robot2 dofs (s0 :: fs)) as [s r1].
    destruct (initTree self (goal_rrt self) r1 dofs (g0 :: fg)) as [g r2].
    destruct (bidirectionalLoop fuel self (g0 :: fg) s g to_start_rrt
                to_goal_rrt r2 (mMT self) path _)
      as [[[[[[found s'] g'] r3] mt'] path']|] eqn:E; [|discriminate].
    inversion H; subst; simpl in *; subst.
    eapply bidirectionalLoop_false_path; eauto.
  - unfold planSingleTreeRrt in H.
    destruct (initTree self (start_rrt self) robot2 dofs (s0 :: fs)) as [s r1].
    destruct (singleTreeLoop fuel self g0 s r1 (mMT self) path _)
      as [[[[[found s'] r3] mt'] path']|] eqn:E; [|discriminate].
    inversion H; subst; simpl in *; subst.
    eapply singleTreeLoop_false_path; eauto.
Qed.

Lemma planPath_failure_keeps_path_witness :
  match planPath (RR := Scenario.ops) 10
          (Scenario.planner_of Scenario.free false false 1 2 1 0)
          (Scenario.robot_at 0 0 10) Scenario.dofs [[0]] [[5]] [[7]] [] with
  | Some o => returned o = false /\ path_after o = [[7]]
                /\ treeSize (RR := Scenario.ops) (start_rrt (planner_after o)) = 3%nat
  | None => False
  end.
Proof.
  destruct (planPath (RR := Scenario.ops) 10
              (Scenario.planner_of Scenario.free false false 1 2 1 0)
              (Scenario.robot_at 0 0 10) Scenario.dofs [[0]] [[5]] [[7]] [])
    as [o|] eqn:E.
  - assert (Hf : returned o = false).
    { vm_compute in E. inversion E. reflexivity. }
    split; [exact Hf|]. split.
    + exact (planPath_failure_keeps_path (RR := Scenario.ops) _ _ _ _ _ _ _ _ E Hf).
    + vm_compute in E. inversion E. reflexivity.
  - vm_compute in E. discriminate E.
Defined.

(** ** The restore of the robot *)

(** C1: the two early returns of planPath skip the write-back of line 169.
    A robot at 0 whose only supplied start, at 1, collides is left at 1 when
    planPath returns [false]; so it is when the start is free and the only
    supplied goal collides. *)
Theorem planPath_early_return_leaves_robot_moved :
  Skeleton.getPositions (Scenario.robot_at 0 0 10) Scenario.dofs = [0] /\
  Scenario.observe
    (planPath (RR := Scenario.ops) 0
       (Scenario.planner_of (Scenario.blocked_at [1]) false true 1 100 (1 # 2) 0)
       (Scenario.robot_at 0 0 10) Scenario.dofs [[1]] [[5]] [] [])
  = Some (false, [], [1], 0%nat, 0%nat) /\
  Scenario.observe
    (planPath (RR := Scenario.ops) 0
       (Scenario.planner_of (Scenario.blocked_at [1]) false true 1 100 (1 # 2) 0)
       (Scenario.robot_at 0 0 10) Scenario.dofs [[5]] [[1]] [] [])
  = Some (false, [], [1], 0%nat, 0%nat).
Proof.
  repeat split; vm_compute; reflexivity.
Qed.

(** ** The budget of the bidirectional loop *)

(** The bidirectional loop gives up as soon as the count reaches [maxNodes]. *)
Lemma bidirectionalLoop_at_budget {R : Type} {RR : RRT.ops R}
    (fuel : nat) (self : PathPlanner R) (goal : list VectorXd) (s g : R)
    (rrt1 rrt2 : Ptr) (robot : Skeleton.t) (mt : MT) (path : list VectorXd) :
  bidirectionalLoop (S fuel) self goal s g rrt1 rrt2 robot mt path (maxNodes self)
  = Some (false, s, g, robot, mt, path).
Proof.
  simpl. now rewrite Nat.ltb_irrefl.
Qed.

(** C5: with one free start, one free goal and [maxNodes = 2] the two roots
    make a combined count of 2, which does not exceed [maxNodes]; the loop
    condition of line 257 is already false and planBidirectionalRrt returns
    [false] without one iteration (each tree still has its root only).  With
    [maxNodes = 3] the same call meets in its first iteration. *)
Theorem planBidirectionalRrt_gives_up_at_maxNodes :
  Scenario.observe
    (planPath (RR := Scenario.ops) 10
       (Scenario.planner_of Scenario.free true false 1 2 1 0)
       (Scenario.robot_at 0 0 10) Scenario.dofs [[0]] [[1]] [] [])
  = Some (false, [], [0], 1%nat, 1%nat) /\
  Scenario.observe
    (planPath (RR := Scenario.ops) 10
       (Scenario.planner_of Scenario.free true false 1 3 1 0)
       (Scenario.robot_at 0 0 10) Scenario.dofs [[0]] [[1]] [] [])
  = Some (true, [[0]; [1]; [1]; [1]], [0], 2%nat, 2%nat).
Proof.
  split; vm_compute; reflexivity.
Qed.

(** ** One iteration of the bidirectional loop *)

(** C6, as stated, fails: the goal tree grows first, toward the sample 3, and
    is TRAPPED by the obstacle at 2 on its first step (no node inserted); the
    start tree still extends toward the goal tree's active node, reaches it,
    and the planner returns [true] within that one iteration. *)
Lemma trapped_growing_tree_still_met :
  (let (g, r) := Tree.create (Scenario.blocked_at [2]) (Scenario.robot_at 0 3 3)
                             Scenario.dofs [[1]] 1 None in
   let '(status, g', _) := Tree.tryStep Tree.distance g r [3] in
   status = STEP_TRAPPED /\ Tree.getSize g' = 1%nat) /\
  Scenario.observe
    (planPath (RR := Scenario.ops) 1
       (Scenario.planner_of (Scenario.blocked_at [2]) true false 1 10 0 0)
       (Scenario.robot_at 0 3 3) Scenario.dofs [[0]] [[1]] [] [])
  = Some (true, [[0]; [1]; [1]], [0], 2%nat, 1%nat).
Proof.
  split; [vm_compute; split; reflexivity | vm_compute; reflexivity].
Qed.

Section Iteration.

Context {R : Type} {RR : RRT.ops R}.

(** C6, amended: in an iteration of the bidirectional loop, whatever the
    extension of the growing tree returned (TRAPPED with no node inserted
    included), the other tree extends toward the configuration of the
    growing tree's active node; when that extension meets, the planner
    returns [true] in this iteration with the two traces, and otherwise the
    loop goes to its next iteration. *)
Theorem bidirectional_iteration (fuel : nat) (self : PathPlanner R)
    (goal : list VectorXd) (s g : R) (rrt1 rrt2 : Ptr) (robot : Skeleton.t)
    (mt : MT) (path : list VectorXd) (numNodes : nat)
    (target : VectorXd) (t1 : R) (mt1 : MT) (flag : bool) (t1' : R)
    (robot1 : Skeleton.t) (met : bool) (t2' : R) (robot2 : Skeleton.t) :
  (numNodes < maxNodes self)%nat ->
  rrt1 <> rrt2 ->
  drawTarget self (nth 0 goal []) (deref s g rrt2) mt = (target, t1, mt1) ->
  extend fuel self t1 robot target = Some (flag, t1', robot1) ->
  extend fuel self (deref s g rrt1) robot1
         (nth (RRT.mActiveNode t1') (RRT.mConfigs t1') [])
    = Some (met, t2', robot2) ->
  let sg := assign s g rrt2 t1' in
  let sg' := assign (fst sg) (snd sg) rrt1 t2' in
  bidirectionalLoop (S fuel) self goal s g rrt1 rrt2 robot mt path numNodes
  = if met then
      Some (true, fst sg', snd sg', robot2, mt1,
            RRT.tracePath (snd sg') (RRT.mActiveNode (snd sg'))
              (RRT.tracePath (fst sg') (RRT.mActiveNode (fst sg')) path false)
              true)
    else
      bidirectionalLoop fuel self goal (fst sg') (snd sg') rrt2 rrt1 robot2 mt1
        path (RRT.getSize t1' + RRT.getSize t2').
Proof.
  intros Hn Hp Hd He1 He2 sg sg'. subst sg sg'.
  cbn [bidirectionalLoop].
  apply Nat.ltb_lt in Hn. rewrite Hn. rewrite Hd.
  destruct rrt1, rrt2; try congruence; cbn [assign deref fst snd] in *;
    rewrite He1; cbn [assign deref fst snd]; rewrite He2; reflexivity.
Qed.

End Iteration.

Lemma bidirectional_iteration_witness :
  let w := Scenario.blocked_at [2] in
  let self := Scenario.planner_of w true false 1 10 0 0 in
  let robot := Scenario.robot_at 0 3 3 in
  let s := fst (Tree.create w robot Scenario.dofs [[0]] 1 None) in
  let g := fst (Tree.create w robot Scenario.dofs [[1]] 1 None) in
  option_map (fun x => fst (fst (fst (fst (fst x)))))
    (bidirectionalLoop (RR := Scenario.ops) 1 self [[1]] s g to_start_rrt
       to_goal_rrt robot (Scenario.constant 0) [] 2)
  = Some true.
Proof.
  intros w self robot s g.
  eapply eq_trans.
  - eapply (f_equal (option_map _)).
    eapply (bidirectional_iteration (RR := Scenario.ops)).
    + simpl. lia.
    + discriminate.
    + reflexivity.
    + reflexivity.
    + reflexivity.
  - reflexivity.
Defined.

(** ** The engine and its seed *)


Section Engine.

Context {R : Type} {RR : RRT.ops R}.







End Engine.


(** ** Loops that never return *)

(** A draw of [mDistribution] is never below 0. *)
Lemma mDistribution_nonneg (g : MT) : Qltb (fst (mDistribution g)) 0 = false.
Proof.
  unfold Qltb. apply negb_false_iff, Qle_bool_iff.
  unfold mDistribution, generate_canonical; simpl fst.
  rewrite Qplus_0_l. apply Qmult_le_0_compat.
  - vm_compute. discriminate.
  - unfold Qle. cbn [Qnum Qden]. rewrite Z.mul_0_l, Z.mul_1_r.
    apply N2Z.is_nonneg.
Qed.

(** From the root 0 a step toward 5 or 3 lands on 1, which collides. *)
Lemma tryStep_from_0 (c : nat) (r : Skeleton.t) (target : VectorXd) :
  target = [5] \/ target = [3] ->
  Tree.tryStep Tree.distance (Walled.rooted 0 c) r target
  = (STEP_TRAPPED, Walled.rooted 0 c, Skeleton.setPositions r Scenario.dofs [1]).
Proof.
  intros [-> | ->]; reflexivity.
Qed.

(** From the root 5 a step toward 0 or 3 lands on 4, which collides. *)
Lemma tryStep_from_5 (c : nat) (r : Skeleton.t) (target : VectorXd) :
  target = [0] \/ target = [3] ->
  Tree.tryStep Tree.distance (Walled.rooted 5 c) r target
  = (STEP_TRAPPED, Walled.rooted 5 c, Skeleton.setPositions r Scenario.dofs [4]).
Proof.
  intros [-> | ->]; reflexivity.
Qed.

Lemma getRandomConfig_walled (x : Q) (c : nat) :
  RRT.getRandomConfig (ops := Scenario.ops) (Walled.rooted x c)
  = ([3], Walled.rooted x (c + 1)).
Proof. reflexivity. Qed.

(** Either extension mode leaves the tree as it is, or has no budget left. *)
Lemma extend_from_0 (fuel : nat) (self : PathPlanner Tree.t) (c : nat)
    (r : Skeleton.t) (target : VectorXd) :
  target = [5] \/ target = [3] ->
  extend (RR := Scenario.ops) fuel self (Walled.rooted 0 c) r target = None \/
  extend (RR := Scenario.ops) fuel self (Walled.rooted 0 c) r target
  = Some (false, Walled.rooted 0 c, Skeleton.setPositions r Scenario.dofs [1]).
Proof.
  intros H. unfold extend. destruct (connect self).
  - destruct fuel; [left; reflexivity|right].
    cbn [RRT.connect Scenario.ops Tree.rrt_ops Tree.connect].
    rewrite (@tryStep_from_0 c r target H). reflexivity.
  - right. cbn [RRT.tryStep Scenario.ops Tree.rrt_ops].
    rewrite (@tryStep_from_0 c r target H). reflexivity.
Qed.

Lemma extend_from_5 (fuel : nat) (self : PathPlanner Tree.t) (c : nat)
    (r : Skeleton.t) (target : VectorXd) :
  target = [0] \/ target = [3] ->
  extend (RR := Scenario.ops) fuel self (Walled.rooted 5 c) r target = None \/
  extend (RR := Scenario.ops) fuel self (Walled.rooted 5 c) r target
  = Some (false, Walled.rooted 5 c, Skeleton.setPositions r Scenario.dofs [4]).
Proof.
  intros H. unfold extend. destruct (connect self).
  - destruct fuel; [left; reflexivity|right].
    cbn [RRT.connect Scenario.ops Tree.rrt_ops Tree.connect].
    rewrite (@tryStep_from_5 c r target H). reflexivity.
  - right. cbn [RRT.tryStep Scenario.ops Tree.rrt_ops].
    rewrite (@tryStep_from_5 c r target H). reflexivity.
Qed.

(** The single-tree loop on the walled-in root: the tree keeps its one node,
    the gap to the goal stays 5, and no budget is enough. *)
Lemma singleTreeLoop_walled (co : bool) (g0 : MT) :
  forall fuel c r g,
    singleTreeLoop (RR := Scenario.ops) fuel (Walled.single co g0) [5]
                   (Walled.rooted 0 c) r g [] 1 = None.
Proof.
  induction fuel as [|fuel IH]; intros c r g; [reflexivity|].
  cbn [singleTreeLoop].
  change (1 <=? maxNodes (Walled.single co g0))%nat with true. cbv iota.
  unfold drawTarget. destruct (mDistribution g) as [v g1].
  destruct (Qltb v (goalBias (Walled.single co g0))).
  - destruct (@extend_from_0 fuel (Walled.single co g0) c r [5]
                (or_introl eq_refl)) as [E|E]; rewrite E; [reflexivity|].
    change (Qltb _ _) with false. cbv iota. apply IH.
  - rewrite getRandomConfig_walled.
    destruct (@extend_from_0 fuel (Walled.single co g0) (c + 1) r [3]
                (or_intror eq_refl)) as [E|E]; rewrite E; [reflexivity|].
    change (Qltb _ _) with false. cbv iota. apply IH.
Qed.

(** The bidirectional loop between the two walled-in roots: the combined
    count stays 2. *)
Lemma bidirectionalLoop_walled (co : bool) (g0 : MT) :
  forall fuel c1 c2 r mt rrt1 rrt2,
    rrt1 <> rrt2 ->
    bidirectionalLoop (RR := Scenario.ops) fuel (Walled.double co g0) [[5]]
      (Walled.rooted 0 c1) (Walled.rooted 5 c2) rrt1 rrt2 r mt [] 2 = None.
Proof.
  induction fuel as [|fuel IH]; intros c1 c2 r mt rrt1 rrt2 Hp; [reflexivity|].
  cbn [bidirectionalLoop].
  change (2 <? maxNodes (Walled.double co g0))%nat with true. cbv iota.
  unfold drawTarget. pose proof (mDistribution_nonneg mt) as Hd.
  destruct (mDistribution mt) as [v mt1]. simpl in Hd.
  change (goalBias (Walled.double co g0)) with 0. rewrite Hd.
  destruct rrt1, rrt2; try congruence; cbn [deref assign];
    rewrite getRandomConfig_walled; cbn [deref assign].
  - destruct (@extend_from_5 fuel (Walled.double co g0) (c2 + 1) r [3]
                (or_intror eq_refl)) as [E|E]; rewrite E; [reflexivity|].
    cbn [deref assign]. change (nth _ _ _) with [5].
    destruct (@extend_from_0 fuel (Walled.double co g0) c1
                (Skeleton.setPositions r Scenario.dofs [4]) [5]
                (or_introl eq_refl)) as [E'|E']; rewrite E'; [reflexivity|].
    apply IH. congruence.
  - destruct (@extend_from_0 fuel (Walled.double co g0) (c1 + 1) r [3]
                (or_intror eq_refl)) as [E|E]; rewrite E; [reflexivity|].
    cbn [deref assign]. change (nth _ _ _) with [0].
    destruct (@extend_from_5 fuel (Walled.double co g0) c2
                (Skeleton.setPositions r Scenario.dofs [1]) [0]
                (or_introl eq_refl)) as [E'|E']; rewrite E'; [reflexivity|].
    apply IH. congruence.
Qed.

(** C2: the loops count nodes, not iterations.  With a free start at 0, a
    free goal at 5, obstacles everywhere else and [maxNodes = 10], every
    extension is TRAPPED and inserts no node: in either extension mode and
    whatever the engine hands out, neither the single-tree planner nor the
    bidirectional planner returns, however large the step budget. *)
Theorem planPath_never_returns_when_walled_in (fuel : nat) (co : bool) (g : MT) :
  planPath (RR := Scenario.ops) fuel (Walled.single co g) Walled.robot0
           Scenario.dofs [[0]] [[5]] [] [] = None /\
  planPath (RR := Scenario.ops) fuel (Walled.double co g) Walled.robot0
           Scenario.dofs [[0]] [[5]] [] [] = None.
Proof.
  pose (r2 := Skeleton.setPositions
                (Skeleton.setPositions Walled.robot0 Scenario.dofs [0])
                Scenario.dofs [5]).
  split; unfold planPath.
  - change (feasible (world (Walled.single co g)) Walled.robot0 Scenario.dofs
                     [[0]])
      with ([[0]], Skeleton.setPositions Walled.robot0 Scenario.dofs [0]).
    cbv iota beta.
    change (feasible _ _ _ [[5]]) with ([[5]], r2).
    cbv iota beta. change (bidirectional (Walled.single co g)) with false.
    cbv iota. unfold planSingleTreeRrt.
    change (initTree _ _ _ _ _) with (Walled.rooted 0 0, r2).
    cbv iota beta. change (RRT.getSize _) with 1%nat. change (mMT _) with g.
    rewrite singleTreeLoop_walled. reflexivity.
  - change (feasible (world (Walled.double co g)) Walled.robot0 Scenario.dofs
                     [[0]])
      with ([[0]], Skeleton.setPositions Walled.robot0 Scenario.dofs [0]).
    cbv iota beta.
    change (feasible _ _ _ [[5]]) with ([[5]], r2).
    cbv iota beta. change (bidirectional (Walled.double co g)) with true.
    cbv iota. unfold planBidirectionalRrt.
    change (initTree _ _ _ _ [[0]]) with (Walled.rooted 0 0, r2).
    cbv iota beta.
    change (initTree _ _ _ _ [[5]]) with (Walled.rooted 5 0, r2).
    cbv iota beta.
    change (RRT.getSize _ + RRT.getSize _)%nat with 2%nat.
    change (mMT _) with g.
    rewrite bidirectionalLoop_walled; [reflexivity|congruence].
Qed.

(** ** The tree of the design document *)

Section TreeFacts.

Variable gap : VectorXd -> VectorXd -> Q.
Variable rand : nat -> Q.



Lemma nearestFrom_bound (target : VectorXd) :
  forall rest i best bestGap,
    (best < i)%nat ->
    (Tree.nearestFrom gap target rest i best bestGap < i + length rest)%nat.
Proof.
  induction rest as [|n rest IH]; intros i best bestGap H; simpl; [lia|].
  destruct (Qltb _ _).
  - specialize (IH (S i) i (gap (Tree.configuration n) target)). lia.
  - specialize (IH (S i) best bestGap). lia.
Qed.

Lemma nearest_bound (tr : Tree.t) (target : VectorXd) :
  Tree.nodes tr <> [] ->
  (Tree.nearest gap tr target < length (Tree.nodes tr))%nat.
Proof.
  unfold Tree.nearest. destruct (Tree.nodes tr) as [|n rest]; [congruence|].
  intros _. simpl.
  pose proof (@nearestFrom_bound target rest 1 0 (gap (Tree.configuration n) target)).
  lia.
Qed.





















End TreeFacts.

(** C7, as stated, fails: [tracePath] pushes the trace in front of what the
    list it is given already holds (line 212 hands it the caller's list as it
    came in).  One planned DOF, no obstacle, start 0, goal 5, step 1, and a
    caller's list that already holds the configuration 7: the planner returns
    [true] with the path 0, 1, 2, 3, 4, 5, 7, whose last configuration, 7, is
    at distance 2 from the goal, not below [stepSize = 1]. *)
Lemma prefilled_path_ends_away_from_goal :
  match planPath (RR := Scenario.ops) 10
          (Scenario.planner_of Scenario.free false false 1 100 1 0)
          (Scenario.robot_at 0 0 10) Scenario.dofs [[0]] [[5]] [[7]] [] with
  | Some o =>
      returned o = true /\
      path_after o = [[0]; [1]; [2]; [3]; [4]; [5]; [7]] /\
      ~ Tree.distance (last (path_after o) []) [5] < 1
  | None => False
  end.
Proof.
  vm_compute. split; [reflexivity|]. split; [reflexivity|]. discriminate.
Qed.

(** C8, as stated, fails: line 291 pushes the start tree's trace in front of
    what the caller's list holds and line 292 appends the goal tree's trace
    behind it.  One planned DOF, no obstacle, start 0, goal 1, step 1, and a
    caller's list that already holds the configuration 7: the planner returns
    [true] with the path 0, 1, 7, 1, 1, where the start trace is 0, 1 and the
    goal trace is 1, 1: the goal trace does not follow the start trace. *)
Lemma prefilled_path_sits_between_the_traces :
  match planPath (RR := Scenario.ops) 10
          (Scenario.planner_of Scenario.free true false 1 10 1 0)
          (Scenario.robot_at 0 0 10) Scenario.dofs [[0]] [[1]] [[7]] [] with
  | Some o =>
      returned o = true /\
      path_after o = [[0]; [1]; [7]; [1]; [1]] /\
      match start_rrt (planner_after o), goal_rrt (planner_after o) with
      | Some s, Some g =>
          rev (Tree.trace s (Tree.activeNode s)) = [[0]; [1]] /\
          Tree.trace g (Tree.activeNode g) = [[1]; [1]] /\
          path_after o
          <> rev (Tree.trace s (Tree.activeNode s))
             ++ Tree.trace g (Tree.activeNode g)
      | _, _ => False
      end
  | None => False
  end.
Proof.
  vm_compute. split; [reflexivity|]. split; [reflexivity|].
  split; [reflexivity|]. split; [reflexivity|]. discriminate.
Qed.



(** ** What the single-tree planner sees of the goals *)

Lemma setPositions_elsewhere (dofs : list nat) :
  forall q r i, ~ In i dofs ->
    Skeleton.positions (Skeleton.setPositions r dofs q) i = Skeleton.positions r i.
Proof.
  induction dofs as [|d dofs IH]; intros [|x q] r i H; simpl; auto.
  rewrite IH by (intro; apply H; right; assumption). simpl.
  destruct (Nat.eqb i d) eqn:E; auto. apply Nat.eqb_eq in E. subst.
  exfalso. apply H. left. reflexivity.
Qed.

Lemma setPositions_full (dofs : list nat) :
  forall q r r', length q = length dofs ->
    (forall i, ~ In i dofs -> Skeleton.positions r i = Skeleton.positions r' i) ->
    forall i, Skeleton.positions (Skeleton.setPositions r dofs q) i
              = Skeleton.positions (Skeleton.setPositions r' dofs q) i.
Proof.
  induction dofs as [|d dofs IH]; intros [|x q] r r' L H i; simpl in *;
    try discriminate.
  - apply H. tauto.
  - apply IH; [lia|]. intros j Hj. simpl.
    destruct (Nat.eqb j d) eqn:E; auto. apply H. intros [->|?]; [|tauto].
    rewrite Nat.eqb_refl in E. discriminate.
Qed.

Lemma same_elsewhere_refl dofs r : same_elsewhere dofs r r.
Proof. repeat split; auto. Qed.

Lemma same_elsewhere_trans dofs r1 r2 r3 :
  same_elsewhere dofs r1 r2 -> same_elsewhere dofs r2 r3 -> same_elsewhere dofs r1 r3.
Proof.
  intros (A & B & C) (A' & B' & C'). repeat split; try congruence.
  intros i Hi. rewrite C, C'; auto.
Qed.

Lemma same_elsewhere_sym dofs r1 r2 :
  same_elsewhere dofs r1 r2 -> same_elsewhere dofs r2 r1.
Proof.
  intros (A & B & C). repeat split; try congruence.
  intros i Hi. rewrite C; auto.
Qed.

Lemma same_elsewhere_setPositions dofs r q :
  same_elsewhere dofs r (Skeleton.setPositions r dofs q).
Proof.
  repeat split.
  - now rewrite setPositions_lowerLimit.
  - now rewrite setPositions_upperLimit.
  - intros i Hi. now rewrite setPositions_elsewhere.
Qed.

Lemma same_elsewhere_set_both dofs r r' q q' :
  same_elsewhere dofs r r' ->
  same_elsewhere dofs (Skeleton.setPositions r dofs q) (Skeleton.setPositions r' dofs q').
Proof.
  intros H.
  eapply same_elsewhere_trans; [apply same_elsewhere_sym, same_elsewhere_setPositions|].
  eapply same_elsewhere_trans; [exact H|apply same_elsewhere_setPositions].
Qed.

Lemma checkCollision_ext (w : World) (r r' : Skeleton.t) :
  (forall i, Skeleton.positions r i = Skeleton.positions r' i) ->
  checkCollision w r = checkCollision w r'.
Proof.
  intros H. unfold checkCollision, Skeleton.getPositions. f_equal.
  apply map_ext. exact H.
Qed.

Lemma map2_length f : forall a b, length (Tree.map2 f a b) = Nat.min (length a) (length b).
Proof.
  induction a as [|x a IH]; intros [|y b]; simpl; auto.
Qed.

Lemma feasible_elsewhere (w : World) (dofs : list nat) :
  forall cs r, same_elsewhere dofs r (snd (feasible w r dofs cs)).
Proof.
  induction cs as [|c cs IH]; intros r; simpl; [apply same_elsewhere_refl|].
  specialize (IH (Skeleton.setPositions r dofs c)).
  destruct (feasible w (Skeleton.setPositions r dofs c) dofs cs) as [kept r'']; simpl in *.
  eapply same_elsewhere_trans; [apply same_elsewhere_setPositions|exact IH].
Qed.

Lemma feasible_incl (w : World) (dofs : list nat) :
  forall cs r c, In c (fst (feasible w r dofs cs)) -> In c cs.
Proof.
  induction cs as [|c0 cs IH]; intros r c; simpl; auto.
  specialize (IH (Skeleton.setPositions r dofs c0) c).
  destruct (feasible w (Skeleton.setPositions r dofs c0) dofs cs) as [kept r'']; simpl in *.
  destruct (checkCollision w _); simpl; intuition.
Qed.

Section Blind.

Variable gap : VectorXd -> VectorXd -> Q.
Variable rand : nat -> Q.

Lemma sample_length : forall lo hi c,
  length (Tree.sample rand lo hi c) = Nat.min (length lo) (length hi).
Proof.
  induction lo as [|l lo IH]; intros [|h hi] c; simpl; auto.
Qed.

Lemma planted_roots (roots : list VectorXd) (w : World) (r : Skeleton.t)
    (ds : list nat) (step : Q) (sv : option Solver) (cur : nat) :
  roots <> [] ->
  Forall (fun c => length c = length ds) roots ->
  planted (Tree.mk (map (fun c => Tree.Build_Node c None) roots)
                   (length roots - 1) w ds step sv
                   (Skeleton.getLowerLimits r ds) (Skeleton.getUpperLimits r ds) cur).
Proof.
  intros Hn Hd. split; [split; [|split]|]; simpl.
  - apply Forall_map. simpl. exact Hd.
  - apply length_map.
  - apply length_map.
  - destruct roots; [congruence|discriminate].
Qed.

Lemma nth_nearest_length (tr : Tree.t) (target : VectorXd) :
  planted tr ->
  length (nth (Tree.nearest gap tr target) (Tree.mConfigs tr) [])
  = length (Tree.dofs tr).
Proof.
  intros [[Hd _] Hn].
  pose proof (@nearest_bound gap tr target Hn) as B.
  unfold Tree.mConfigs.
  destruct (nth_error (Tree.nodes tr) (Tree.nearest gap tr target)) as [n|] eqn:E.
  2:{ apply nth_error_None in E. lia. }
  erewrite nth_error_nth; [|rewrite nth_error_map, E; reflexivity].
  rewrite Forall_forall in Hd. apply Hd. eapply nth_error_In; eauto.
Qed.

(** A step sees the robot only after it has set every planned DOF. *)
Lemma tryStep_blind (tr : Tree.t) (r r' : Skeleton.t) (target : VectorXd) :
  planted tr ->
  length target = length (Tree.dofs tr) ->
  same_elsewhere (Tree.dofs tr) r r' ->
  fst (Tree.tryStep gap tr r target) = fst (Tree.tryStep gap tr r' target) /\
  same_elsewhere (Tree.dofs tr) (snd (Tree.tryStep gap tr r target))
                 (snd (Tree.tryStep gap tr r' target)) /\
  planted (snd (fst (Tree.tryStep gap tr r target))) /\
  Tree.dofs (snd (fst (Tree.tryStep gap tr r target))) = Tree.dofs tr.
Proof.
  intros P L S. unfold Tree.tryStep, Tree.isValid.
  set (near := Tree.nearest gap tr target).
  set (qnew := Tree.candidate gap tr (nth near (Tree.mConfigs tr) []) target).
  assert (Lq : length qnew = length (Tree.dofs tr)).
  { unfold qnew, Tree.candidate. rewrite map2_length.
    unfold near. rewrite (nth_nearest_length target P). lia. }
  assert (C : checkCollision (Tree.world tr) (Skeleton.setPositions r (Tree.dofs tr) qnew)
              = checkCollision (Tree.world tr) (Skeleton.setPositions r' (Tree.dofs tr) qnew)).
  { apply checkCollision_ext. apply setPositions_full; auto. apply S. }
  rewrite <- C.
  destruct (checkCollision (Tree.world tr) (Skeleton.setPositions r (Tree.dofs tr) qnew));
    simpl; (split; [reflexivity|]); (split; [apply same_elsewhere_set_both; exact S|]);
    (split; [|reflexivity]); auto.
  destruct P as [[Hd [Hl Hu]] Hn]. split; [split; [|split]|]; simpl; auto.
  - apply Forall_app. split; auto.
  - destruct (Tree.nodes tr); discriminate.
Qed.

Lemma connect_blind (target : VectorXd) :
  forall fuel tr r r',
    planted tr ->
    length target = length (Tree.dofs tr) ->
    same_elsewhere (Tree.dofs tr) r r' ->
    match Tree.connect gap fuel tr r target, Tree.connect gap fuel tr r' target with
    | None, None => True
    | Some (b, t, r1), Some (b', t', r1') =>
        b = b' /\ t = t' /\ same_elsewhere (Tree.dofs tr) r1 r1' /\
        planted t /\ Tree.dofs t = Tree.dofs tr
    | _, _ => False
    end.
Proof.
  induction fuel as [|fuel IH]; intros tr r r' P L S; simpl; auto.
  destruct (@tryStep_blind tr r r' target P L S) as (E & S1 & P1 & D1).
  destruct (Tree.tryStep gap tr r target) as [[st t1] r1],
           (Tree.tryStep gap tr r' target) as [[st' t1'] r1'];
    simpl in *. inversion E; subst st' t1'.
  destruct st; auto.
  rewrite <- D1 in S1, L.
  specialize (IH t1 r1 r1' P1 L S1).
  destruct (Tree.connect gap fuel t1 r1 target) as [[[b t] r2]|],
           (Tree.connect gap fuel t1 r1' target) as [[[b' t'] r2']|]; auto.
  rewrite <- D1. intuition congruence.
Qed.


Lemma extend_blind (fuel : nat) (self : PathPlanner Tree.t) (tr : Tree.t)
    (r r' : Skeleton.t) (target : VectorXd) :
  planted tr ->
  length target = length (Tree.dofs tr) ->
  same_elsewhere (Tree.dofs tr) r r' ->
  match extend (RR := Tree.rrt_ops gap rand) fuel self tr r target,
        extend (RR := Tree.rrt_ops gap rand) fuel self tr r' target with
  | None, None => True
  | Some (b, t, r1), Some (b', t', r1') =>
      b = b' /\ t = t' /\ same_elsewhere (Tree.dofs tr) r1 r1' /\
      planted t /\ Tree.dofs t = Tree.dofs tr
  | _, _ => False
  end.
Proof.
  intros P L S. unfold extend. destruct (connect self).
  - apply connect_blind; assumption.
  - cbn [RRT.tryStep Tree.rrt_ops].
    destruct (@tryStep_blind tr r r' target P L S) as (E & S1 & P1 & D1).
    destruct (Tree.tryStep gap tr r target) as [[st t1] r1],
             (Tree.tryStep gap tr r' target) as [[st' t1'] r1'];
      simpl in *. inversion E; subst st' t1'. auto.
Qed.

Lemma drawTarget_planted (self : PathPlanner Tree.t) (goal : VectorXd)
    (tr : Tree.t) (g : MT) :
  planted tr ->
  length goal = length (Tree.dofs tr) ->
  let '(target, tr1, _) := drawTarget (RR := Tree.rrt_ops gap rand) self goal tr g in
  planted tr1 /\ Tree.dofs tr1 = Tree.dofs tr /\
  length target = length (Tree.dofs tr).
Proof.
  intros P L. unfold drawTarget. destruct (mDistribution g) as [v g1].
  destruct (Qltb v (goalBias self)); [auto|].
  cbn [RRT.getRandomConfig Tree.rrt_ops Tree.getRandomConfig].
  destruct P as [[Hd [Hl Hu]] Hn].
  split; [|split]; [split; [split; [|split]|]| |]; simpl; auto.
  rewrite sample_length. lia.
Qed.

Lemma singleTreeLoop_blind (self : PathPlanner Tree.t) (goal : VectorXd)
    (path : list VectorXd) :
  forall fuel tr r r' g numNodes,
    planted tr ->
    length goal = length (Tree.dofs tr) ->
    same_elsewhere (Tree.dofs tr) r r' ->
    match singleTreeLoop (RR := Tree.rrt_ops gap rand) fuel self goal tr r g
                         path numNodes,
          singleTreeLoop (RR := Tree.rrt_ops gap rand) fuel self goal tr r' g
                         path numNodes with
    | None, None => True
    | Some (b, t, r1, m, p), Some (b', t', r1', m', p') =>
        b = b' /\ t = t' /\ m = m' /\ p = p' /\
        same_elsewhere (Tree.dofs tr) r1 r1'
    | _, _ => False
    end.
Proof.
  induction fuel as [|fuel IH]; intros tr r r' g numNodes P L S; simpl; auto.
  destruct (numNodes <=? maxNodes self)%nat;
    [|repeat (split; [reflexivity|]); exact S].
  pose proof (@drawTarget_planted self goal tr g P L) as D.
  destruct (drawTarget self goal tr g) as [[target tr1] g1].
  destruct D as (P1 & D1 & L1).
  rewrite <- D1 in S, L1.
  pose proof (@extend_blind fuel self tr1 r r' target P1 L1 S) as X.
  destruct (extend fuel self tr1 r target) as [[[b t] r1]|],
           (extend fuel self tr1 r' target) as [[[b' t'] r1']|];
    try contradiction; auto.
  destruct X as (-> & <- & S2 & P2 & D2).
  assert (Dt : Tree.dofs t = Tree.dofs tr) by congruence.
  rewrite D1 in S2.
  destruct (Qltb _ (stepSize self));
    [repeat (split; [reflexivity|]); exact S2|].
  rewrite <- Dt in L, S2.
  specialize (IH t r1 r1' g1 (RRT.getSize (ops := Tree.rrt_ops gap rand) t)
                 P2 L S2).
  rewrite Dt in IH. exact IH.
Qed.

End Blind.

Lemma feasible_front_alone (w : World) (dofs : list nat) :
  forall cs r front others,
    fst (feasible w r dofs cs) = front :: others ->
    length front = length dofs ->
    fst (feasible w r dofs [front]) = [front].
Proof.
  induction cs as [|c cs IH]; intros r front others H L; simpl in H;
    [discriminate|].
  destruct (feasible w (Skeleton.setPositions r dofs c) dofs cs)
    as [kept r''] eqn:E.
  destruct (checkCollision w (Skeleton.setPositions r dofs c)) eqn:C;
    simpl in H.
  - specialize (IH (Skeleton.setPositions r dofs c) front others).
    rewrite E in IH. specialize (IH H L). simpl in *.
    rewrite (@checkCollision_ext w (Skeleton.setPositions r dofs front)
               (Skeleton.setPositions (Skeleton.setPositions r dofs c) dofs front)).
    + exact IH.
    + apply setPositions_full; auto.
      intros i Hi. now rewrite setPositions_elsewhere.
  - inversion H; subst. simpl. rewrite C. reflexivity.
Qed.

Section FirstGoal.

Variable gap : VectorXd -> VectorXd -> Q.
Variable rand : nat -> Q.

Lemma initTree_blind (self : PathPlanner Tree.t) (old : option Tree.t)
    (r r' : Skeleton.t) (dofs : list nat) (roots : list VectorXd) :
  same_elsewhere dofs r r' ->
  initTree (RR := Tree.rrt_ops gap rand) self old r' dofs roots
  = (fst (initTree (RR := Tree.rrt_ops gap rand) self old r dofs roots), r') /\
  snd (initTree (RR := Tree.rrt_ops gap rand) self old r dofs roots) = r.
Proof.
  intros (Hl & Hu & _). unfold initTree.
  destruct old; simpl; unfold Tree.reset, Tree.create,
    Skeleton.getLowerLimits, Skeleton.getUpperLimits; rewrite Hl, Hu; auto.
Qed.

Lemma initTree_planted (self : PathPlanner Tree.t) (old : option Tree.t)
    (r : Skeleton.t) (dofs : list nat) (roots : list VectorXd) :
  roots <> [] ->
  Forall (fun c => length c = length dofs) roots ->
  planted (fst (initTree (RR := Tree.rrt_ops gap rand) self old r dofs roots)) /\
  Tree.dofs (fst (initTree (RR := Tree.rrt_ops gap rand) self old r dofs roots)) = dofs.
Proof.
  intros Hn Hd. destruct old; simpl; split; auto; apply planted_roots; auto.
Qed.

Lemma planPath_first_goal (fuel : nat) (self : PathPlanner Tree.t)
    (robot : Skeleton.t) (dofs : list nat) (start goal goal' : list VectorXd)
    (path : list VectorXd) (log : list string) (front : VectorXd)
    (others others' : list VectorXd) :
  bidirectional self = false ->
  Forall (fun c => length c = length dofs) start ->
  length front = length dofs ->
  fst (feasible (world self) (snd (feasible (world self) robot dofs start))
                dofs goal) = front :: others ->
  fst (feasible (world self) (snd (feasible (world self) robot dofs start))
                dofs goal') = front :: others' ->
  same_answer
    (planPath (RR := Tree.rrt_ops gap rand) fuel self robot dofs start goal path log)
    (planPath (RR := Tree.rrt_ops gap rand) fuel self robot dofs start goal' path log).
Proof.
  intros Hb Hs Lf Hg Hg'. unfold planPath.
  pose proof (@feasible_incl (world self) dofs start robot) as Inc.
  destruct (feasible (world self) robot dofs start) as [[|s0 fs] robot1];
    simpl in *.
  { repeat split; auto. }
  pose proof (@feasible_elsewhere (world self) dofs goal robot1) as S.
  pose proof (@feasible_elsewhere (world self) dofs goal' robot1) as S'.
  destruct (feasible (world self) robot1 dofs goal) as [fg robot2],
           (feasible (world self) robot1 dofs goal') as [fg' robot2'];
    simpl in *; subst fg fg'.
  rewrite Hb. unfold planSingleTreeRrt.
  assert (S2 : same_elsewhere dofs robot2 robot2').
  { eapply same_elsewhere_trans; [apply same_elsewhere_sym; exact S|exact S']. }
  assert (Hd : Forall (fun c => length c = length dofs) (s0 :: fs)).
  { apply Forall_forall. intros c Hc. rewrite Forall_forall in Hs.
    apply Hs, Inc, Hc. }
  destruct (@initTree_blind self (start_rrt self) robot2 robot2' dofs (s0 :: fs) S2)
    as [I' I].
  destruct (@initTree_planted self (start_rrt self) robot2 dofs (s0 :: fs)
              ltac:(discriminate) Hd) as [P D].
  rewrite I'.
  destruct (initTree self (start_rrt self) robot2 dofs (s0 :: fs)) as [tr r1];
    simpl in *; subst r1.
  rewrite <- D in Lf, S2.
  pose proof (@singleTreeLoop_blind gap rand self front path fuel tr robot2 robot2'
                (mMT self) (RRT.getSize (ops := Tree.rrt_ops gap rand) tr)
                P Lf S2) as L.
  destruct (singleTreeLoop fuel self front tr robot2 (mMT self) path _)
    as [[[[[b t] r3] m] p]|],
    (singleTreeLoop fuel self front tr robot2' (mMT self) path _)
    as [[[[[b' t'] r3'] m'] p']|]; try contradiction; auto.
  destruct L as (-> & -> & -> & -> & (_ & _ & L)). simpl.
  repeat split; auto. intros i. rewrite !setPositions_saved.
  destruct (existsb (Nat.eqb i) dofs) eqn:E; auto.
  apply L. rewrite D. intros Hi.
  assert (existsb (Nat.eqb i) dofs = true); [|congruence].
  apply existsb_exists. exists i. split; auto. apply Nat.eqb_refl.
Qed.

End FirstGoal.

(** The only [true] return of the single-tree loop, lines 209-213, is
    guarded by the gap of the tree to the goal the loop was handed. *)
Lemma singleTreeLoop_true_gap {R : Type} {RR : RRT.ops R} (self : PathPlanner R)
    (goal : VectorXd) (path : list VectorXd) :
  forall fuel rrt robot g numNodes rrt' robot' g' path',
    singleTreeLoop fuel self goal rrt robot g path numNodes
      = Some (true, rrt', robot', g', path') ->
    RRT.getGap rrt' goal < stepSize self.
Proof.
  induction fuel as [|fuel IH];
    intros rrt robot g numNodes rrt' robot' g' path' E; simpl in E;
    [discriminate|].
  destruct (numNodes <=? maxNodes self)%nat; [|discriminate].
  destruct (drawTarget self goal rrt g) as [[target rrt1] g1].
  destruct (extend fuel self rrt1 robot target) as [[[flag rrt2] robot2]|];
    [|discriminate].
  destruct (Qltb (RRT.getGap rrt2 goal) (stepSize self)) eqn:G.
  - inversion E; subst. apply Qltb_lt. exact G.
  - eapply IH; eauto.
Qed.

(** C9: in single-tree mode on the tree of the design document, with starts
    and a first feasible goal that have one value per planned DOF, only the
    first feasible goal is used.  It is the bias target: when the first draw
    of the engine falls below [goalBias], the first iteration extends the
    tree toward that goal, and the call goes on from the tree so extended.
    It is the reference of the success check: that iteration returns [true],
    with the trace of the extended tree, exactly when the gap of that tree to
    the first feasible goal is below [stepSize], and whenever the call returns
    [true] the start tree it leaves has a gap to the first feasible goal below
    [stepSize].  The warning is written exactly when more than one goal is
    feasible.  The other feasible goals never influence the result: the call
    answers as it would for any other goal list with the same first feasible
    goal, in particular as for that goal alone: same flag, path, trees and
    engine, same robot positions. *)
Theorem single_tree_uses_only_first_goal (gap : VectorXd -> VectorXd -> Q)
    (rand : nat -> Q) (fuel : nat) (self : PathPlanner Tree.t)
    (robot : Skeleton.t) (dofs : list nat) (start goal : list VectorXd)
    (path : list VectorXd) (log : list string) (front : VectorXd)
    (others : list VectorXd) :
  bidirectional self = false ->
  Forall (fun c => length c = length dofs) start ->
  length front = length dofs ->
  fst (feasible (world self) robot dofs start) <> [] ->
  fst (feasible (world self) (snd (feasible (world self) robot dofs start))
                dofs goal) = front :: others ->
  let warned := match others with
                | [] => log
                | _ :: _ => log ++ [warn_first_goal]
                end in
  (forall tr robot3 v mt1 flag tr1 robot4,
     initTree (RR := Tree.rrt_ops gap rand) self (start_rrt self)
       (snd (feasible (world self) (snd (feasible (world self) robot dofs start))
                      dofs goal))
       dofs (fst (feasible (world self) robot dofs start)) = (tr, robot3) ->
     (Tree.getSize tr <= maxNodes self)%nat ->
     mDistribution (mMT self) = (v, mt1) ->
     v < goalBias self ->
     extend (RR := Tree.rrt_ops gap rand) fuel self tr robot3 front
       = Some (flag, tr1, robot4) ->
     planPath (RR := Tree.rrt_ops gap rand) (S fuel) self robot dofs start goal
              path log
     = if Qltb (Tree.getGap gap tr1 front) (stepSize self)
       then Some (Build_Outcome true
                    (with_trees self (Some tr1) (goal_rrt self) mt1)
                    (Skeleton.setPositions robot4 dofs
                       (Skeleton.getPositions robot dofs))
                    (Tree.tracePath tr1 (Tree.activeNode tr1) path false)
                    warned)
       else
         match singleTreeLoop (RR := Tree.rrt_ops gap rand) fuel self front tr1
                 robot4 mt1 path (Tree.getSize tr1) with
         | Some (found, rrt', robot', g', path') =>
             Some (Build_Outcome found
                     (with_trees self (Some rrt') (goal_rrt self) g')
                     (Skeleton.setPositions robot' dofs
                        (Skeleton.getPositions robot dofs))
                     path' warned)
         | None => None
         end) /\
  (forall o,
     planPath (RR := Tree.rrt_ops gap rand) fuel self robot dofs start goal
              path log = Some o ->
     dtwarn_after o = warned /\
     (returned o = true ->
      exists tr, start_rrt (planner_after o) = Some tr /\
                 Tree.getGap gap tr front < stepSize self)) /\
  (forall goal' others',
     fst (feasible (world self) (snd (feasible (world self) robot dofs start))
                   dofs goal') = front :: others' ->
     same_answer
       (planPath (RR := Tree.rrt_ops gap rand) fuel self robot dofs start goal
                 path log)
       (planPath (RR := Tree.rrt_ops gap rand) fuel self robot dofs start goal'
                 path log)) /\
  same_answer
    (planPath (RR := Tree.rrt_ops gap rand) fuel self robot dofs start goal
              path log)
    (planPath (RR := Tree.rrt_ops gap rand) fuel self robot dofs start [front]
              path log).
Proof.
  intros Hb Hs Lf Hn Hg warned. split; [|split; [|split]].
  - intros tr robot3 v mt1 flag tr1 robot4 Hi Hm Hd Hv He.
    unfold planPath.
    destruct (feasible (world self) robot dofs start) as [[|s0 fs] robot1];
      simpl in *; [congruence|].
    destruct (feasible (world self) robot1 dofs goal) as [fg robot2];
      simpl in *; subst fg.
    rewrite Hb. unfold planSingleTreeRrt. rewrite Hi.
    cbn [singleTreeLoop RRT.getSize Tree.rrt_ops].
    apply Nat.leb_le in Hm. rewrite Hm.
    unfold drawTarget. rewrite Hd.
    replace (Qltb v (goalBias self)) with true
      by (symmetry; apply Qltb_lt; exact Hv).
    rewrite He. cbn [RRT.getGap RRT.tracePath RRT.mActiveNode RRT.getSize
                     Tree.rrt_ops].
    destruct (Qltb (Tree.getGap gap tr1 front) (stepSize self)); [reflexivity|].
    destruct (singleTreeLoop fuel self front tr1 robot4 mt1 path (Tree.getSize tr1))
      as [[[[[found rrt'] robot'] g'] path']|]; reflexivity.
  - intros o H. unfold planPath in H.
    destruct (feasible (world self) robot dofs start) as [[|s0 fs] robot1];
      simpl in *; [congruence|].
    destruct (feasible (world self) robot1 dofs goal) as [fg robot2];
      simpl in *; subst fg.
    rewrite Hb in H. unfold planSingleTreeRrt in H.
    destruct (initTree self (start_rrt self) robot2 dofs (s0 :: fs)) as [tr r1].
    destruct (singleTreeLoop fuel self front tr r1 (mMT self) path (RRT.getSize tr))
      as [[[[[found rrt'] robot'] g'] path']|] eqn:L; [|discriminate].
    inversion H; subst o; simpl. split; [destruct others; reflexivity|].
    intros ->. exists rrt'. split; [reflexivity|].
    apply (@singleTreeLoop_true_gap _ (Tree.rrt_ops gap rand) self front path
             fuel tr r1 (mMT self) _ rrt' robot' g' path' L).
  - intros goal' others' Hg'.
    eapply planPath_first_goal; eauto.
  - eapply planPath_first_goal; eauto.
    eapply feasible_front_alone; eauto.
Qed.

Lemma single_tree_uses_only_first_goal_witness :
  match planPath (RR := Scenario.ops) 10
          (Scenario.planner_of (Scenario.blocked_at [9]) false false 1 100 1 0)
          (Scenario.robot_at 0 0 10) Scenario.dofs [[0]] [[9]; [3]; [5]] [] [],
        planPath (RR := Scenario.ops) 10
          (Scenario.planner_of (Scenario.blocked_at [9]) false false 1 100 1 0)
          (Scenario.robot_at 0 0 10) Scenario.dofs [[0]] [[3]] [] [] with
  | Some o, Some o' =>
      returned o = true /\
      path_after o = [[0]; [1]; [2]; [3]] /\
      path_after o' = path_after o /\
      dtwarn_after o = [warn_first_goal] /\
      exists tr, start_rrt (planner_after o) = Some tr /\
                 Tree.getGap Tree.distance tr [3] < 1
  | _, _ => False
  end.
Proof.
  assert (T :
    (forall o,
       planPath (RR := Scenario.ops) 10
         (Scenario.planner_of (Scenario.blocked_at [9]) false false 1 100 1 0)
         (Scenario.robot_at 0 0 10) Scenario.dofs [[0]] [[9]; [3]; [5]] [] []
       = Some o ->
       dtwarn_after o = [warn_first_goal] /\
       (returned o = true ->
        exists tr, start_rrt (planner_after o) = Some tr /\
                   Tree.getGap Tree.distance tr [3] < 1)) /\
    same_answer
      (planPath (RR := Scenario.ops) 10
         (Scenario.planner_of (Scenario.blocked_at [9]) false false 1 100 1 0)
         (Scenario.robot_at 0 0 10) Scenario.dofs [[0]] [[9]; [3]; [5]] [] [])
      (planPath (RR := Scenario.ops) 10
         (Scenario.planner_of (Scenario.blocked_at [9]) false false 1 100 1 0)
         (Scenario.robot_at 0 0 10) Scenario.dofs [[0]] [[3]] [] [])).
  { destruct (@single_tree_uses_only_first_goal Tree.distance (fun _ => 0) 10
                (Scenario.planner_of (Scenario.blocked_at [9]) false false 1 100 1 0)
                (Scenario.robot_at 0 0 10) Scenario.dofs [[0]] [[9]; [3]; [5]] [] []
                [3] [[5]] eq_refl ltac:(repeat constructor) eq_refl
                ltac:(vm_compute; discriminate) ltac:(vm_compute; reflexivity))
      as (_ & T & _ & S).
    split; [exact T|exact S]. }
  destruct T as [T S].
  destruct (planPath (RR := Scenario.ops) 10
              (Scenario.planner_of (Scenario.blocked_at [9]) false false 1 100 1 0)
              (Scenario.robot_at 0 0 10) Scenario.dofs [[0]] [[9]; [3]; [5]] [] [])
    as [o|] eqn:E.
  2:{ vm_compute in E. discriminate E. }
  destruct (planPath (RR := Scenario.ops) 10
              (Scenario.planner_of (Scenario.blocked_at [9]) false false 1 100 1 0)
              (Scenario.robot_at 0 0 10) Scenario.dofs [[0]] [[3]] [] [])
    as [o'|] eqn:E'.
  2:{ vm_compute in E'. discriminate E'. }
  destruct (T o eq_refl) as [W G].
  destruct S as (_ & P & _).
  assert (Rt : returned o = true) by (vm_compute in E; inversion E; reflexivity).
  split; [exact Rt|].
  split; [vm_compute in E; inversion E; reflexivity|].
  split; [symmetry; exact P|].
  split; [exact W|].
  exact (G Rt).
Defined.

(** ** Scenarios of the design document *)

(** Scenario A: no obstacle, start 0, goal 5, [stepSize = 1], [goalBias = 1]:
    the single-tree planner succeeds within five iterations. *)
Example scenario_A :
  Scenario.observe
    (planPath (RR := Scenario.ops) 5
       (Scenario.planner_of Scenario.free false false 1 100 1 0)
       (Scenario.robot_at 0 0 10) Scenario.dofs [[0]] [[5]] [] [])
  = Some (true, [[0]; [1]; [2]; [3]; [4]; [5]], [0], 6%nat, 0%nat).
Proof. vm_compute. reflexivity. Qed.

(** Scenario C: [maxNodes = 1] and a goal out of reach of one step. *)
Example scenario_C :
  Scenario.observe
    (planPath (RR := Scenario.ops) 5
       (Scenario.planner_of Scenario.free false false 1 1 1 0)
       (Scenario.robot_at 0 0 10) Scenario.dofs [[0]] [[5]] [] [])
  = Some (false, [], [0], 2%nat, 0%nat).
Proof. vm_compute. reflexivity. Qed.

(** Scenario D: the same single point as start and goal; the trees meet at
    the first check. *)
Example scenario_D :
  Scenario.observe
    (planPath (RR := Scenario.ops) 1
       (Scenario.planner_of Scenario.free true false 1 10 1 0)
       (Scenario.robot_at 0 0 10) Scenario.dofs [[2]] [[2]] [] [])
  = Some (true, [[2]; [2]; [2]; [2]], [0], 2%nat, 2%nat).
Proof. vm_compute. reflexivity. Qed.

(** * Further properties of the planner *)

(** Past the two filters every return of planPath goes through the
    write-back of line 169: the planned DOFs hold their pre-call positions,
    whatever the tree did to the robot in between. *)
Lemma planPath_restores_after_planning_witness :
  match planPath (RR := Scenario.ops) 10
          (Scenario.planner_of Scenario.free false false 1 100 1 0)
          (Scenario.robot_at 7 0 10) Scenario.dofs [[0]] [[5]] [] [] with
  | Some o => Skeleton.getPositions (robot_after o) Scenario.dofs = [7]
  | None => False
  end.
Proof.
  destruct (planPath (RR := Scenario.ops) 10
              (Scenario.planner_of Scenario.free false false 1 100 1 0)
              (Scenario.robot_at 7 0 10) Scenario.dofs [[0]] [[5]] [] [])
    as [o|] eqn:E.
  - refine (@planPath_restores_after_planning Tree.t Scenario.ops 10
              (Scenario.planner_of Scenario.free false false 1 100 1 0)
              (Scenario.robot_at 7 0 10) Scenario.dofs [[0]] [[5]] [] [] o E _ _).
    + vm_compute. discriminate.
    + vm_compute. discriminate.
  - vm_compute in E. discriminate E.
Defined.

Section Budget.

Context {R : Type} {RR : RRT.ops R}.

Lemma singleTreeLoop_false_size (self : PathPlanner R) (goal : VectorXd)
    (path : list VectorXd) :
  forall fuel rrt robot g numNodes rrt' robot' g' path',
    numNodes = RRT.getSize rrt ->
    singleTreeLoop fuel self goal rrt robot g path numNodes
      = Some (false, rrt', robot', g', path') ->
    (maxNodes self < RRT.getSize rrt')%nat.
Proof.
  induction fuel as [|fuel IH];
    intros rrt robot g numNodes rrt' robot' g' path' Hn H;
    simpl in H; [discriminate|].
  destruct (numNodes <=? maxNodes self)%nat eqn:L.
  - destruct (drawTarget self goal rrt g) as [[target rrt1] g1].
    destruct (extend fuel self rrt1 robot target) as [[[flag rrt2] robot2]|];
      [|discriminate].
    destruct (Qltb (RRT.getGap rrt2 goal) (stepSize self)); [discriminate|].
    eapply IH; [reflexivity|exact H].
  - inversion H; subst. apply Nat.leb_gt in L. exact L.
Qed.

Lemma bidirectionalLoop_false_size (self : PathPlanner R)
    (goal : list VectorXd) (path : list VectorXd) :
  forall fuel s g rrt1 rrt2 robot mt numNodes s' g' robot' mt' path',
    rrt1 <> rrt2 ->
    numNodes = (RRT.getSize s + RRT.getSize g)%nat ->
    bidirectionalLoop fuel self goal s g rrt1 rrt2 robot mt path numNodes
      = Some (false, s', g', robot', mt', path') ->
    (maxNodes self <= RRT.getSize s' + RRT.getSize g')%nat.
Proof.
  induction fuel as [|fuel IH];
    intros s g rrt1 rrt2 robot mt numNodes s' g' robot' mt' path' Hp Hn H;
    simpl in H; [discriminate|].
  destruct (numNodes <? maxNodes self)%nat eqn:L.
  - destruct (drawTarget self (nth 0 goal []) (deref s g rrt2) mt)
      as [[target t1] mt1].
    destruct (assign s g rrt2 t1) as [s1 g1].
    destruct (extend fuel self (deref s1 g1 rrt2) robot target)
      as [[[flag t1'] robot1]|]; [|discriminate].
    destruct (assign s1 g1 rrt2 t1') as [s2 g2].
    destruct (extend fuel self (deref s2 g2 rrt1) robot1 _)
      as [[[treesMet t2'] robot2]|]; [|discriminate].
    destruct (assign s2 g2 rrt1 t2') as [s3 g3].
    destruct treesMet; [discriminate|].
    eapply IH; [| |exact H]; [congruence|].
    destruct rrt1, rrt2; simpl; congruence || lia.
  - inversion H; subst. apply Nat.ltb_ge in L. exact L.
Qed.

(** X2: When the single-tree planner gives up, the node budget is really spent:
    the start tree it leaves behind holds more than [maxNodes] nodes. *)
Theorem single_tree_failure_spent_budget (fuel : nat) (self : PathPlanner R)
    (robot : Skeleton.t) (dofs : list nat) (start goal : list VectorXd)
    (path : list VectorXd) (log : list string) (o : Outcome R) :
  planPath fuel self robot dofs start goal path log = Some o ->
  bidirectional self = false ->
  returned o = false ->
  fst (feasible (world self) robot dofs start) <> [] ->
  fst (feasible (world self) (snd (feasible (world self) robot dofs start))
                dofs goal) <> [] ->
  exists tr,
    start_rrt (planner_after o) = Some tr /\
    (maxNodes self < RRT.getSize tr)%nat.
Proof.
  unfold planPath. intros H Hb Hf Hs Hg.
  destruct (feasible (world self) robot dofs start) as [[|s0 fs] robot1];
    simpl in *; [congruence|].
  destruct (feasible (world self) robot1 dofs goal) as [[|g0 fg] robot2];
    simpl in *; [congruence|].
  rewrite Hb in H. unfold planSingleTreeRrt in H.
  destruct (initTree self (start_rrt self) robot2 dofs (s0 :: fs)) as [s r1].
  destruct (singleTreeLoop fuel self g0 s r1 (mMT self) path (RRT.getSize s))
    as [[[[[found s'] r3] mt'] path']|] eqn:E; [|discriminate].
  inversion H; subst; simpl in *; subst.
  exists s'. split; [reflexivity|].
  eapply singleTreeLoop_false_size; [reflexivity|exact E].
Qed.

(** X3: When the bidirectional planner gives up, the two trees it leaves behind
    hold at least [maxNodes] nodes together. *)
Theorem bidirectional_failure_spent_budget (fuel : nat) (self : PathPlanner R)
    (robot : Skeleton.t) (dofs : list nat) (start goal : list VectorXd)
    (path : list VectorXd) (log : list string) (o : Outcome R) :
  planPath fuel self robot dofs start goal path log = Some o ->
  bidirectional self = true ->
  returned o = false ->
  fst (feasible (world self) robot dofs start) <> [] ->
  fst (feasible (world self) (snd (feasible (world self) robot dofs start))
                dofs goal) <> [] ->
  exists s g,
    start_rrt (planner_after o) = Some s /\
    goal_rrt (planner_after o) = Some g /\
    (maxNodes self <= RRT.getSize s + RRT.getSize g)%nat.
Proof.
  unfold planPath. intros H Hb Hf Hs Hg.
  destruct (feasible (world self) robot dofs start) as [[|s0 fs] robot1];
    simpl in *; [congruence|].
  destruct (feasible (world self) robot1 dofs goal) as [[|g0 fg] robot2];
    simpl in *; [congruence|].
  rewrite Hb in H. unfold planBidirectionalRrt in H.
  destruct (initTree self (start_rrt self) robot2 dofs (s0 :: fs)) as [s r1].
  destruct (initTree self (goal_rrt self) r1 dofs (g0 :: fg)) as [g r2].
  destruct (bidirectionalLoop fuel self (g0 :: fg) s g to_start_rrt to_goal_rrt
              r2 (mMT self) path _)
    as [[[[[[found s'] g'] r3] mt'] path']|] eqn:E; [|discriminate].
  inversion H; subst; simpl in *; subst.
  exists s', g'. split; [reflexivity|]. split; [reflexivity|].
  eapply bidirectionalLoop_false_size; [| |exact E]; [discriminate|reflexivity].
Qed.

End Budget.

Lemma single_tree_failure_spent_budget_witness :
  match planPath (RR := Scenario.ops) 5
          (Scenario.planner_of Scenario.free false false 1 1 1 0)
          (Scenario.robot_at 0 0 10) Scenario.dofs [[0]] [[5]] [] [] with
  | Some o =>
      exists tr, start_rrt (planner_after o) = Some tr /\
                 (1 < RRT.getSize (ops := Scenario.ops) tr)%nat
  | None => False
  end.
Proof.
  destruct (planPath (RR := Scenario.ops) 5
              (Scenario.planner_of Scenario.free false false 1 1 1 0)
              (Scenario.robot_at 0 0 10) Scenario.dofs [[0]] [[5]] [] [])
    as [o|] eqn:E.
  - refine (@single_tree_failure_spent_budget Tree.t Scenario.ops 5
              (Scenario.planner_of Scenario.free false false 1 1 1 0)
              (Scenario.robot_at 0 0 10) Scenario.dofs [[0]] [[5]] [] [] o E
              eq_refl _ _ _).
    + vm_compute in E. inversion E. reflexivity.
    + vm_compute. discriminate.
    + vm_compute. discriminate.
  - vm_compute in E. discriminate E.
Defined.

Lemma bidirectional_failure_spent_budget_witness :
  match planPath (RR := Scenario.ops) 10
          (Scenario.planner_of (Scenario.blocked_at [2]) true false 1 4 1 0)
          (Scenario.robot_at 0 0 10) Scenario.dofs [[0]] [[4]] [] [] with
  | Some o =>
      exists s g,
        start_rrt (planner_after o) = Some s /\
        goal_rrt (planner_after o) = Some g /\
        (4 <= RRT.getSize (ops := Scenario.ops) s
              + RRT.getSize (ops := Scenario.ops) g)%nat
  | None => False
  end.
Proof.
  destruct (planPath (RR := Scenario.ops) 10
              (Scenario.planner_of (Scenario.blocked_at [2]) true false 1 4 1 0)
              (Scenario.robot_at 0 0 10) Scenario.dofs [[0]] [[4]] [] [])
    as [o|] eqn:E.
  - refine (@bidirectional_failure_spent_budget Tree.t Scenario.ops 10
              (Scenario.planner_of (Scenario.blocked_at [2]) true false 1 4 1 0)
              (Scenario.robot_at 0 0 10) Scenario.dofs [[0]] [[4]] [] [] o E
              eq_refl _ _ _).
    + vm_compute in E. inversion E. reflexivity.
    + vm_compute. discriminate.
    + vm_compute. discriminate.
  - vm_compute in E. discriminate E.
Defined.

Section EngineUse.

Context {R : Type} {RR : RRT.ops R}.





(** X5: planPath never changes the settings of the planner, and in single-tree
    mode it never creates or touches the goal tree. *)
Theorem planPath_keeps_settings (fuel : nat) (self : PathPlanner R)
    (robot : Skeleton.t) (dofs : list nat) (start goal : list VectorXd)
    (path : list VectorXd) (log : list string) (o : Outcome R) :
  planPath fuel self robot dofs start goal path log = Some o ->
  connect (planner_after o) = connect self /\
  bidirectional (planner_after o) = bidirectional self /\
  stepSize (planner_after o) = stepSize self /\
  goalBias (planner_after o) = goalBias self /\
  maxNodes (planner_after o) = maxNodes self /\
  world (planner_after o) = world self /\
  solver (planner_after o) = solver self /\
  (bidirectional self = false ->
   goal_rrt (planner_after o) = goal_rrt self).
Proof.
  unfold planPath. intros H.
  destruct (feasible (world self) robot dofs start) as [[|s0 fs] robot1].
  { inversion H; subst; simpl. repeat split; auto. }
  destruct (feasible (world self) robot1 dofs goal) as [[|g0 fg] robot2].
  { inversion H; subst; simpl. repeat split; auto. }
  destruct (bidirectional self) eqn:B.
  - unfold planBidirectionalRrt in H.
    destruct (initTree self (start_rrt self) robot2 dofs (s0 :: fs)) as [s r1].
    destruct (initTree self (goal_rrt self) r1 dofs (g0 :: fg)) as [g r2].
    destruct (bidirectionalLoop fuel self (g0 :: fg) s g to_start_rrt
                to_goal_rrt r2 (mMT self) path _)
      as [[[[[[found s'] g'] r3] mt'] path']|]; [|discriminate].
    inversion H; subst; simpl. repeat split; auto. discriminate.
  - unfold planSingleTreeRrt in H.
    destruct (initTree self (start_rrt self) robot2 dofs (s0 :: fs)) as [s r1].
    destruct (singleTreeLoop fuel self g0 s r1 (mMT self) path _)
      as [[[[[found s'] r3] mt'] path']|]; [|discriminate].
    inversion H; subst; simpl. repeat split; auto.
Qed.

End EngineUse.


Lemma planPath_keeps_settings_witness :
  match planPath (RR := Scenario.ops) 10
          (Scenario.planner_of Scenario.free false false 1 100 1 0)
          (Scenario.robot_at 0 0 10) Scenario.dofs [[0]] [[5]] [] [] with
  | Some o =>
      maxNodes (planner_after o) = 100%nat /\ goal_rrt (planner_after o) = None
  | None => False
  end.
Proof.
  destruct (planPath (RR := Scenario.ops) 10
              (Scenario.planner_of Scenario.free false false 1 100 1 0)
              (Scenario.robot_at 0 0 10) Scenario.dofs [[0]] [[5]] [] [])
    as [o|] eqn:E.
  - destruct (@planPath_keeps_settings Tree.t Scenario.ops 10
                (Scenario.planner_of Scenario.free false false 1 100 1 0)
                (Scenario.robot_at 0 0 10) Scenario.dofs [[0]] [[5]] [] [] o E)
      as (_ & _ & _ & _ & Hm & _ & _ & Hg).
    split; [exact Hm | exact (Hg eq_refl)].
  - vm_compute in E. discriminate E.
Defined.

(** X6: The filter of lines 124-129 and 139-144 judges each candidate on its own:
    for candidates with one value per planned DOF, what is kept is what
    [filter] keeps with the collision test taken at the robot as it was
    before the loop, in the same order; the candidates tried before leave
    no trace in the verdict. *)
Theorem feasible_is_filter (w : World) (dofs : list nat) :
  forall (candidates : list VectorXd) (robot : Skeleton.t),
    Forall (fun c => length c = length dofs) candidates ->
    fst (feasible w robot dofs candidates)
    = filter (fun c => negb (checkCollision w (Skeleton.setPositions robot dofs c)))
             candidates.
Proof.
  induction candidates as [|c rest IH]; intros robot H; [reflexivity|].
  inversion H as [|? ? Hc Hrest]; subst. simpl.
  specialize (IH (Skeleton.setPositions robot dofs c) Hrest).
  destruct (feasible w (Skeleton.setPositions robot dofs c) dofs rest)
    as [kept robot'']; simpl in IH. subst kept. simpl.
  assert (E : filter (fun c0 => negb (checkCollision w
                (Skeleton.setPositions (Skeleton.setPositions robot dofs c) dofs c0)))
                rest
              = filter (fun c0 => negb (checkCollision w
                (Skeleton.setPositions robot dofs c0))) rest).
  { apply filter_ext_in. intros c0 Hin. f_equal.
    apply checkCollision_ext. apply setPositions_full.
    - rewrite Forall_forall in Hrest. apply Hrest, Hin.
    - intros i Hi. now rewrite setPositions_elsewhere. }
  rewrite E.
  destruct (checkCollision w (Skeleton.setPositions robot dofs c)); reflexivity.
Qed.

Lemma feasible_is_filter_witness :
  fst (feasible (Scenario.blocked_at [1; 3]) (Scenario.robot_at 0 0 10)
                Scenario.dofs [[1]; [2]; [3]; [4]])
  = [[2]; [4]].
Proof.
  rewrite (@feasible_is_filter (Scenario.blocked_at [1; 3]) Scenario.dofs
             [[1]; [2]; [3]; [4]] (Scenario.robot_at 0 0 10)).
  - reflexivity.
  - repeat constructor.
Defined.

(** * dart/dynamics/ShapeFrame.cpp *)

Lemma ShapePtr_eqb_eq (a b : ShapeFrame.ShapePtr) :
  ShapeFrame.ShapePtr_eqb a b = true <-> a = b.
Proof.
  destruct a as [x|], b as [y|]; simpl; split; intros H;
    try discriminate; try reflexivity.
  - apply Nat.eqb_eq in H. now subst.
  - inversion H. apply Nat.eqb_refl.
Qed.

Lemma chained_snoc (from mid to : ShapeFrame.ShapePtr) :
  forall signals,
    ShapeFrame.chained from signals mid -> mid <> to ->
    ShapeFrame.chained from (signals ++ [(mid, to)]) to.
Proof.
  intros signals; revert from.
  induction signals as [|[old new] rest IH]; intros from H Hd; simpl in *.
  - subst. auto.
  - destruct H as (H1 & H2 & H3). auto.
Qed.

Lemma setShape_chained (from shape : ShapeFrame.ShapePtr) (f : ShapeFrame.t) :
  ShapeFrame.chained from (ShapeFrame.raised f) (ShapeFrame.getShape f) ->
  ShapeFrame.chained from (ShapeFrame.raised (ShapeFrame.setShape shape f))
                     (ShapeFrame.getShape (ShapeFrame.setShape shape f)).
Proof.
  intros H. unfold ShapeFrame.setShape, ShapeFrame.getShape in *.
  destruct (ShapeFrame.ShapePtr_eqb shape (ShapeFrame.mShape (ShapeFrame.mShapeFrameP f)))
    eqn:E; simpl; auto.
  apply chained_snoc; auto. intros C.
  assert (ShapeFrame.ShapePtr_eqb shape (ShapeFrame.mShape (ShapeFrame.mShapeFrameP f)) = true)
    by (apply ShapePtr_eqb_eq; congruence).
  congruence.
Qed.

(** X7: Whatever shapes are set one after the other on a frame that has raised
    nothing yet, the signals raised lead from the shape it had to the shape
    it has: every signal carries the shape the frame held as its old shape,
    no signal is raised for a shape that is already there, and the last one
    carries [getShape()]. *)
Theorem setShape_signals_chain (shapes : list ShapeFrame.ShapePtr)
    (f : ShapeFrame.t) :
  ShapeFrame.raised f = [] ->
  let f' := fold_left (fun f shape => ShapeFrame.setShape shape f) shapes f in
  ShapeFrame.chained (ShapeFrame.getShape f) (ShapeFrame.raised f')
                     (ShapeFrame.getShape f').
Proof.
  intros Hr. simpl.
  assert (G : forall g, ShapeFrame.chained (ShapeFrame.getShape f)
                          (ShapeFrame.raised g) (ShapeFrame.getShape g) ->
              ShapeFrame.chained (ShapeFrame.getShape f)
                (ShapeFrame.raised (fold_left (fun f shape => ShapeFrame.setShape shape f) shapes g))
                (ShapeFrame.getShape (fold_left (fun f shape => ShapeFrame.setShape shape f) shapes g))).
  { induction shapes as [|s rest IH]; intros g Hg; simpl; auto.
    apply IH. apply setShape_chained. exact Hg. }
  apply G. rewrite Hr. reflexivity.
Qed.

Lemma setShape_signals_chain_witness :
  ShapeFrame.chained None
    (ShapeFrame.raised
       (fold_left (fun f shape => ShapeFrame.setShape shape f)
          [Some 1%nat; Some 1%nat; None; Some 2%nat]
          {| ShapeFrame.mShapeFrameP := ShapeFrame.UniqueProperties_new None;
             ShapeFrame.raised := [] |}))
    (Some 2%nat).
Proof.
  exact (@setShape_signals_chain [Some 1%nat; Some 1%nat; None; Some 2%nat]
           {| ShapeFrame.mShapeFrameP := ShapeFrame.UniqueProperties_new None;
              ShapeFrame.raised := [] |} eq_refl).
Defined.

(** X8: Setting a shape is idempotent and leaves the version alone: after
    [setShape(shape)] the frame holds [shape], its version is what it was
    (so [setProperties(UniqueProperties)] takes over the shape and never the
    version), and a second [setShape(shape)] changes nothing and raises
    nothing. *)
Theorem setShape_idempotent (shape : ShapeFrame.ShapePtr) (f : ShapeFrame.t)
    (properties : ShapeFrame.UniqueProperties) :
  ShapeFrame.getShape (ShapeFrame.setShape shape f) = shape /\
  ShapeFrame.getVersion (ShapeFrame.setShape shape f) = ShapeFrame.getVersion f /\
  ShapeFrame.setShape shape (ShapeFrame.setShape shape f)
  = ShapeFrame.setShape shape f /\
  ShapeFrame.getShape (ShapeFrame.setProperties properties f)
  = ShapeFrame.mShape properties /\
  ShapeFrame.getVersion (ShapeFrame.setProperties properties f)
  = ShapeFrame.getVersion f.
Proof.
  assert (A : forall s g, ShapeFrame.getShape (ShapeFrame.setShape s g) = s /\
                          ShapeFrame.getVersion (ShapeFrame.setShape s g)
                          = ShapeFrame.getVersion g).
  { intros s g. unfold ShapeFrame.setShape, ShapeFrame.getShape, ShapeFrame.getVersion.
    destruct (ShapeFrame.ShapePtr_eqb s (ShapeFrame.mShape (ShapeFrame.mShapeFrameP g)))
      eqn:E; simpl; split; auto.
    apply ShapePtr_eqb_eq in E. congruence. }
  destruct (A shape f) as [A1 A2]. repeat split; auto.
  - unfold ShapeFrame.setShape at 1.
    replace (ShapeFrame.ShapePtr_eqb shape
               (ShapeFrame.mShape (ShapeFrame.mShapeFrameP (ShapeFrame.setShape shape f))))
      with true; [reflexivity|].
    symmetry. apply ShapePtr_eqb_eq. symmetry. exact A1.
  - apply A.
  - apply A.
Qed.

Lemma incrementVersions_spec :
  forall n f,
    ShapeFrame.getVersion (ShapeFrame.incrementVersions (S n) f)
    = ((ShapeFrame.getVersion f + N.of_nat (S n)) mod 2 ^ 64)%N /\
    ShapeFrame.getShape (ShapeFrame.incrementVersions (S n) f)
    = ShapeFrame.getShape f /\
    ShapeFrame.raised (ShapeFrame.incrementVersions (S n) f)
    = ShapeFrame.raised f.
Proof.
  induction n as [|n IH]; intros f.
  - simpl. unfold ShapeFrame.getVersion; simpl. auto.
  - change (ShapeFrame.incrementVersions (S (S n)) f)
      with (ShapeFrame.incrementVersions (S n) (snd (ShapeFrame.incrementVersion f))).
    destruct (IH (snd (ShapeFrame.incrementVersion f))) as (V & S & Rr).
    rewrite V, S, Rr. repeat split; auto.
    unfold ShapeFrame.getVersion; simpl.
    rewrite N.Div0.add_mod_idemp_l. f_equal. lia.
Qed.

(** X9: The version is a counter modulo 2^64: a frame built with version 0 shows
    [n mod 2^64] after [n] calls of [incrementVersion], each call returns the
    version [getVersion()] shows right after it, and neither the shape nor
    the signal is touched. *)
Theorem incrementVersion_counts (shape : ShapeFrame.ShapePtr) (n : nat) :
  let f0 := {| ShapeFrame.mShapeFrameP := ShapeFrame.UniqueProperties_new shape;
               ShapeFrame.raised := [] |} in
  let f := ShapeFrame.incrementVersions n f0 in
  ShapeFrame.getVersion f = (N.of_nat n mod 2 ^ 64)%N /\
  ShapeFrame.getShape f = shape /\
  ShapeFrame.raised f = [] /\
  fst (ShapeFrame.incrementVersion f)
  = ShapeFrame.getVersion (snd (ShapeFrame.incrementVersion f)) /\
  ShapeFrame.getVersion (snd (ShapeFrame.incrementVersion f))
  = (N.of_nat (S n) mod 2 ^ 64)%N.
Proof.
  intros f0 f.
  assert (V : ShapeFrame.getVersion f = (N.of_nat n mod 2 ^ 64)%N /\
              ShapeFrame.getShape f = shape /\ ShapeFrame.raised f = []).
  { subst f. destruct n as [|n]; [repeat split; reflexivity|].
    destruct (incrementVersions_spec n f0) as (V & S & Rr).
    rewrite V, S, Rr. repeat split; reflexivity. }
  destruct V as (V & S & Rr). repeat split; auto.
  unfold ShapeFrame.getVersion in *; simpl. rewrite V.
  rewrite N.Div0.add_mod_idemp_l. f_equal. lia.
Qed.

(** X10: With a [getRGBA()] that reads the member [setRGBA] writes, the colour
    and the alpha of a visual aspect are set independently: [setRGB] keeps
    the alpha and tells the shape the whole new colour, [setAlpha] keeps the
    three colour channels and tells the shape the alpha only, and one after
    the other they store what [setRGBA] stores in one go.  Neither touches
    the hidden flag. *)
Theorem setRGB_setAlpha_independent
    (getRGBA : VisualAspect.t -> VisualAspect.Vector4d)
    (shape : nat) (rgb : VisualAspect.Vector3d) (alpha : Q)
    (va : VisualAspect.t) :
  (forall a, getRGBA a = VisualAspect.mRGBA (VisualAspect.mProperties a)) ->
  exists va1 va2 va3,
    VisualAspect.setRGB getRGBA (Some shape) rgb va = Some va1 /\
    VisualAspect.setAlpha (Some shape) alpha va1 = Some va2 /\
    VisualAspect.setRGBA (Some shape) (VisualAspect.set_at3
                                         (VisualAspect.set_head3 (getRGBA va) rgb)
                                         alpha) va = Some va3 /\
    VisualAspect.getRGB getRGBA va1 = rgb /\
    VisualAspect.getAlpha getRGBA va1 = VisualAspect.getAlpha getRGBA va /\
    VisualAspect.getRGB getRGBA va2 = rgb /\
    VisualAspect.getAlpha getRGBA va2 = alpha /\
    VisualAspect.mProperties va2 = VisualAspect.mProperties va3 /\
    VisualAspect.mHidden (VisualAspect.mProperties va2)
    = VisualAspect.mHidden (VisualAspect.mProperties va) /\
    VisualAspect.calls va2
    = VisualAspect.calls va
      ++ [VisualAspect.notifyPropertiesUpdate;
          VisualAspect.notifyColorUpdate shape
            (VisualAspect.set_head3 (getRGBA va) rgb);
          VisualAspect.notifyPropertiesUpdate;
          VisualAspect.notifyAlphaUpdate shape alpha].
Proof.
  intros H. unfold VisualAspect.setRGB, VisualAspect.setRGBA,
    VisualAspect.setAlpha, VisualAspect.getRGB, VisualAspect.getAlpha.
  do 3 eexists. split; [reflexivity|]. split; [reflexivity|].
  split; [reflexivity|]. rewrite !H. simpl.
  destruct (VisualAspect.mRGBA (VisualAspect.mProperties va)) as [[[r g] b] a].
  destruct rgb as [[r' g'] b']. simpl.
  repeat split; auto. now rewrite <- app_assoc.
Qed.

Lemma setRGB_setAlpha_independent_witness :
  exists va2,
    option_map VisualAspect.mProperties
      (match VisualAspect.setRGB
               (fun a => VisualAspect.mRGBA (VisualAspect.mProperties a))
               (Some 4%nat) (1, 0, 0)
               {| VisualAspect.mProperties :=
                    {| VisualAspect.mRGBA := (0, 0, 1, 3 # 10);
                       VisualAspect.mHidden := false |};
                  VisualAspect.calls := [] |} with
       | Some va1 => VisualAspect.setAlpha (Some 4%nat) (1 # 2) va1
       | None => None
       end)
    = Some va2 /\
    VisualAspect.mRGBA va2 = (1, 0, 0, 1 # 2).
Proof.
  destruct (@setRGB_setAlpha_independent
              (fun a => VisualAspect.mRGBA (VisualAspect.mProperties a))
              4%nat (1, 0, 0) (1 # 2)
              {| VisualAspect.mProperties :=
                   {| VisualAspect.mRGBA := (0, 0, 1, 3 # 10);
                      VisualAspect.mHidden := false |};
                 VisualAspect.calls := [] |} (fun a => eq_refl))
    as (va1 & va2 & va3 & E1 & E2 & E3 & _ & _ & _ & _ & P & _).
  exists (VisualAspect.mProperties va2). rewrite E1, E2. split; [reflexivity|].
  rewrite P. simpl in E3. inversion E3. reflexivity.
Defined.

(** * dart/gui/osg/examples/osgHuboPuppet.cpp *)



Lemma ADD_CONFIG_X_appends (remainder : list Q) :
  forall X configs,
    ADD_CONFIG_X X remainder configs = configs ++ [X ++ remainder].
Proof.
  induction remainder as [|x rest IH]; intros X configs; simpl.
  - now rewrite app_nil_r.
  - rewrite IH, <- app_assoc. reflexivity.
Qed.

(** X12: [ADD_CONFIG(x, remainder...)] stores one configuration more, made of its
    arguments in their order, after the configurations already stored. *)
Theorem ADD_CONFIG_appends (x : Q) (remainder : list Q)
    (configs : list VectorXd) :
  ADD_CONFIG x remainder configs = configs ++ [x :: remainder].
Proof.
  unfold ADD_CONFIG. apply ADD_CONFIG_X_appends.
Qed.

(** ** [RelaxedPosture] *)







Lemma Qsquare_nonneg (a : Q) : 0 <= a * a.
Proof.
  destruct (Qlt_le_dec a 0) as [H|H].
  - setoid_replace (a * a) with ((- a) * (- a)) by ring.
    apply Qmult_le_0_compat; lra.
  - apply Qmult_le_0_compat; assumption.
Qed.

Lemma dot_self_nonneg (r : VectorXd) : 0 <= RelaxedPosture.dot r r.
Proof.
  induction r as [|a r IH]; simpl; [apply Qle_refl|].
  pose proof (Qsquare_nonneg a). lra.
Qed.

Lemma relaxed_posture_cost_nonneg (x : VectorXd) (self : RelaxedPosture.t)
    (cost : Q) (self' : RelaxedPosture.t) :
  RelaxedPosture.eval x self = Some (cost, self') ->
  0 <= cost.
Proof.
  unfold RelaxedPosture.eval.
  destruct (RelaxedPosture.computeResultVector x self) as [s|]; [|discriminate].
  intros H; inversion H; subst.
  pose proof (dot_self_nonneg (RelaxedPosture.mResultVector self')). lra.
Qed.


Section Relaxed.

Variable self : RelaxedPosture.t.
Hypothesis Ll : length (RelaxedPosture.mLower self) = length (RelaxedPosture.mIdeal self).
Hypothesis Lu : length (RelaxedPosture.mUpper self) = length (RelaxedPosture.mIdeal self).
Hypothesis Lw : length (RelaxedPosture.mWeights self) = length (RelaxedPosture.mIdeal self).


Hypothesis Wnz : Forall (fun w => ~ w == 0) (RelaxedPosture.mWeights self).


End Relaxed.









Section Enforced.

Variable self : RelaxedPosture.t.
Hypothesis Lw : length (RelaxedPosture.mWeights self) = length (RelaxedPosture.mIdeal self).



Hypothesis Wnz : Forall (fun w => ~ w == 0) (RelaxedPosture.mWeights self).


End Enforced.



(** ** [InputHandler] *)

Lemma store_length (A : Type) (x : A) :
  forall v i, length (InputHandler.store i x v) = length v.
Proof.
  induction v as [|y v IH]; intros [|i]; simpl; auto.
Qed.

Lemma store_same (A : Type) (x : A) :
  forall v i, (i < length v)%nat -> nth_error (InputHandler.store i x v) i = Some x.
Proof.
  induction v as [|y v IH]; intros [|i] H; simpl in *; try lia; auto.
  apply IH. lia.
Qed.

Lemma store_other (A : Type) (x : A) :
  forall v i j, j <> i -> nth_error (InputHandler.store i x v) j = nth_error v j.
Proof.
  induction v as [|y v IH]; intros [|i] [|j] H; simpl; auto; try congruence.
Qed.

Lemma store_map (A B : Type) (f : A -> B) (x y : A) :
  forall v i, nth_error v i = Some y -> f x = f y ->
    map f (InputHandler.store i x v) = map f v.
Proof.
  induction v as [|z v IH]; intros [|i] H E; simpl in *; try discriminate.
  - inversion H; subst. now rewrite E.
  - f_equal. now apply IH.
Qed.

Lemma store_Forall (A : Type) (P : A -> Prop) (x : A) :
  forall v i, P x -> Forall P v -> Forall P (InputHandler.store i x v).
Proof.
  induction v as [|z v IH]; intros [|i] Px F; simpl; auto;
    inversion F; subst; constructor; auto.
Qed.

Lemma erase_length (A : Type) :
  forall (v : list A) i, (i < length v)%nat ->
    S (length (InputHandler.erase i v)) = length v.
Proof.
  induction v as [|y v IH]; intros [|i] H; simpl in *; try lia.
  rewrite IH; lia.
Qed.

Lemma erase_Forall (A : Type) (P : A -> Prop) :
  forall v i, Forall P v -> Forall P (InputHandler.erase i v).
Proof.
  induction v as [|z v IH]; intros [|i] F; simpl; auto;
    inversion F; subst; auto.
Qed.

Lemma erase_map (A B : Type) (f : A -> B) :
  forall v i, map f (InputHandler.erase i v) = InputHandler.erase i (map f v).
Proof.
  induction v as [|z v IH]; intros [|i]; simpl; auto. now rewrite IH.
Qed.

Lemma setColor_made (c : VisualAspect.Vector4d) (b : InputHandler.Box) :
  InputHandler.made b ->
  exists b', InputHandler.setColor c b = Some b' /\
             InputHandler.made b' /\
             InputHandler.left b' = InputHandler.left b /\
             InputHandler.name b' = InputHandler.name b /\
             InputHandler.rgba b' = Some c.
Proof.
  unfold InputHandler.made, InputHandler.setColor, InputHandler.rgba.
  intros [Hs Hv].
  destruct (InputHandler.visual b) as [va|]; [|congruence].
  destruct (InputHandler.shape b) as [sh|] eqn:S; [|congruence].
  simpl. eexists. split; [reflexivity|]. simpl.
  repeat split; congruence.
Qed.

Section HandlerFacts.

Variable LeftColor RightColor : VisualAspect.Vector4d.
Variable createVisualAspect : VisualAspect.t.
Variable Skeleton : Type.
Variable getPositions : Skeleton -> VectorXd.
Variable setPositions : VectorXd -> Skeleton -> Skeleton.

Lemma colorBySide_made (bs : list InputHandler.Box) :
  Forall InputHandler.made bs ->
  exists bs',
    InputHandler.colorBySide LeftColor RightColor bs = Some bs' /\
    length bs' = length bs /\
    Forall InputHandler.made bs' /\
    map InputHandler.left bs' = map InputHandler.left bs /\
    map InputHandler.name bs' = map InputHandler.name bs /\
    forall i b, nth_error bs' i = Some b ->
      InputHandler.rgba b
      = Some (if InputHandler.left b then LeftColor else RightColor).
Proof.
  induction 1 as [|b bs Hb _ IH]; simpl.
  - exists []. repeat split; auto. intros [|i] b H; discriminate H.
  - destruct (@setColor_made
                (if InputHandler.left b then LeftColor else RightColor) b Hb)
      as (b' & E & M & L & N & C).
    destruct IH as (bs' & E' & Len & F & ML & MN & Col).
    rewrite E, E'. exists (b' :: bs'). simpl.
    split; [reflexivity|]. split; [congruence|]. split; [constructor; auto|].
    split; [congruence|]. split; [congruence|].
    intros [|i] x H; simpl in H.
    + inversion H; subst x. rewrite L. exact C.
    + eapply Col; eauto.
Qed.



Lemma selectBox_settles (s : InputHandler.t Skeleton) :
  Forall InputHandler.made (InputHandler.boxes s) ->
  (-1 <= InputHandler.mSelectedBox s < InputHandler.size (InputHandler.boxes s))%Z ->
  (InputHandler.size (InputHandler.boxes s) <= InputHandler.int_max)%Z ->
  (1 <= InputHandler.mLighting s <= 8)%Z ->
  Forall (fun l => 1 <= l <= 8)%Z (InputHandler.lights s) ->
  length (InputHandler.mMoveComponents s) = TeleoperationWorld.NUM_MOVE ->
  exists s',
    InputHandler.selectBox LeftColor RightColor s = Some s' /\
    InputHandler.settled LeftColor RightColor s' /\
    InputHandler.same_but_boxes s s'.
Proof.
  intros M R B L Ls Mv. unfold InputHandler.selectBox.
  destruct (colorBySide_made M) as (bs & E & Len & F & ML & MN & Col).
  rewrite E.
  destruct (0 <=? InputHandler.mSelectedBox s)%Z eqn:Z.
  - apply Z.leb_le in Z.
    assert (T : InputHandler.to_size_t (InputHandler.mSelectedBox s)
                = InputHandler.mSelectedBox s).
    { unfold InputHandler.to_size_t. apply Z.mod_small.
      unfold InputHandler.int_max in B. lia. }
    rewrite T.
    assert (I : (Z.to_nat (InputHandler.mSelectedBox s) < length bs)%nat).
    { unfold InputHandler.size in R. lia. }
    destruct (nth_error bs (Z.to_nat (InputHandler.mSelectedBox s))) as [b|] eqn:N.
    2:{ apply nth_error_None in N. lia. }
    assert (Mb : InputHandler.made b).
    { rewrite Forall_forall in F. apply F. eapply nth_error_In; eauto. }
    destruct (@setColor_made InputHandler.SelectedColor b Mb)
      as (b' & Eb & Mb' & Lb & Nb & Cb).
    rewrite Eb. eexists. split; [reflexivity|]. split.
    + constructor; simpl.
      * unfold InputHandler.size in *. rewrite store_length. lia.
      * destruct (0 <=? InputHandler.mSelectedBox s)%Z eqn:Z'; [reflexivity|].
        apply Z.leb_gt in Z'. lia.
      * reflexivity.
      * apply store_Forall; assumption.
      * intros i x H.
        destruct (Nat.eq_dec i (Z.to_nat (InputHandler.mSelectedBox s))) as [->|D].
        -- rewrite store_same in H by exact I. inversion H; subst x.
           rewrite Z2Nat.id by exact Z. rewrite Z.eqb_refl. exact Cb.
        -- rewrite store_other in H by exact D.
           replace (Z.of_nat i =? InputHandler.mSelectedBox s)%Z with false
             by (symmetry; apply Z.eqb_neq; lia).
           eapply Col; eauto.
      * exact L.
      * exact Ls.
      * exact Mv.
    + unfold InputHandler.same_but_boxes. simpl.
      repeat (split; [reflexivity|]).
      rewrite (@store_map _ _ InputHandler.left b' b bs _ N Lb),
        (@store_map _ _ InputHandler.name b' b bs _ N Nb).
      split; [assumption|]. split; [assumption|]. repeat split; reflexivity.
  - apply Z.leb_gt in Z. eexists. split; [reflexivity|]. split.
    + constructor; simpl.
      * unfold InputHandler.size in *. lia.
      * destruct (0 <=? InputHandler.mSelectedBox s)%Z eqn:Z';
          [apply Z.leb_le in Z'; lia|reflexivity].
      * reflexivity.
      * exact F.
      * intros i x H.
        replace (Z.of_nat i =? InputHandler.mSelectedBox s)%Z with false
          by (symmetry; apply Z.eqb_neq; lia).
        eapply Col; eauto.
      * exact L.
      * exact Ls.
      * exact Mv.
    + unfold InputHandler.same_but_boxes. simpl.
      repeat (split; [reflexivity|]).
      split; [assumption|]. split; [assumption|]. repeat split; reflexivity.
Qed.

Lemma to_size_t_small (z : Z) :
  (0 <= z < 2 ^ 64)%Z -> InputHandler.to_size_t z = z.
Proof. intros H. unfold InputHandler.to_size_t. apply Z.mod_small. exact H. Qed.

Lemma to_int_small (z : Z) :
  (- 2 ^ 31 <= z < 2 ^ 31)%Z -> InputHandler.to_int z = z.
Proof.
  intros H. unfold InputHandler.to_int. rewrite Z.mod_small; lia.
Qed.

Lemma last_index (n : Z) :
  (0 <= n <= InputHandler.int_max)%Z ->
  InputHandler.to_int (InputHandler.to_size_t (n - 1)) = (n - 1)%Z.
Proof.
  unfold InputHandler.int_max. intros H.
  destruct (Z.eq_dec n 0) as [->|D]; [reflexivity|].
  rewrite to_size_t_small by lia. apply to_int_small. lia.
Qed.

Lemma settled_ext (s s' : InputHandler.t Skeleton) :
  InputHandler.mSelectedBox s' = InputHandler.mSelectedBox s ->
  InputHandler.boxes s' = InputHandler.boxes s ->
  InputHandler.currentBox s' = InputHandler.currentBox s ->
  InputHandler.currentDnD s' = InputHandler.currentDnD s ->
  InputHandler.mLighting s' = InputHandler.mLighting s ->
  InputHandler.lights s' = InputHandler.lights s ->
  length (InputHandler.mMoveComponents s')
  = length (InputHandler.mMoveComponents s) ->
  InputHandler.settled LeftColor RightColor s ->
  InputHandler.settled LeftColor RightColor s'.
Proof.
  intros E1 E2 E3 E4 E5 E6 E7 [H1 H2 H3 H4 H5 H6 H7 H8].
  constructor; rewrite ?E1, ?E2, ?E3, ?E4, ?E5, ?E6, ?E7; assumption.
Qed.


Lemma size_nil (A : Type) (v : list A) :
  InputHandler.size v = 0%Z -> v = [].
Proof. destruct v; [reflexivity|]. unfold InputHandler.size. simpl. lia. Qed.

Lemma selectNextBox_settles (s : InputHandler.t Skeleton) :
  InputHandler.settled LeftColor RightColor s ->
  (InputHandler.size (InputHandler.boxes s) <= InputHandler.int_max)%Z ->
  exists s',
    InputHandler.selectNextBox LeftColor RightColor s = Some s' /\
    InputHandler.settled LeftColor RightColor s' /\
    InputHandler.same_but_boxes
      (InputHandler.with_selected
         (if (InputHandler.mSelectedBox s + 1
              =? InputHandler.size (InputHandler.boxes s))%Z
          then (if (InputHandler.size (InputHandler.boxes s) =? 0)%Z
                then -1 else 0)%Z
          else (InputHandler.mSelectedBox s + 1)%Z) s) s'.
Proof.
  intros [R C D M Col L Ls Mv] B. unfold InputHandler.selectNextBox, InputHandler.incr.
  pose proof B as B'. unfold InputHandler.int_max in B'.
  replace (InputHandler.mSelectedBox s <? InputHandler.int_max)%Z with true
    by (symmetry; apply Z.ltb_lt; lia).
  rewrite to_size_t_small by lia.
  destruct (InputHandler.mSelectedBox s + 1
            =? InputHandler.size (InputHandler.boxes s))%Z eqn:E.
  - apply Z.eqb_eq in E.
    replace (InputHandler.size (InputHandler.boxes s)
             <=? InputHandler.mSelectedBox s + 1)%Z with true
      by (symmetry; apply Z.leb_le; lia).
    destruct (InputHandler.size (InputHandler.boxes s) =? 0)%Z eqn:E0.
    + apply Z.eqb_eq in E0. rewrite (size_nil _ E0).
      apply selectBox_settles; simpl; auto; try lia.
    + apply Z.eqb_neq in E0.
      destruct (InputHandler.boxes s) as [|b bs] eqn:Eb.
      { unfold InputHandler.size in E0. simpl in E0. lia. }
      rewrite <- Eb in *.
      apply selectBox_settles; simpl; auto; try lia.
  - apply Z.eqb_neq in E.
    replace (InputHandler.size (InputHandler.boxes s)
             <=? InputHandler.mSelectedBox s + 1)%Z with false
      by (symmetry; apply Z.leb_gt; lia).
    apply selectBox_settles; simpl; auto; try lia.
Qed.

Lemma selectPrevBox_settles (s : InputHandler.t Skeleton) :
  InputHandler.settled LeftColor RightColor s ->
  (InputHandler.size (InputHandler.boxes s) <= InputHandler.int_max)%Z ->
  exists s',
    InputHandler.selectPrevBox LeftColor RightColor s = Some s' /\
    InputHandler.settled LeftColor RightColor s' /\
    InputHandler.same_but_boxes
      (InputHandler.with_selected
         (if (InputHandler.mSelectedBox s <=? 0)%Z
          then (InputHandler.size (InputHandler.boxes s) - 1)%Z
          else (InputHandler.mSelectedBox s - 1)%Z) s) s'.
Proof.
  intros [R C D M Col L Ls Mv] B. unfold InputHandler.selectPrevBox, InputHandler.decr.
  pose proof B as B'. unfold InputHandler.int_max in B'.
  assert (S0 : (0 <= InputHandler.size (InputHandler.boxes s))%Z)
    by (unfold InputHandler.size; lia).
  replace (InputHandler.int_min <? InputHandler.mSelectedBox s)%Z with true
    by (symmetry; apply Z.ltb_lt; unfold InputHandler.int_min; lia).
  rewrite last_index by lia.
  destruct (InputHandler.mSelectedBox s <=? 0)%Z eqn:E.
  - apply Z.leb_le in E.
    replace (InputHandler.mSelectedBox s - 1 <? 0)%Z with true
      by (symmetry; apply Z.ltb_lt; lia).
    apply selectBox_settles; simpl; auto; try lia.
  - apply Z.leb_gt in E.
    replace (InputHandler.mSelectedBox s - 1 <? 0)%Z with false
      by (symmetry; apply Z.ltb_ge; lia).
    apply selectBox_settles; simpl; auto; try lia.
Qed.

Ltac ih_fields :=
  cbn [InputHandler.boxes InputHandler.mSelectedBox InputHandler.mLighting
       InputHandler.lights InputHandler.mMoveComponents
       InputHandler.with_selected InputHandler.with_boxes
       InputHandler.with_numBoxes].

Lemma createBox_settles (s : InputHandler.t Skeleton) :
  InputHandler.settled LeftColor RightColor s ->
  (InputHandler.size (InputHandler.boxes s) < InputHandler.int_max)%Z ->
  InputHandler.mHubo s <> None ->
  exists s',
    InputHandler.createBox LeftColor RightColor createVisualAspect s = Some s' /\
    InputHandler.settled LeftColor RightColor s' /\
    InputHandler.mSelectedBox s' = InputHandler.size (InputHandler.boxes s) /\
    map InputHandler.name (InputHandler.boxes s')
    = map InputHandler.name (InputHandler.boxes s) ++ [InputHandler.numBoxes s] /\
    map InputHandler.left (InputHandler.boxes s')
    = map InputHandler.left (InputHandler.boxes s) ++ [true] /\
    InputHandler.mHubo s' = InputHandler.mHubo s.
Proof.
  intros [R C D M Col L Ls Mv] B H. unfold InputHandler.createBox.
  destruct (InputHandler.mHubo s) as [hubo|] eqn:Hh; [|congruence].
  set (box := {| InputHandler.left := true;
                 InputHandler.name := InputHandler.numBoxes s;
                 InputHandler.shape := Some (Z.to_nat (InputHandler.numBoxes s));
                 InputHandler.visual := Some createVisualAspect |}).
  assert (Sz : InputHandler.size (InputHandler.boxes s ++ [box])
               = (InputHandler.size (InputHandler.boxes s) + 1)%Z).
  { unfold InputHandler.size. rewrite length_app. simpl. lia. }
  assert (S0 : (0 <= InputHandler.size (InputHandler.boxes s))%Z)
    by (unfold InputHandler.size; lia).
  rewrite last_index by (rewrite Sz; lia). rewrite Sz.
  replace (InputHandler.size (InputHandler.boxes s) + 1 - 1)%Z
    with (InputHandler.size (InputHandler.boxes s)) by lia.
  match goal with
  | |- exists s', InputHandler.selectBox _ _ ?st = _ /\ _ =>
      destruct (@selectBox_settles st) as (s' & E & St & Sm)
  end; ih_fields; auto; try lia.
  - apply Forall_app. split; [exact M|]. constructor; [|constructor].
    split; simpl; discriminate.
  - exists s'. split; [exact E|]. split; [exact St|].
    destruct Sm as (S1 & _ & _ & S4 & _ & _ & _ & S8 & S9 & _). simpl in *.
    rewrite S4, S8, S9, !map_app. simpl. repeat split; auto. congruence.
Qed.

Lemma ADD_BOX_settles (l : Z) (flip : bool) (s : InputHandler.t Skeleton) :
  InputHandler.settled LeftColor RightColor s ->
  (InputHandler.size (InputHandler.boxes s) < InputHandler.int_max)%Z ->
  InputHandler.mHubo s <> None ->
  exists s',
    InputHandler.ADD_BOX LeftColor RightColor createVisualAspect l flip s = Some s' /\
    InputHandler.settled LeftColor RightColor s' /\
    InputHandler.mSelectedBox s' = InputHandler.size (InputHandler.boxes s) /\
    map InputHandler.left (InputHandler.boxes s')
    = map InputHandler.left (InputHandler.boxes s)
      ++ [xorb (negb (l =? 0)%Z) flip] /\
    InputHandler.mHubo s' = InputHandler.mHubo s.
Proof.
  intros St B H. unfold InputHandler.ADD_BOX.
  destruct (createBox_settles St B H) as (s1 & E & [R C D M Col L Ls Mv] & Sel & _ & Lf & Hu).
  rewrite E.
  assert (Len : length (InputHandler.boxes s1)
                = S (length (InputHandler.boxes s))).
  { rewrite <- (length_map InputHandler.left), Lf, length_app, length_map.
    simpl. lia. }
  assert (I : (length (InputHandler.boxes s1) - 1 < length (InputHandler.boxes s1))%nat)
    by lia.
  destruct (nth_error (InputHandler.boxes s1) (length (InputHandler.boxes s1) - 1))
    as [box|] eqn:N.
  2:{ apply nth_error_None in N. lia. }
  assert (Mb : InputHandler.made box).
  { rewrite Forall_forall in M. apply M. eapply nth_error_In; eauto. }
  match goal with
  | |- exists s', InputHandler.selectBox _ _ ?st = _ /\ _ =>
      destruct (@selectBox_settles st) as (s' & E' & St' & Sm)
  end; ih_fields; auto.
  - apply store_Forall; [|exact M]. destruct Mb as [Ms Mvis]. split; simpl; assumption.
  - unfold InputHandler.size in *. rewrite store_length. lia.
  - unfold InputHandler.size in *. rewrite store_length. lia.
  - exists s'. split; [exact E'|]. split; [exact St'|].
    destruct Sm as (S1 & _ & _ & S4 & _ & _ & _ & S8 & S9 & _). simpl in *.
    rewrite S4, S8, S1. split; [exact Sel|]. split; [|exact Hu].
    clear - N Lf Len.
    revert N Lf Len. generalize (InputHandler.boxes s1) as v.
    generalize (map InputHandler.left (InputHandler.boxes s)) as u.
    generalize (length (InputHandler.boxes s)) as n.
    intros n u v N Lf Len.
    assert (Lu : length u = n).
    { apply (f_equal (@length bool)) in Lf.
      rewrite length_map, length_app in Lf. simpl in Lf. lia. }
    subst n. rewrite Len in *. clear Len.
    replace (S (length u) - 1)%nat with (length u) in * by lia.
    revert v N Lf. induction u as [|a u IH]; intros [|b v] N Lf;
      simpl in *; try discriminate.
    + destruct v; [|discriminate]. simpl. f_equal.
      destruct l; destruct flip; reflexivity.
    + inversion Lf; subst. f_equal. apply IH; assumption.
Qed.

Lemma firstn_skipn_snoc (A : Type) (u : list A) (x : A) (i n : nat) :
  (S i + n <= length u)%nat ->
  firstn n (skipn (S i) (u ++ [x])) = firstn n (skipn (S i) u).
Proof.
  intros H. rewrite skipn_app, firstn_app.
  replace (n - length (skipn (S i) u))%nat with 0%nat
    by (rewrite length_skipn; lia).
  rewrite firstn_0, app_nil_r. reflexivity.
Qed.

Lemma flipLoop_settles :
  forall n i (s : InputHandler.t Skeleton),
    InputHandler.settled LeftColor RightColor s ->
    (InputHandler.size (InputHandler.boxes s) + Z.of_nat n
     <= InputHandler.int_max)%Z ->
    InputHandler.mHubo s <> None ->
    (i + n <= length (InputHandler.boxes s))%nat ->
    exists s',
      InputHandler.flipLoop LeftColor RightColor createVisualAspect i n s = Some s' /\
      InputHandler.settled LeftColor RightColor s' /\
      map InputHandler.left (InputHandler.boxes s')
      = map InputHandler.left (InputHandler.boxes s)
        ++ map negb (firstn n (skipn i (map InputHandler.left (InputHandler.boxes s)))) /\
      InputHandler.mSelectedBox s'
      = (if (n =? 0)%nat then InputHandler.mSelectedBox s
         else InputHandler.size (InputHandler.boxes s) + Z.of_nat n - 1)%Z.
Proof.
  induction n as [|n IH]; intros i s St B H I; simpl.
  - exists s. rewrite app_nil_r. auto.
  - destruct (nth_error (InputHandler.boxes s) i) as [box|] eqn:N.
    2:{ apply nth_error_None in N. lia. }
    unfold InputHandler.flipBox.
    assert (Mb : InputHandler.made box).
    { destruct St as [_ _ _ M _ _ _ _]. rewrite Forall_forall in M. apply M.
      eapply nth_error_In; eauto. }
    destruct (InputHandler.shape box) as [sh|] eqn:Sh.
    2:{ destruct Mb as [Ms _]. congruence. }
    destruct (@ADD_BOX_settles (if InputHandler.left box then 1 else 0)%Z true s St
                ltac:(lia) H) as (s1 & E & St1 & Sel1 & Lf1 & Hu1).
    rewrite E.
    assert (Len1 : length (InputHandler.boxes s1)
                   = S (length (InputHandler.boxes s))).
    { rewrite <- (length_map InputHandler.left), Lf1, length_app, length_map.
      simpl. lia. }
    destruct (IH (S i) s1 St1) as (s' & E' & St' & Lf' & Sel').
    + unfold InputHandler.size in *. lia.
    + congruence.
    + lia.
    + exists s'. split; [exact E'|]. split; [exact St'|]. split.
      * rewrite Lf', Lf1.
        assert (Nl : nth_error (map InputHandler.left (InputHandler.boxes s)) i
                     = Some (InputHandler.left box))
          by (rewrite nth_error_map, N; reflexivity).
        assert (Il : (i + S n <= length (map InputHandler.left (InputHandler.boxes s)))%nat)
          by (rewrite length_map; lia).
        revert Nl Il. generalize (map InputHandler.left (InputHandler.boxes s)) as u.
        intros u Nl Il.
        assert (X : xorb (negb ((if InputHandler.left box then 1 else 0) =? 0)%Z) true
                    = negb (InputHandler.left box))
          by (destruct (InputHandler.left box); reflexivity).
        rewrite X.
        assert (Sk : skipn i u = InputHandler.left box :: skipn (S i) u).
        { clear - Nl. revert i Nl. induction u as [|a u IHu]; intros [|i] Nl;
            simpl in *; try discriminate.
          - inversion Nl; reflexivity.
          - apply IHu. exact Nl. }
        rewrite (@firstn_skipn_snoc _ u (negb (InputHandler.left box)) i n) by lia.
        rewrite Sk. simpl. rewrite <- app_assoc. reflexivity.
      * rewrite Sel'. destruct (n =? 0)%nat eqn:En.
        -- apply Nat.eqb_eq in En. subst n. rewrite Sel1. lia.
        -- unfold InputHandler.size in *. rewrite Len1. lia.
Qed.

Lemma delete_spec (s : InputHandler.t Skeleton) :
  InputHandler.settled LeftColor RightColor s ->
  (InputHandler.size (InputHandler.boxes s) <= InputHandler.int_max)%Z ->
  InputHandler.mHubo s <> None ->
  (0 <= InputHandler.mSelectedBox s)%Z ->
  exists s',
    InputHandler.handle LeftColor RightColor createVisualAspect
                        getPositions setPositions InputHandler.KEYDOWN InputHandler.KEY_Delete s
    = Some (false, s') /\
    InputHandler.settled LeftColor RightColor s' /\
    InputHandler.mSelectedBox s' = (InputHandler.mSelectedBox s - 1)%Z /\
    map InputHandler.name (InputHandler.boxes s')
    = InputHandler.erase (Z.to_nat (InputHandler.mSelectedBox s))
                         (map InputHandler.name (InputHandler.boxes s)) /\
    map InputHandler.left (InputHandler.boxes s')
    = InputHandler.erase (Z.to_nat (InputHandler.mSelectedBox s))
                         (map InputHandler.left (InputHandler.boxes s)).
Proof.
  intros [R C D M Col L Ls Mv] B H Z. unfold InputHandler.handle.
  destruct (InputHandler.mHubo s) as [hubo|]; [|congruence].
  replace (InputHandler.mSelectedBox s <? 0)%Z with false
    by (symmetry; apply Z.ltb_ge; lia).
  destruct (InputHandler.boxes s) as [|b0 bs0] eqn:Eb.
  { unfold InputHandler.size in R. simpl in R. lia. }
  rewrite <- Eb in *. clear Eb b0 bs0.
  replace (0 <=? InputHandler.mSelectedBox s)%Z with true in C
    by (symmetry; apply Z.leb_le; lia).
  rewrite C.
  replace (InputHandler.size (InputHandler.boxes s)
           <=? InputHandler.mSelectedBox s)%Z with false
    by (symmetry; apply Z.leb_gt; lia).
  unfold InputHandler.decr.
  replace (InputHandler.int_min <? InputHandler.mSelectedBox s)%Z with true
    by (symmetry; apply Z.ltb_lt; unfold InputHandler.int_min; lia).
  assert (I : (Z.to_nat (InputHandler.mSelectedBox s)
               < length (InputHandler.boxes s))%nat)
    by (unfold InputHandler.size in R; lia).
  pose proof (erase_length _ I) as El.
  match goal with
  | |- exists s', match InputHandler.selectBox _ _ ?st with _ => _ end = _ /\ _ =>
      destruct (@selectBox_settles st) as (s' & E & St & Sm)
  end; ih_fields; auto.
  - apply erase_Forall. exact M.
  - unfold InputHandler.size in *. lia.
  - unfold InputHandler.size in *. lia.
  - rewrite E. exists s'. split; [reflexivity|]. split; [exact St|].
    destruct Sm as (_ & _ & _ & S4 & _ & _ & _ & S8 & S9 & _). simpl in *.
    rewrite S4, S8, S9, !erase_map. auto.
Qed.

Lemma move_settled (m : TeleoperationWorld.MoveEnum_t) (down : bool)
    (s : InputHandler.t Skeleton) :
  InputHandler.settled LeftColor RightColor s ->
  exists s',
    InputHandler.move m down s = Some (true, s') /\
    InputHandler.settled LeftColor RightColor s' /\
    InputHandler.mMoveComponents s'
    = InputHandler.store (TeleoperationWorld.index m) down
                         (InputHandler.mMoveComponents s) /\
    TeleoperationWorld.mMoveComponents (InputHandler.mTeleop s')
    = InputHandler.mMoveComponents s' /\
    TeleoperationWorld.mAnyMovement (InputHandler.mTeleop s')
    = TeleoperationWorld.anyLoop (InputHandler.mMoveComponents s') /\
    TeleoperationWorld.mAmplifyMovement (InputHandler.mTeleop s')
    = TeleoperationWorld.mAmplifyMovement (InputHandler.mTeleop s) /\
    InputHandler.mHubo s' = InputHandler.mHubo s /\
    InputHandler.mOptimizationKey s' = InputHandler.mOptimizationKey s.
Proof.
  intros St. unfold InputHandler.move.
  pose proof (InputHandler.settled_moves St) as Mv.
  replace (TeleoperationWorld.index m <? length (InputHandler.mMoveComponents s))%nat
    with true
    by (symmetry; apply Nat.ltb_lt; rewrite Mv; destruct m; simpl;
        unfold TeleoperationWorld.NUM_MOVE; lia).
  eexists. split; [reflexivity|]. split.
  - eapply settled_ext; [| | | | | | |exact St]; try reflexivity.
    simpl. apply store_length.
  - simpl. repeat split; reflexivity.
Qed.

Lemma handle_defined_settled (type : InputHandler.EventType)
    (key : InputHandler.Key) (s : InputHandler.t Skeleton) :
  InputHandler.settled LeftColor RightColor s ->
  (2 * InputHandler.size (InputHandler.boxes s) < InputHandler.int_max)%Z ->
  (type, key) <> (InputHandler.KEYDOWN, InputHandler.key_h) ->
  (type, key) <> (InputHandler.KEYDOWN, InputHandler.key_H) ->
  exists consumed s',
    InputHandler.handle LeftColor RightColor createVisualAspect
                        getPositions setPositions type key s
    = Some (consumed, s') /\
    InputHandler.settled LeftColor RightColor s'.
Proof.
  intros St B Kh KH.
  assert (S0 : (0 <= InputHandler.size (InputHandler.boxes s))%Z)
    by (unfold InputHandler.size; lia).
  destruct (InputHandler.mHubo s) as [hubo|] eqn:Hh.
  2:{ exists false, s. unfold InputHandler.handle. rewrite Hh. auto. }
  assert (Hn : InputHandler.mHubo s <> None) by congruence.
  destruct type.
  - destruct key; try congruence.
    + (* KEY_Right *)
      unfold InputHandler.handle. rewrite Hh. do 2 eexists. split; [reflexivity|].
      destruct St as [R C D M Col L Ls Mv].
      rewrite to_size_t_small by lia.
      constructor; simpl; auto.
      * destruct (8 <? InputHandler.mLighting s + 1)%Z eqn:E;
          [lia|apply Z.ltb_ge in E; lia].
      * apply Forall_app. split; [exact Ls|]. constructor; [|constructor].
        destruct (8 <? InputHandler.mLighting s + 1)%Z eqn:E;
          [lia|apply Z.ltb_ge in E; lia].
    + (* KEY_Left *)
      unfold InputHandler.handle. rewrite Hh. do 2 eexists. split; [reflexivity|].
      destruct St as [R C D M Col L Ls Mv].
      rewrite to_size_t_small by lia.
      constructor; simpl; auto.
      * destruct (InputHandler.mLighting s - 1 =? 0)%Z eqn:E;
          [lia|apply Z.eqb_neq in E; lia].
      * apply Forall_app. split; [exact Ls|]. constructor; [|constructor].
        destruct (InputHandler.mLighting s - 1 =? 0)%Z eqn:E;
          [lia|apply Z.eqb_neq in E; lia].
    + (* KEY_Up *)
      destruct (@selectNextBox_settles s St ltac:(lia)) as (s' & E & St' & _).
      exists true, s'. unfold InputHandler.handle. rewrite Hh, E. auto.
    + (* KEY_Down *)
      destruct (@selectPrevBox_settles s St ltac:(lia)) as (s' & E & St' & _).
      exists true, s'. unfold InputHandler.handle. rewrite Hh, E. auto.
    + (* KEY_BackSpace *)
      destruct St as [R C D M Col L Ls Mv].
      destruct (@selectBox_settles (InputHandler.with_selected (-1) s))
        as (s' & E & St' & _); ih_fields; auto; try lia.
      exists true, s'. unfold InputHandler.handle. rewrite Hh, E. auto.
    + (* KEY_Delete *)
      destruct (InputHandler.mSelectedBox s <? 0)%Z eqn:E.
      * exists true, s. unfold InputHandler.handle. rewrite Hh, E. auto.
      * apply Z.ltb_ge in E.
        destruct (@delete_spec s St ltac:(lia) Hn E) as (s' & E' & St' & _).
        exists false, s'. auto.
    + (* KEY_Shift_L *)
      unfold InputHandler.handle. rewrite Hh. do 2 eexists. split; [reflexivity|].
      eapply settled_ext; [| | | | | | |exact St]; reflexivity.
    + (* u *)
      unfold InputHandler.handle. rewrite Hh. do 2 eexists. split; [reflexivity|].
      eapply settled_ext; [| | | | | | |exact St]; reflexivity.
    + (* U *)
      unfold InputHandler.handle. rewrite Hh. do 2 eexists. split; [reflexivity|].
      eapply settled_ext; [| | | | | | |exact St]; reflexivity.
    + (* m *)
      destruct (@createBox_settles s St ltac:(lia) Hn) as (s' & E & St' & _).
      exists true, s'. unfold InputHandler.handle. rewrite Hh, E. auto.
    + (* n *)
      destruct (@flipLoop_settles (length (InputHandler.boxes s)) 0%nat s St)
        as (s' & E & St' & _); auto.
      { unfold InputHandler.size in *. lia. }
      exists true, s'. unfold InputHandler.handle. rewrite Hh, E. auto.
    + (* a letter that moves the robot *)
      destruct (@move_settled m true s St) as (s' & E & St' & _).
      exists true, s'. unfold InputHandler.handle. rewrite Hh, E. auto.
  - unfold InputHandler.handle. rewrite Hh.
    destruct (InputHandler.isOptimizationKey key s).
    + do 2 eexists. split; [reflexivity|].
      eapply settled_ext; [| | | | | | |exact St]; reflexivity.
    + destruct key;
        try (exists false, s; split; [reflexivity|exact St]).
      * do 2 eexists. split; [reflexivity|].
        eapply settled_ext; [| | | | | | |exact St]; reflexivity.
      * destruct (@move_settled m false s St) as (s' & E & St' & _).
        exists true, s'. rewrite E. auto.
Qed.

Lemma load_settled (c : Z) (hubo : Skeleton) (s : InputHandler.t Skeleton)
    (r : bool * InputHandler.t Skeleton) :
  InputHandler.settled LeftColor RightColor s ->
  InputHandler.load setPositions c hubo s = Some r ->
  InputHandler.settled LeftColor RightColor (snd r).
Proof.
  intros St. unfold InputHandler.load.
  destruct (InputHandler.at_ (InputHandler.configs s) c); [|discriminate].
  intros E; inversion E; subst r. simpl.
  eapply settled_ext; [| | | | | | |exact St]; reflexivity.
Qed.

(** X15: [handle] keeps the members in order. Between two events the selection
    is none or a box of [boxes], [currentBox] and [currentDnD] are that
    box, every box has the colour of its side and the selected one
    [SelectedColor], the lighting is between 1 and 8, as is every value
    told to the viewer, and there is one component for each movement.
    Whatever key of those followed is pressed or released in such a state,
    with fewer than 2^30 boxes, the state it leaves is such a state again;
    and every event but the press of [h] and of [H] is handled without an
    index out of range or an overflow. *)
Theorem handle_keeps_settled (type : InputHandler.EventType)
    (key : InputHandler.Key) (s : InputHandler.t Skeleton) :
  InputHandler.settled LeftColor RightColor s ->
  (2 * InputHandler.size (InputHandler.boxes s) < InputHandler.int_max)%Z ->
  (forall consumed s',
     InputHandler.handle LeftColor RightColor createVisualAspect
                         getPositions setPositions type key s
     = Some (consumed, s') ->
     InputHandler.settled LeftColor RightColor s') /\
  ((type, key) <> (InputHandler.KEYDOWN, InputHandler.key_h) ->
   (type, key) <> (InputHandler.KEYDOWN, InputHandler.key_H) ->
   exists consumed s',
     InputHandler.handle LeftColor RightColor createVisualAspect
                         getPositions setPositions type key s
     = Some (consumed, s')).
Proof.
  intros St B. split.
  - intros consumed s' E.
    destruct (InputHandler.mHubo s) as [hubo|] eqn:Hh.
    2:{ unfold InputHandler.handle in E. rewrite Hh in E.
        inversion E; subst; exact St. }
    assert (Ld : forall c r, InputHandler.load setPositions c hubo s = Some r ->
                             InputHandler.settled LeftColor RightColor (snd r))
      by (intros c r; apply load_settled; exact St).
    assert (Wc : forall c, InputHandler.settled LeftColor RightColor
                             (InputHandler.with_c_index c s))
      by (intros c; eapply settled_ext; [| | | | | | |exact St]; reflexivity).
    destruct type; destruct key;
      try (match type of E with
           | InputHandler.handle _ _ _ _ _ ?t ?k _ = _ =>
               destruct (@handle_defined_settled t k s St B ltac:(discriminate)
                           ltac:(discriminate)) as (b & s1 & E1 & St1)
           end;
           rewrite E1 in E; inversion E; subst; exact St1).
    + unfold InputHandler.handle in E. rewrite Hh in E.
      destruct (InputHandler.incr (InputHandler.c_index s)) as [c|]; [|discriminate E].
      destruct (InputHandler.size (InputHandler.configs s)
                <=? InputHandler.to_size_t c)%Z.
      * destruct (InputHandler.configs s) eqn:Ec.
        -- inversion E; subst. apply Wc.
        -- apply (Ld _ _ E).
      * apply (Ld _ _ E).
    + unfold InputHandler.handle in E. rewrite Hh in E.
      destruct (InputHandler.decr (InputHandler.c_index s)) as [c|]; [|discriminate E].
      destruct (c <? 0)%Z.
      * destruct (InputHandler.configs s) eqn:Ec.
        -- inversion E; subst. apply Wc.
        -- apply (Ld _ _ E).
      * apply (Ld _ _ E).
  - intros Kh KH.
    destruct (@handle_defined_settled type key s St B Kh KH) as (b & s' & E & _).
    eauto.
Qed.



(** X18: The key [n] adds, for every box and in the order of [boxes], one box
    on the other side; the boxes that were there keep their side, and the
    last box added is the selected one. *)
Theorem key_n_mirrors_boxes (s : InputHandler.t Skeleton) :
  InputHandler.settled LeftColor RightColor s ->
  (2 * InputHandler.size (InputHandler.boxes s) <= InputHandler.int_max)%Z ->
  InputHandler.mHubo s <> None ->
  exists s',
    InputHandler.handle LeftColor RightColor createVisualAspect
                        getPositions setPositions InputHandler.KEYDOWN InputHandler.key_n s
    = Some (true, s') /\
    InputHandler.settled LeftColor RightColor s' /\
    map InputHandler.left (InputHandler.boxes s')
    = map InputHandler.left (InputHandler.boxes s)
      ++ map negb (map InputHandler.left (InputHandler.boxes s)) /\
    (InputHandler.boxes s <> [] ->
     InputHandler.mSelectedBox s'
     = (2 * InputHandler.size (InputHandler.boxes s) - 1)%Z).
Proof.
  intros St B H.
  destruct (InputHandler.mHubo s) as [hubo|] eqn:Hh; [|congruence].
  destruct (@flipLoop_settles (length (InputHandler.boxes s)) 0%nat s St)
    as (s' & E & St' & Lf & Sel); auto.
  { unfold InputHandler.size in *. lia. }
  { congruence. }
  exists s'. unfold InputHandler.handle. rewrite Hh, E.
  split; [reflexivity|]. split; [exact St'|]. split.
  - rewrite Lf. simpl. rewrite firstn_all2 by (rewrite length_map; lia).
    reflexivity.
  - intros Ne. rewrite Sel.
    destruct (InputHandler.boxes s) as [|b bs]; [congruence|].
    change (length (b :: bs) =? 0)%nat with false.
    unfold InputHandler.size. lia.
Qed.

Lemma to_size_t_negative (z : Z) :
  (- 2 ^ 64 <= z < 0)%Z -> InputHandler.to_size_t z = (z + 2 ^ 64)%Z.
Proof.
  intros H. unfold InputHandler.to_size_t.
  rewrite <- (Z.mod_add z 1 (2 ^ 64)) by lia.
  rewrite Z.mul_1_l. apply Z.mod_small. lia.
Qed.

Lemma at_inside (A : Type) (v : list A) (c : Z) :
  (0 <= c < InputHandler.size v)%Z ->
  (InputHandler.size v <= InputHandler.int_max)%Z ->
  exists q, InputHandler.at_ v c = Some q /\ nth_error v (Z.to_nat c) = Some q.
Proof.
  unfold InputHandler.at_, InputHandler.size, InputHandler.int_max. intros H B.
  rewrite to_size_t_small by lia.
  destruct (nth_error v (Z.to_nat c)) as [q|] eqn:N; [eauto|].
  apply nth_error_None in N. lia.
Qed.

Lemma at_outside (A : Type) (v : list A) (c : Z) :
  (InputHandler.size v <= c < 2 ^ 64)%Z -> InputHandler.at_ v c = None.
Proof.
  unfold InputHandler.at_, InputHandler.size. intros H.
  rewrite to_size_t_small by lia. apply nth_error_None. lia.
Qed.

(** X19: The key [h] always lands on a stored configuration. Whatever [int]
    [c_index] holds short of the largest, [handle] returns true; with no
    configuration stored it sets [c_index] to -1 and leaves the skeleton
    alone, and otherwise it moves [c_index] one up, or to 0 when that is
    not the index of a stored configuration, and gives the skeleton that
    configuration. *)
Theorem key_h_loads_a_stored_configuration
    (s : InputHandler.t Skeleton) (hubo : Skeleton) :
  InputHandler.mHubo s = Some hubo ->
  (InputHandler.int_min <= InputHandler.c_index s < InputHandler.int_max)%Z ->
  (InputHandler.size (InputHandler.configs s) <= InputHandler.int_max)%Z ->
  exists s',
    InputHandler.handle LeftColor RightColor createVisualAspect
                        getPositions setPositions InputHandler.KEYDOWN InputHandler.key_h s
    = Some (true, s') /\
    InputHandler.configs s' = InputHandler.configs s /\
    match InputHandler.configs s with
    | [] => InputHandler.c_index s' = (-1)%Z /\ InputHandler.mHubo s' = Some hubo
    | _ :: _ =>
        InputHandler.c_index s'
        = (if ((0 <=? InputHandler.c_index s + 1)
               && (InputHandler.c_index s + 1
                   <? InputHandler.size (InputHandler.configs s)))%Z%bool
           then InputHandler.c_index s + 1 else 0)%Z /\
        exists q,
          nth_error (InputHandler.configs s) (Z.to_nat (InputHandler.c_index s'))
          = Some q /\
          InputHandler.mHubo s' = Some (setPositions q hubo)
    end.
Proof.
  intros Hh C B. unfold InputHandler.handle, InputHandler.incr. rewrite Hh.
  replace (InputHandler.c_index s <? InputHandler.int_max)%Z with true
    by (symmetry; apply Z.ltb_lt; lia).
  unfold InputHandler.int_min, InputHandler.int_max in *.
  assert (S0 : (0 <= InputHandler.size (InputHandler.configs s))%Z)
    by (unfold InputHandler.size; lia).
  assert (First : forall q l, InputHandler.configs s = q :: l ->
            InputHandler.load setPositions 0 hubo s
            = Some (true, InputHandler.with_hubo (setPositions q hubo)
                            (InputHandler.with_c_index 0 s))).
  { intros q l E. unfold InputHandler.load, InputHandler.at_. rewrite E.
    reflexivity. }
  destruct ((0 <=? InputHandler.c_index s + 1)
            && (InputHandler.c_index s + 1
                <? InputHandler.size (InputHandler.configs s)))%Z%bool eqn:V.
  - apply andb_true_iff in V. destruct V as [V1 V2].
    apply Z.leb_le in V1. apply Z.ltb_lt in V2.
    rewrite to_size_t_small by lia.
    replace (InputHandler.size (InputHandler.configs s)
             <=? InputHandler.c_index s + 1)%Z with false
      by (symmetry; apply Z.leb_gt; lia).
    destruct (@at_inside _ (InputHandler.configs s) (InputHandler.c_index s + 1)%Z
                ltac:(lia) ltac:(unfold InputHandler.int_max; lia))
      as (q & A & N).
    unfold InputHandler.load. rewrite A. eexists. split; [reflexivity|].
    split; [reflexivity|].
    destruct (InputHandler.configs s) eqn:Ec.
    { unfold InputHandler.size in V2. simpl in V2. lia. }
    simpl. split; [reflexivity|]. exists q. split; [exact N|reflexivity].
  - assert (G : (InputHandler.size (InputHandler.configs s)
                 <=? InputHandler.to_size_t (InputHandler.c_index s + 1))%Z = true).
    { apply Z.leb_le. apply andb_false_iff in V. destruct V as [V|V].
      - apply Z.leb_gt in V. rewrite to_size_t_negative by lia. lia.
      - apply Z.ltb_ge in V.
        destruct (Z_lt_le_dec (InputHandler.c_index s + 1) 0).
        + rewrite to_size_t_negative by lia. lia.
        + rewrite to_size_t_small by lia. lia. }
    rewrite G.
    destruct (InputHandler.configs s) as [|q l] eqn:Ec.
    + eexists. split; [reflexivity|]. simpl. auto.
    + rewrite (First q l eq_refl). eexists. split; [reflexivity|]. simpl.
      split; [exact Ec|]. split; [reflexivity|].
      exists q. auto.
Qed.

(** X20: The key [H] with [c_index] between -1 and the number of stored
    configurations: [handle] returns true; with no configuration stored it
    sets [c_index] to -1 and leaves the skeleton alone, and otherwise it
    moves [c_index] one down, or to the last configuration from 0 and from
    -1, and gives the skeleton that configuration. *)
Theorem key_H_loads_a_stored_configuration
    (s : InputHandler.t Skeleton) (hubo : Skeleton) :
  InputHandler.mHubo s = Some hubo ->
  (-1 <= InputHandler.c_index s <= InputHandler.size (InputHandler.configs s))%Z ->
  (InputHandler.size (InputHandler.configs s) <= InputHandler.int_max)%Z ->
  exists s',
    InputHandler.handle LeftColor RightColor createVisualAspect
                        getPositions setPositions InputHandler.KEYDOWN InputHandler.key_H s
    = Some (true, s') /\
    InputHandler.configs s' = InputHandler.configs s /\
    match InputHandler.configs s with
    | [] => InputHandler.c_index s' = (-1)%Z /\ InputHandler.mHubo s' = Some hubo
    | _ :: _ =>
        InputHandler.c_index s'
        = (if (InputHandler.c_index s <=? 0)%Z
           then InputHandler.size (InputHandler.configs s) - 1
           else InputHandler.c_index s - 1)%Z /\
        exists q,
          nth_error (InputHandler.configs s) (Z.to_nat (InputHandler.c_index s'))
          = Some q /\
          InputHandler.mHubo s' = Some (setPositions q hubo)
    end.
Proof.
  intros Hh C B. unfold InputHandler.handle, InputHandler.decr. rewrite Hh.
  replace (InputHandler.int_min <? InputHandler.c_index s)%Z with true
    by (symmetry; apply Z.ltb_lt; unfold InputHandler.int_min; lia).
  assert (S0 : (0 <= InputHandler.size (InputHandler.configs s))%Z)
    by (unfold InputHandler.size; lia).
  rewrite last_index by lia.
  destruct (InputHandler.c_index s <=? 0)%Z eqn:V.
  - apply Z.leb_le in V.
    replace (InputHandler.c_index s - 1 <? 0)%Z with true
      by (symmetry; apply Z.ltb_lt; lia).
    destruct (InputHandler.configs s) as [|q0 l] eqn:Ec.
    + eexists. split; [reflexivity|]. simpl. auto.
    + rewrite <- Ec in *.
      destruct (@at_inside _ (InputHandler.configs s)
                  (InputHandler.size (InputHandler.configs s) - 1)%Z)
        as (q & A & N); [|exact B|].
      { rewrite Ec. unfold InputHandler.size. simpl length. lia. }
      unfold InputHandler.load. rewrite A. eexists. split; [reflexivity|].
      simpl. split; [reflexivity|]. split; [reflexivity|].
      exists q. split; [exact N|reflexivity].
  - apply Z.leb_gt in V.
    replace (InputHandler.c_index s - 1 <? 0)%Z with false
      by (symmetry; apply Z.ltb_ge; lia).
    destruct (@at_inside _ (InputHandler.configs s) (InputHandler.c_index s - 1)%Z
                ltac:(lia) B) as (q & A & N).
    unfold InputHandler.load. rewrite A. eexists. split; [reflexivity|].
    split; [reflexivity|].
    destruct (InputHandler.configs s) eqn:Ec.
    { unfold InputHandler.size in C. simpl in C. lia. }
    simpl. split; [reflexivity|]. exists q. split; [exact N|reflexivity].
Qed.

Lemma length_removelast' (A : Type) (v : list A) :
  length (removelast v) = (length v - 1)%nat.
Proof.
  induction v as [|a [|b v] IH]; try reflexivity.
  change (removelast (a :: b :: v)) with (a :: removelast (b :: v)).
  simpl length in *. rewrite IH. lia.
Qed.

(** X21: The key [U] drops the last stored configuration and leaves [c_index]
    as it is, and [H] does not check the index it moves down to: with the
    last of at least two stored configurations loaded, [U], [U], [H]
    reads [configs] past its end, which is not defined. *)
Theorem key_H_after_two_U_reads_past_the_end (s : InputHandler.t Skeleton) :
  InputHandler.mHubo s <> None ->
  (2 <= InputHandler.size (InputHandler.configs s) <= InputHandler.int_max)%Z ->
  InputHandler.c_index s = (InputHandler.size (InputHandler.configs s) - 1)%Z ->
  InputHandler.press LeftColor RightColor createVisualAspect
                     getPositions setPositions
                     [InputHandler.key_U; InputHandler.key_U; InputHandler.key_H] s
  = None.
Proof.
  intros H B C.
  destruct (InputHandler.mHubo s) as [hubo|] eqn:Hh; [|congruence].
  unfold InputHandler.press; cbn [map InputHandler.run]. unfold InputHandler.handle at 1. rewrite Hh.
  unfold InputHandler.handle at 1.
  cbn [InputHandler.mHubo InputHandler.with_configs]. rewrite Hh.
  unfold InputHandler.handle.
  cbn [InputHandler.mHubo InputHandler.with_configs InputHandler.c_index
       InputHandler.configs]. rewrite Hh.
  unfold InputHandler.decr, InputHandler.int_min, InputHandler.int_max in *.
  replace (- 2 ^ 31 <? InputHandler.c_index s)%Z with true
    by (symmetry; apply Z.ltb_lt; lia).
  replace (InputHandler.c_index s - 1 <? 0)%Z with false
    by (symmetry; apply Z.ltb_ge; lia).
  unfold InputHandler.load. cbn [InputHandler.configs InputHandler.with_configs].
  rewrite at_outside; [reflexivity|].
  unfold InputHandler.size in *. rewrite !length_removelast'. lia.
Qed.

Lemma nth_store (A : Type) (x d : A) :
  forall v i j, (i < length v)%nat ->
    nth j (InputHandler.store i x v) d = if (i =? j)%nat then x else nth j v d.
Proof.
  induction v as [|y v IH]; intros [|i] [|j] H; simpl in *; try lia; auto.
  apply IH. lia.
Qed.

Lemma anyLoop_true (moves : list bool) :
  TeleoperationWorld.anyLoop moves = true <-> exists i, nth i moves false = true.
Proof.
  induction moves as [|move moves IH]; simpl.
  - split; [discriminate|]. intros [[|i] H]; discriminate H.
  - destruct move.
    + split; [exists 0%nat; reflexivity|reflexivity].
    + rewrite IH. split.
      * intros [i H]. exists (S i). exact H.
      * intros [[|i] H]; [discriminate H|exists i; exact H].
Qed.

Lemma anyLoop_moves (moves : list bool) :
  length moves = TeleoperationWorld.NUM_MOVE ->
  (TeleoperationWorld.anyLoop moves = true
   <-> exists m, nth (TeleoperationWorld.index m) moves false = true).
Proof.
  intros L. rewrite anyLoop_true. split.
  - intros [i H].
    assert (I : (i < 8)%nat).
    { destruct (Nat.lt_ge_cases i 8) as [I|I]; [exact I|].
      rewrite nth_overflow in H by (rewrite L; exact I). discriminate H. }
    do 8 (destruct i as [|i];
          [first [ exists TeleoperationWorld.MOVE_Q; exact H
                 | exists TeleoperationWorld.MOVE_W; exact H
                 | exists TeleoperationWorld.MOVE_E; exact H
                 | exists TeleoperationWorld.MOVE_A; exact H
                 | exists TeleoperationWorld.MOVE_S; exact H
                 | exists TeleoperationWorld.MOVE_D; exact H
                 | exists TeleoperationWorld.MOVE_F; exact H
                 | exists TeleoperationWorld.MOVE_Z; exact H ]|]).
    lia.
  - intros [m H]. eauto.
Qed.

Lemma run_movement :
  forall (events : list (InputHandler.EventType * InputHandler.Key))
         (s : InputHandler.t Skeleton),
    InputHandler.settled LeftColor RightColor s ->
    InputHandler.mHubo s <> None ->
    (forall m capital,
       InputHandler.isOptimizationKey (InputHandler.key_move m capital) s = false) ->
    Forall InputHandler.movementEvent events ->
    TeleoperationWorld.mMoveComponents (InputHandler.mTeleop s)
    = InputHandler.mMoveComponents s ->
    TeleoperationWorld.mAnyMovement (InputHandler.mTeleop s)
    = TeleoperationWorld.anyLoop (InputHandler.mMoveComponents s) ->
    exists s',
      InputHandler.run LeftColor RightColor createVisualAspect
                       getPositions setPositions events s = Some s' /\
      InputHandler.settled LeftColor RightColor s' /\
      (forall m,
         nth (TeleoperationWorld.index m) (InputHandler.mMoveComponents s') false
         = InputHandler.held m events
             (nth (TeleoperationWorld.index m) (InputHandler.mMoveComponents s) false)) /\
      TeleoperationWorld.mMoveComponents (InputHandler.mTeleop s')
      = InputHandler.mMoveComponents s' /\
      TeleoperationWorld.mAnyMovement (InputHandler.mTeleop s')
      = TeleoperationWorld.anyLoop (InputHandler.mMoveComponents s').
Proof.
  induction events as [|[type key] events IH]; intros s St Hn Ok F Sy An.
  - exists s. simpl. auto.
  - inversion F as [|e es Me Fe]; subst.
    destruct (InputHandler.mHubo s) as [hubo|] eqn:Hh; [|congruence].
    pose proof (InputHandler.settled_moves St) as Mv.
    destruct key; simpl in Me; try contradiction.
    + (* the left shift key *)
      set (s1 := InputHandler.with_teleop
                   (TeleoperationWorld.setAmplifyMovement
                      (match type with
                       | InputHandler.KEYDOWN => true
                       | InputHandler.KEYUP => false
                       end) (InputHandler.mTeleop s)) s).
      assert (E : InputHandler.handle LeftColor RightColor createVisualAspect
                    getPositions setPositions type InputHandler.KEY_Shift_L s
                  = Some (false, s1)).
      { unfold InputHandler.handle. rewrite Hh. destruct type; reflexivity. }
      destruct (IH s1) as (s' & R & St' & Hd & Sy' & An'); auto.
      * eapply settled_ext; [| | | | | | |exact St]; reflexivity.
      * simpl. congruence.
      * cbn [InputHandler.run]. rewrite E. exists s'. auto.
    + (* a letter that moves the robot *)
      destruct (@move_settled m
                  (match type with
                   | InputHandler.KEYDOWN => true
                   | InputHandler.KEYUP => false
                   end) s St)
        as (s1 & E1 & St1 & C1 & Sy1 & An1 & _ & Hu1 & Op1).
      assert (E : InputHandler.handle LeftColor RightColor createVisualAspect
                    getPositions setPositions type
                    (InputHandler.key_move m capital) s
                  = Some (true, s1)).
      { unfold InputHandler.handle. rewrite Hh. destruct type; [exact E1|].
        rewrite Ok. exact E1. }
      destruct (IH s1) as (s' & R & St' & Hd & Sy' & An'); auto.
      * congruence.
      * intros m0 c0. unfold InputHandler.isOptimizationKey in *.
        rewrite Op1. apply Ok.
      * cbn [InputHandler.run]. rewrite E. exists s'.
        split; [exact R|]. split; [exact St'|]. split; [|auto].
        intros m0. rewrite Hd, C1. cbn [InputHandler.held]. f_equal.
        apply nth_store. rewrite Mv. destruct m; simpl;
          unfold TeleoperationWorld.NUM_MOVE; lia.
Qed.

(** X22: The robot is told to move exactly while a movement key is held. From a
    state in order in which the world has the movement components of the
    handler, any events on the letters q, w, e, a, s, d, f, z, small or
    capital, and on the left shift key are handled; afterwards the
    component of a movement is set exactly when the last event on its
    letters was a press, the world has the same components again, and
    its [mAnyMovement] is true exactly when some component is set. *)
Theorem movement_follows_keys
    (events : list (InputHandler.EventType * InputHandler.Key))
    (s : InputHandler.t Skeleton) :
  InputHandler.settled LeftColor RightColor s ->
  InputHandler.mHubo s <> None ->
  (forall m capital,
     InputHandler.isOptimizationKey (InputHandler.key_move m capital) s = false) ->
  Forall InputHandler.movementEvent events ->
  TeleoperationWorld.mMoveComponents (InputHandler.mTeleop s)
  = InputHandler.mMoveComponents s ->
  TeleoperationWorld.mAnyMovement (InputHandler.mTeleop s)
  = TeleoperationWorld.anyLoop (InputHandler.mMoveComponents s) ->
  exists s',
    InputHandler.run LeftColor RightColor createVisualAspect
                     getPositions setPositions events s = Some s' /\
    (forall m,
       nth (TeleoperationWorld.index m) (InputHandler.mMoveComponents s') false
       = InputHandler.held m events
           (nth (TeleoperationWorld.index m) (InputHandler.mMoveComponents s) false)) /\
    TeleoperationWorld.mMoveComponents (InputHandler.mTeleop s')
    = InputHandler.mMoveComponents s' /\
    (TeleoperationWorld.mAnyMovement (InputHandler.mTeleop s') = true
     <-> exists m,
           InputHandler.held m events
             (nth (TeleoperationWorld.index m) (InputHandler.mMoveComponents s) false)
           = true).
Proof.
  intros St Hn Ok F Sy An.
  destruct (@run_movement events s St Hn Ok F Sy An)
    as (s' & R & St' & Hd & Sy' & An').
  exists s'. split; [exact R|]. split; [exact Hd|]. split; [exact Sy'|].
  rewrite An', (@anyLoop_moves _ (InputHandler.settled_moves St')).
  split; intros [m H]; exists m; [rewrite <- Hd|rewrite Hd]; exact H.
Qed.

End HandlerFacts.

Lemma handler_settled :
  InputHandler.settled Puppet.LeftColor Puppet.RightColor Puppet.handler.
Proof.
  constructor; try (vm_compute; repeat split; (reflexivity || discriminate)).
  - simpl. constructor; [split; discriminate|constructor].
  - intros [|[|i]] b H; simpl in H; inversion H; reflexivity.
  - simpl. constructor.
Qed.

Lemma handle_keeps_settled_witness :
  (forall consumed s',
     Puppet.handle InputHandler.KEYDOWN InputHandler.KEY_Down Puppet.handler
     = Some (consumed, s') ->
     InputHandler.settled Puppet.LeftColor Puppet.RightColor s') /\
  ((InputHandler.KEYDOWN, InputHandler.KEY_Down)
   <> (InputHandler.KEYDOWN, InputHandler.key_h) ->
   (InputHandler.KEYDOWN, InputHandler.KEY_Down)
   <> (InputHandler.KEYDOWN, InputHandler.key_H) ->
   exists consumed s',
     Puppet.handle InputHandler.KEYDOWN InputHandler.KEY_Down Puppet.handler
     = Some (consumed, s')).
Proof.
  apply (@handle_keeps_settled Puppet.LeftColor Puppet.RightColor
           (Puppet.aspect (1, 1, 1, 1)) VectorXd (fun hubo => hubo)
           (fun q _ => q) InputHandler.KEYDOWN InputHandler.KEY_Down
           Puppet.handler).
  - exact handler_settled.
  - vm_compute. reflexivity.
Defined.



Lemma key_n_mirrors_boxes_witness :
  exists s',
    Puppet.handle InputHandler.KEYDOWN InputHandler.key_n Puppet.handler
    = Some (true, s') /\
    InputHandler.settled Puppet.LeftColor Puppet.RightColor s' /\
    map InputHandler.left (InputHandler.boxes s') = [true; false] /\
    (InputHandler.boxes Puppet.handler <> [] ->
     InputHandler.mSelectedBox s' = 1%Z).
Proof.
  apply (@key_n_mirrors_boxes Puppet.LeftColor Puppet.RightColor
           (Puppet.aspect (1, 1, 1, 1)) VectorXd (fun hubo => hubo)
           (fun q _ => q) Puppet.handler).
  - exact handler_settled.
  - vm_compute. discriminate.
  - discriminate.
Defined.

Lemma key_h_loads_a_stored_configuration_witness :
  exists s',
    Puppet.handle InputHandler.KEYDOWN InputHandler.key_h Puppet.handler
    = Some (true, s') /\
    InputHandler.configs s' = InputHandler.configs Puppet.handler /\
    InputHandler.c_index s' = 0%Z /\
    exists q,
      nth_error (InputHandler.configs Puppet.handler)
                (Z.to_nat (InputHandler.c_index s')) = Some q /\
      InputHandler.mHubo s' = Some q.
Proof.
  apply (@key_h_loads_a_stored_configuration Puppet.LeftColor Puppet.RightColor
           (Puppet.aspect (1, 1, 1, 1)) VectorXd (fun hubo => hubo)
           (fun q _ => q) Puppet.handler [5; 6]).
  - reflexivity.
  - vm_compute. split; [discriminate|reflexivity].
  - vm_compute. discriminate.
Defined.

Lemma key_H_loads_a_stored_configuration_witness :
  exists s',
    Puppet.handle InputHandler.KEYDOWN InputHandler.key_H Puppet.handler
    = Some (true, s') /\
    InputHandler.configs s' = InputHandler.configs Puppet.handler /\
    InputHandler.c_index s' = 1%Z /\
    exists q,
      nth_error (InputHandler.configs Puppet.handler)
                (Z.to_nat (InputHandler.c_index s')) = Some q /\
      InputHandler.mHubo s' = Some q.
Proof.
  apply (@key_H_loads_a_stored_configuration Puppet.LeftColor Puppet.RightColor
           (Puppet.aspect (1, 1, 1, 1)) VectorXd (fun hubo => hubo)
           (fun q _ => q) Puppet.handler [5; 6]).
  - reflexivity.
  - vm_compute. split; discriminate.
  - vm_compute. discriminate.
Defined.

Lemma key_H_after_two_U_reads_past_the_end_witness :
  Puppet.press [InputHandler.key_U; InputHandler.key_U; InputHandler.key_H]
               Puppet.handler
  = None.
Proof.
  apply (@key_H_after_two_U_reads_past_the_end Puppet.LeftColor Puppet.RightColor
           (Puppet.aspect (1, 1, 1, 1)) VectorXd (fun hubo => hubo)
           (fun q _ => q) Puppet.handler).
  - discriminate.
  - vm_compute. split; discriminate.
  - reflexivity.
Defined.

Lemma movement_follows_keys_witness :
  exists s',
    Puppet.run
      [(InputHandler.KEYDOWN, InputHandler.key_move TeleoperationWorld.MOVE_W false);
       (InputHandler.KEYDOWN, InputHandler.KEY_Shift_L);
       (InputHandler.KEYDOWN, InputHandler.key_move TeleoperationWorld.MOVE_A true);
       (InputHandler.KEYUP, InputHandler.key_move TeleoperationWorld.MOVE_W true)]
      Puppet.handler = Some s' /\
    (forall m,
       nth (TeleoperationWorld.index m) (InputHandler.mMoveComponents s') false
       = InputHandler.held m
           [(InputHandler.KEYDOWN, InputHandler.key_move TeleoperationWorld.MOVE_W false);
            (InputHandler.KEYDOWN, InputHandler.KEY_Shift_L);
            (InputHandler.KEYDOWN, InputHandler.key_move TeleoperationWorld.MOVE_A true);
            (InputHandler.KEYUP, InputHandler.key_move TeleoperationWorld.MOVE_W true)]
           (nth (TeleoperationWorld.index m)
                (InputHandler.mMoveComponents Puppet.handler) false)) /\
    TeleoperationWorld.mMoveComponents (InputHandler.mTeleop s')
    = InputHandler.mMoveComponents s' /\
    (TeleoperationWorld.mAnyMovement (InputHandler.mTeleop s') = true
     <-> exists m,
           InputHandler.held m
             [(InputHandler.KEYDOWN, InputHandler.key_move TeleoperationWorld.MOVE_W false);
              (InputHandler.KEYDOWN, InputHandler.KEY_Shift_L);
              (InputHandler.KEYDOWN, InputHandler.key_move TeleoperationWorld.MOVE_A true);
              (InputHandler.KEYUP, InputHandler.key_move TeleoperationWorld.MOVE_W true)]
             (nth (TeleoperationWorld.index m)
                  (InputHandler.mMoveComponents Puppet.handler) false)
           = true).
Proof.
  apply (@movement_follows_keys Puppet.LeftColor Puppet.RightColor
           (Puppet.aspect (1, 1, 1, 1)) VectorXd (fun hubo => hubo)
           (fun q _ => q)
           [(InputHandler.KEYDOWN, InputHandler.key_move TeleoperationWorld.MOVE_W false);
            (InputHandler.KEYDOWN, InputHandler.KEY_Shift_L);
            (InputHandler.KEYDOWN, InputHandler.key_move TeleoperationWorld.MOVE_A true);
            (InputHandler.KEYUP, InputHandler.key_move TeleoperationWorld.MOVE_W true)]
           Puppet.handler).
  - exact handler_settled.
  - discriminate.
  - intros [] []; reflexivity.
  - repeat constructor.
  - reflexivity.
  - reflexivity.
Defined.
